(** * Paper trader for 15-minute UP/DOWN markets: order simulation,
      strategy engine, settlement and persistence

    A shallow embedding of
    [_analysis/polymarket-15-min-strategy-papertrader/main.py].

    Conventions of the embedding.
    - Python [float]s are modelled as exact rationals [Q]; every
      comparison of the source is kept as a boolean test on [Q].
      Rounding of binary64 arithmetic is not modelled.
    - Python dictionaries are [gmap]s; the side labels ["UP"] and
      ["DOWN"] are the constructors of [Side].
    - The CSV audit trail written by [FileLogger] is the list of the
      records appended so far.  Wall-clock stamps ([ts], [saved_at],
      [end_time]) carry no logic and are left out of the records.
    - A [while] loop whose exit is not structurally evident is given by
      its body (one iteration, or exit) and iterated explicitly. *)

From Stdlib Require Import QArith Qminmax Qabs Lqa ZArith List Bool
  Sorting.Sorted.
From stdpp Require Import gmap strings list fin_maps.

Set Warnings "-register-all".
Local Open Scope Q_scope.

(* ===================================================================== *)
(** ** Rational arithmetic helpers *)
(* ===================================================================== *)

(** [x < y] as a boolean, next to the library's [Qle_bool]. *)
Definition Qlt_bool (x y : Q) : bool := negb (Qle_bool y x).

(** [clamp(n, lo, hi) = max(lo, min(hi, n))]. *)
Definition clamp (n lo hi : Q) : Q := Qmax lo (Qmin hi n).

(* ===================================================================== *)
(** ** Data model *)
(* ===================================================================== *)

Inductive Side := UP | DOWN.

#[global] Instance Side_eq_dec : EqDecision Side.
Proof. solve_decision. Defined.

(** A value per side label, as the two-key dictionaries of the engine. *)
Record BySide (A : Type) := mkBySide { at_up : A; at_down : A }.
Arguments mkBySide {A} _ _.
Arguments at_up {A} _.
Arguments at_down {A} _.

Definition side_get {A} (d : BySide A) (s : Side) : A :=
  match s with UP => at_up d | DOWN => at_down d end.

Definition side_set {A} (d : BySide A) (s : Side) (v : A) : BySide A :=
  match s with
  | UP => mkBySide v (at_down d)
  | DOWN => mkBySide (at_up d) v
  end.

Record StrategyConfig := {
  symbols : list string;
  buy_chunk_usd : Q;
  max_side_spend_usd : Q;
  require_free_cash : Q;
  entry_ask_cents : Q;
  dca_step_cents : Q;
  dca_levels : Z;
  sum_cap_dollars : Q;
  expensive_min : Q;
  cheap_max : Q;
  spread_sum_cap : Q;
  settle_signal_bid : Q
}.

(** The defaults of the [StrategyConfig] dataclass; [main] never
    overrides any of the fields listed here. *)
Definition default_cfg : StrategyConfig := {|
  symbols := ["BTC"; "ETH"; "SOL"; "XRP"]%string;
  buy_chunk_usd := 1.0;
  max_side_spend_usd := 4.0;
  require_free_cash := 0.05;
  entry_ask_cents := 35.0;
  dca_step_cents := 5.0;
  dca_levels := 3;
  sum_cap_dollars := 0.99;
  expensive_min := 0.73;
  cheap_max := 0.22;
  spread_sum_cap := 1.00;
  settle_signal_bid := 0.99
|}.

Record Fill := {
  fill_slug : string;
  fill_symbol : string;
  fill_token_id : string;
  fill_side : string;
  fill_price : Q;
  fill_shares : Q;
  fill_usd : Q;
  fill_note : string
}.

Record MarketResult := {
  res_slug : string;
  res_symbol : string;
  winner : Side;
  res_up_token : string;
  res_down_token : string;
  up_shares : Q;
  down_shares : Q;
  up_cost : Q;
  down_cost : Q;
  pnl : Q;
  balance_after : Q
}.

Record Position := mkPosition { shares : Q; cost_usd : Q }.

(** [Position()], both fields at their default [0.0]. *)
Definition Position0 : Position := mkPosition 0 0.

Definition avg_price (p : Position) : Q :=
  if Qle_bool (shares p) 0 then 0 else cost_usd p / shares p.

(** A price level is the pair [(price, size)]. *)
Definition Level : Type := Q * Q.

Record OrderBook := { bids : list Level; asks : list Level }.

Definition empty_book : OrderBook := {| bids := []; asks := [] |}.

Definition best_bid (ob : OrderBook) : option Q :=
  match bids ob with [] => None | (p, _) :: _ => Some p end.

Definition best_ask (ob : OrderBook) : option Q :=
  match asks ob with [] => None | (p, _) :: _ => Some p end.

(** *** OrderBookStore *)

(** Stable insertion by ascending price, and by descending price: the
    orders produced by [aa.sort(key=price)] and
    [bb.sort(key=price, reverse=True)]. *)
Fixpoint insert_asc (x : Level) (l : list Level) : list Level :=
  match l with
  | [] => [x]
  | y :: ys => if Qle_bool (fst x) (fst y) then x :: y :: ys
               else y :: insert_asc x ys
  end.

Definition sort_asc (l : list Level) : list Level := foldr insert_asc [] l.

Fixpoint insert_desc (x : Level) (l : list Level) : list Level :=
  match l with
  | [] => [x]
  | y :: ys => if Qle_bool (fst y) (fst x) then x :: y :: ys
               else y :: insert_desc x ys
  end.

Definition sort_desc (l : list Level) : list Level := foldr insert_desc [] l.

(** Ascending price order between two levels. *)
Definition asc_prices (a b : Level) : Prop := fst a <= fst b.

(** A raw level of a snapshot after [safe_float] on its two fields:
    [None] where the field is missing or not numeric. *)
Definition RawLevel : Type := option Q * option Q.

Definition parse_levels (raw : list RawLevel) : list Level :=
  omap (fun lvl => match lvl with
                   | (Some p, Some s) => Some (p, s)
                   | _ => None
                   end) raw.

Definition snapshot_book (raw_bids raw_asks : list RawLevel) : OrderBook :=
  {| bids := sort_desc (parse_levels raw_bids);
     asks := sort_asc (parse_levels raw_asks) |}.

Definition update_from_snapshot (store : gmap string OrderBook)
    (token_id : string) (raw_bids raw_asks : list RawLevel)
    : gmap string OrderBook :=
  <[token_id := snapshot_book raw_bids raw_asks]> store.

Definition store_get (store : gmap string OrderBook) (token_id : string)
    : OrderBook :=
  default empty_book (store !! token_id).

(** *** Accounts and markets *)

Record PaperAccount := {
  symbol : string;
  cash : Q;
  positions : gmap string Position
}.

(** [acct.positions.get(token_id, Position())]. *)
Definition position_of (acct : PaperAccount) (token_id : string) : Position :=
  default Position0 (positions acct !! token_id).

Record ActiveMarket := {
  mkt_symbol : string;
  mkt_slug : string;
  condition_id : string;
  up_token : string;
  down_token : string
}.

(* ===================================================================== *)
(** ** Order simulation *)
(* ===================================================================== *)

(** The tolerance [1e-9] under which the remaining budget counts as
    spent. *)
Definition budget_eps : Q := 1e-9.

(** The [for price, size in ob.asks] loop of [consume_asks_for_buy] with
    its three accumulators; the result is [(shares, spent)]. *)
Fixpoint consume_loop (levels : list Level) (remaining sh spent : Q)
    : Q * Q :=
  match levels with
  | [] => (sh, spent)
  | (price, size) :: rest =>
      if Qle_bool remaining budget_eps then (sh, spent)
      else if Qle_bool price 0 then consume_loop rest remaining sh spent
      else
        let max_shares_here := Qmin size (remaining / price) in
        if Qle_bool max_shares_here 0
        then consume_loop rest remaining sh spent
        else
          let cost_here := max_shares_here * price in
          consume_loop rest (remaining - cost_here)
                       (sh + max_shares_here) (spent + cost_here)
  end.

(** Returns [(shares, avg, spent)]. *)
Definition consume_asks_for_buy (ob : OrderBook) (usd_to_spend : Q)
    : Q * Q * Q :=
  let '(sh, spent) := consume_loop (asks ob) usd_to_spend 0 0 in
  let avg := if Qlt_bool 0 sh then spent / sh else 0 in
  (sh, avg, spent).

(** The walk as the specification words it: at each level take
    [min(level.size, remaining_budget / level.price)] shares and pay
    for them, until the budget is exhausted (up to [budget_eps]) or the
    levels run out.  The result is [(shares, spent)]. *)
Fixpoint walk_levels (levels : list Level) (budget : Q) : Q * Q :=
  match levels with
  | [] => (0, 0)
  | (price, size) :: rest =>
      if Qle_bool budget budget_eps then (0, 0)
      else
        let take := Qmin size (budget / price) in
        let '(sh, spent) := walk_levels rest (budget - take * price) in
        (take + sh, take * price + spent)
  end.

(** A level of the data model: a positive price and a size that is not
    negative. *)
Definition level_ok (lv : Level) : Prop := 0 < fst lv /\ 0 <= snd lv.

(* ===================================================================== *)
(** ** Strategy engine *)
(* ===================================================================== *)

Inductive Mode := threshold35 | spread73_22.

(** The per-market scratch state of [UpDownStrategyEngine]. *)
Record Engine := {
  primary : option Side;
  next_dca_threshold : BySide Q;
  dca_buys_done : BySide Z
}.

Definition reset_for_new_market (cfg : StrategyConfig) : Engine := {|
  primary := None;
  next_dca_threshold :=
    mkBySide (entry_ask_cents cfg / 100) (entry_ask_cents cfg / 100);
  dca_buys_done := mkBySide 0%Z 0%Z
|}.

(** What a buy mutates: the account and the fills log. *)
Record Ledger := { acct : PaperAccount; flog : list Fill }.

Definition _maybe_buy (cfg : StrategyConfig) (mkt : ActiveMarket)
    (token_id : string) (ob : OrderBook) (usd : Q) (note : string)
    (L : Ledger) : Ledger :=
  if Qle_bool usd 0 then L
  else if Qlt_bool (cash (acct L)) (usd + require_free_cash cfg) then L
  else
    let '(sh, avg, spent) := consume_asks_for_buy ob usd in
    if Qle_bool sh 0 || Qle_bool spent 0 then L
    else
      let pos := position_of (acct L) token_id in
      let pos' := {| shares := shares pos + sh;
                     cost_usd := cost_usd pos + spent |} in
      {| acct := {| symbol := symbol (acct L);
                    cash := cash (acct L) - spent;
                    positions := <[token_id := pos']> (positions (acct L)) |};
         flog := flog L ++ [ {| fill_slug := mkt_slug mkt;
                                fill_symbol := mkt_symbol mkt;
                                fill_token_id := token_id;
                                fill_side := "BUY";
                                fill_price := avg;
                                fill_shares := sh;
                                fill_usd := spent;
                                fill_note := note |} ] |}.

Definition side_note (side_label : Side) : string :=
  match side_label with
  | UP => "UP_entry_or_dca"
  | DOWN => "DOWN_entry_or_dca"
  end.

Definition _dca_if_trigger (cfg : StrategyConfig) (mkt : ActiveMarket)
    (side_label : Side) (token_id : string) (ob : OrderBook) (best : Q)
    (eng : Engine) (L : Ledger) : Engine * Ledger :=
  let pos := position_of (acct L) token_id in
  if Qle_bool (max_side_spend_usd cfg) (cost_usd pos) then (eng, L)
  else
    let threshold := side_get (next_dca_threshold eng) side_label in
    if Qle_bool best threshold then
      if (side_get (dca_buys_done eng) side_label <=? dca_levels cfg)%Z then
        let L' := _maybe_buy cfg mkt token_id ob (buy_chunk_usd cfg)
                             (side_note side_label) L in
        ({| primary := primary eng;
            next_dca_threshold :=
              side_set (next_dca_threshold eng) side_label
                (clamp (threshold - dca_step_cents cfg / 100) 0.01 0.99);
            dca_buys_done :=
              side_set (dca_buys_done eng) side_label
                (side_get (dca_buys_done eng) side_label + 1)%Z |}, L')
      else (eng, L)
    else (eng, L).

(** The tolerance [1e-9] of the hedge loop's cost comparison. *)
Definition hedge_eps : Q := 1e-9.

(** The variables of the [while] loop of [_hedge_chunks]. *)
Record HedgeVars := {
  primary_pos : Position;
  hedge_pos : Position;
  ledger : Ledger
}.

(** One turn of the [while] loop of [_hedge_chunks]: [None] when the loop
    is left (its condition is false, or one of the three [break]s is
    taken), [Some v'] when the body runs to its end. *)
Definition hedge_body (cfg : StrategyConfig) (mkt : ActiveMarket)
    (primary_token hedge_token : string) (hedge_ob : OrderBook)
    (v : HedgeVars) : option HedgeVars :=
  if Qlt_bool (cost_usd (hedge_pos v) + hedge_eps) (cost_usd (primary_pos v))
  then
    if Qle_bool (max_side_spend_usd cfg) (cost_usd (hedge_pos v)) then None
    else
      let '(est_shares, est_avg, est_spent) :=
        consume_asks_for_buy hedge_ob (buy_chunk_usd cfg) in
      if Qle_bool est_shares 0 || Qle_bool est_spent 0 then None
      else
        let combined := avg_price (primary_pos v) + est_avg in
        if Qle_bool (sum_cap_dollars cfg) combined then None
        else
          let L' := _maybe_buy cfg mkt hedge_token hedge_ob
                               (buy_chunk_usd cfg) "hedge_chunk_sumcap_ok"
                               (ledger v) in
          Some {| primary_pos := position_of (acct L') primary_token;
                  hedge_pos := position_of (acct L') hedge_token;
                  ledger := L' |}
  else None.

(** The variables after [n] completed turns of the loop, [None] if the
    loop is left before. *)
Fixpoint hedge_turns (cfg : StrategyConfig) (mkt : ActiveMarket)
    (primary_token hedge_token : string) (hedge_ob : OrderBook)
    (n : nat) (v : HedgeVars) : option HedgeVars :=
  match n with
  | O => Some v
  | S k =>
      match hedge_body cfg mkt primary_token hedge_token hedge_ob v with
      | None => None
      | Some v' => hedge_turns cfg mkt primary_token hedge_token hedge_ob k v'
      end
  end.

(** The loop run with a bound on its turns: [Some v'] when it is left
    within [fuel] turns with variables [v'], [None] when it is still
    running after [fuel] turns. *)
Fixpoint hedge_loop (cfg : StrategyConfig) (mkt : ActiveMarket)
    (primary_token hedge_token : string) (hedge_ob : OrderBook)
    (fuel : nat) (v : HedgeVars) : option HedgeVars :=
  match hedge_body cfg mkt primary_token hedge_token hedge_ob v with
  | None => Some v
  | Some v' =>
      match fuel with
      | O => None
      | S k => hedge_loop cfg mkt primary_token hedge_token hedge_ob k v'
      end
  end.

Definition _hedge_chunks (fuel : nat) (cfg : StrategyConfig)
    (mkt : ActiveMarket) (primary_token hedge_token : string)
    (ppos hpos : Position) (hedge_ob : OrderBook) (hedge_ask : Q)
    (L : Ledger) : option Ledger :=
  let entry := entry_ask_cents cfg / 100 in
  if Qlt_bool entry hedge_ask then Some L
  else
    ledger <$> hedge_loop cfg mkt primary_token hedge_token hedge_ob fuel
                 {| primary_pos := ppos; hedge_pos := hpos; ledger := L |}.

(** The choice of the primary side at the head of [_step_threshold35]. *)
Definition choose_primary (cfg : StrategyConfig) (up_ask down_ask : Q)
    (eng : Engine) : Engine :=
  let entry := entry_ask_cents cfg / 100 in
  match primary eng with
  | Some _ => eng
  | None =>
      if Qle_bool up_ask entry then
        {| primary := Some UP;
           next_dca_threshold := next_dca_threshold eng;
           dca_buys_done := dca_buys_done eng |}
      else if Qle_bool down_ask entry then
        {| primary := Some DOWN;
           next_dca_threshold := next_dca_threshold eng;
           dca_buys_done := dca_buys_done eng |}
      else eng
  end.

(** The DCA stage of [_step_threshold35]: the primary side, once
    chosen, is offered to [_dca_if_trigger]. *)
Definition dca_stage (cfg : StrategyConfig) (mkt : ActiveMarket)
    (up_ob down_ob : OrderBook) (up_ask down_ask : Q)
    (eng : Engine) (L : Ledger) : Engine * Ledger :=
  match primary eng with
  | Some UP => _dca_if_trigger cfg mkt UP (up_token mkt) up_ob up_ask eng L
  | Some DOWN =>
      _dca_if_trigger cfg mkt DOWN (down_token mkt) down_ob down_ask eng L
  | None => (eng, L)
  end.

(** The hedge stage of [_step_threshold35].  [up_pos] and [down_pos] are
    read once, after the DCA stage; at most one of the two hedge calls
    runs, so the values read are current at the call that uses them. *)
Definition hedge_stage (fuel : nat) (cfg : StrategyConfig)
    (mkt : ActiveMarket) (up_ob down_ob : OrderBook) (up_ask down_ask : Q)
    (prim : option Side) (L : Ledger) : option Ledger :=
  let up_pos := position_of (acct L) (up_token mkt) in
  let down_pos := position_of (acct L) (down_token mkt) in
  L1 ← (if bool_decide (prim = Some UP) && Qlt_bool 0 (cost_usd up_pos)
        then _hedge_chunks fuel cfg mkt (up_token mkt) (down_token mkt)
                           up_pos down_pos down_ob down_ask L
        else Some L);
  (if bool_decide (prim = Some DOWN) && Qlt_bool 0 (cost_usd down_pos)
   then _hedge_chunks fuel cfg mkt (down_token mkt) (up_token mkt)
                      down_pos up_pos up_ob up_ask L1
   else Some L1).

Definition _step_threshold35 (fuel : nat) (cfg : StrategyConfig)
    (mkt : ActiveMarket) (up_ob down_ob : OrderBook) (up_ask down_ask : Q)
    (eng : Engine) (L : Ledger) : option (Engine * Ledger) :=
  let eng1 := choose_primary cfg up_ask down_ask eng in
  let '(eng2, L2) :=
    dca_stage cfg mkt up_ob down_ob up_ask down_ask eng1 L in
  L3 ← hedge_stage fuel cfg mkt up_ob down_ob up_ask down_ask
                   (primary eng2) L2;
  Some (eng2, L3).

Definition _step_spread73_22 (cfg : StrategyConfig) (mkt : ActiveMarket)
    (up_ob down_ob : OrderBook) (up_ask down_ask : Q) (L : Ledger)
    : Ledger :=
  let L1 :=
    if Qle_bool (expensive_min cfg) up_ask
       && Qle_bool down_ask (cheap_max cfg)
       && Qlt_bool (up_ask + down_ask) (spread_sum_cap cfg)
    then
      _maybe_buy cfg mkt (down_token mkt) down_ob (buy_chunk_usd cfg)
        "spread73_22_down_cheap"
        (_maybe_buy cfg mkt (up_token mkt) up_ob (buy_chunk_usd cfg)
           "spread73_22_up_exp" L)
    else L in
  if Qle_bool (expensive_min cfg) down_ask
     && Qle_bool up_ask (cheap_max cfg)
     && Qlt_bool (down_ask + up_ask) (spread_sum_cap cfg)
  then
    _maybe_buy cfg mkt (up_token mkt) up_ob (buy_chunk_usd cfg)
      "spread73_22_up_cheap"
      (_maybe_buy cfg mkt (down_token mkt) down_ob (buy_chunk_usd cfg)
         "spread73_22_down_exp" L1)
  else L1.

(** One tick of the engine.  [None] only when the hedge loop is still
    running after [fuel] turns. *)
Definition step (fuel : nat) (cfg : StrategyConfig) (mode : Mode)
    (mkt : ActiveMarket) (store : gmap string OrderBook)
    (eng : Engine) (L : Ledger) : option (Engine * Ledger) :=
  let up_ob := store_get store (up_token mkt) in
  let down_ob := store_get store (down_token mkt) in
  match best_ask up_ob, best_ask down_ob, best_bid up_ob, best_bid down_ob with
  | Some up_ask, Some down_ask, Some _, Some _ =>
      match mode with
      | threshold35 =>
          _step_threshold35 fuel cfg mkt up_ob down_ob up_ask down_ask eng L
      | spread73_22 =>
          Some (eng, _step_spread73_22 cfg mkt up_ob down_ob up_ask down_ask L)
      end
  | _, _, _, _ => Some (eng, L)
  end.

(* ===================================================================== *)
(** ** Settlement *)
(* ===================================================================== *)

Definition pick_winner_from_book (mkt : ActiveMarket)
    (store : gmap string OrderBook) (signal : Q) : option Side :=
  match best_bid (store_get store (up_token mkt)),
        best_bid (store_get store (down_token mkt)) with
  | Some up_bid, Some down_bid =>
      if Qle_bool signal up_bid then Some UP
      else if Qle_bool signal down_bid then Some DOWN
      else None
  | _, _ => None
  end.

(** [best_bid() or 0.0]: an absent bid and a bid of zero both give
    [0.0]. *)
Definition bid_or_zero (b : option Q) : Q :=
  match b with
  | Some p => if Qeq_bool p 0 then 0 else p
  | None => 0
  end.

Definition force_pick_winner (mkt : ActiveMarket)
    (store : gmap string OrderBook) : Side :=
  let up_bid := bid_or_zero (best_bid (store_get store (up_token mkt))) in
  let down_bid := bid_or_zero (best_bid (store_get store (down_token mkt))) in
  if Qlt_bool down_bid up_bid then UP
  else if Qlt_bool up_bid down_bid then DOWN
  else UP.

(** The polling loop of [settle_market].  [polls] are the states of the
    store met at the successive turns that fit into
    [settle_max_wait_sec]; the result is the first winner seen. *)
Fixpoint wait_for_winner (mkt : ActiveMarket) (signal : Q)
    (polls : list (gmap string OrderBook)) : option Side :=
  match polls with
  | [] => None
  | store :: later =>
      match pick_winner_from_book mkt store signal with
      | Some w => Some w
      | None => wait_for_winner mkt signal later
      end
  end.

(** [polls] as in [wait_for_winner]; [store] is the store once the wait
    is over.  [rlog] is the results log.  The upload that follows the
    log line changes none of the three results. *)
Definition settle_market (mkt : ActiveMarket)
    (polls : list (gmap string OrderBook)) (store : gmap string OrderBook)
    (a : PaperAccount) (rlog : list MarketResult) (cfg : StrategyConfig)
    : MarketResult * PaperAccount * list MarketResult :=
  let up_pos := position_of a (up_token mkt) in
  let down_pos := position_of a (down_token mkt) in
  let w :=
    match wait_for_winner mkt (settle_signal_bid cfg) polls with
    | Some w => w
    | None => force_pick_winner mkt store
    end in
  let redeem :=
    (match w with UP => shares up_pos | DOWN => shares down_pos end) * 1 in
  let cash' := cash a + redeem in
  let a' := {| symbol := symbol a;
               cash := cash';
               positions := <[down_token mkt := mkPosition 0 0]>
                              (<[up_token mkt := mkPosition 0 0]>
                                 (positions a)) |} in
  let res := {| res_slug := mkt_slug mkt;
                res_symbol := mkt_symbol mkt;
                winner := w;
                res_up_token := up_token mkt;
                res_down_token := down_token mkt;
                up_shares := shares up_pos;
                down_shares := shares down_pos;
                up_cost := cost_usd up_pos;
                down_cost := cost_usd down_pos;
                pnl := redeem - (cost_usd up_pos + cost_usd down_pos);
                balance_after := cash' |} in
  (res, a', rlog ++ [res]).

(* ===================================================================== *)
(** ** Persistence *)
(* ===================================================================== *)

(** The values [json.load] yields and [json.dump] accepts. *)
Inductive json :=
  | JNull
  | JBool (b : bool)
  | JNum (q : Q)
  | JStr (s : string)
  | JArr (l : list json)
  | JObj (m : gmap string json).

(** Truth value of a JSON value under [or]. *)
Definition truthy (j : json) : bool :=
  match j with
  | JNull => false
  | JBool b => b
  | JNum q => negb (Qeq_bool q 0)
  | JStr s => negb (String.eqb s "")
  | JArr l => match l with [] => false | _ :: _ => true end
  | JObj m => negb (bool_decide (m = ∅))
  end.

(** [x or y]. *)
Definition py_or (x y : json) : json := if truthy x then x else y.

(** The state file: missing, present but not parsable, or holding a JSON
    document. *)
Inductive FileState := Absent | Unreadable | Content (d : json).

(** How the write of [save_state] ends.  Both failures are swallowed by
    its [except]: a failed [open] leaves the file as it was, a failed
    [json.dump] leaves a truncated document. *)
Inductive WriteOutcome := Written | OpenFailed | DumpFailed.

(** [asdict] of a [Position]. *)
Definition position_asdict (p : Position) : json :=
  JObj (<["shares"%string := JNum (shares p)]>
          (<["cost_usd"%string := JNum (cost_usd p)]> ∅)).

Definition to_dict (a : PaperAccount) : json :=
  JObj (<["symbol"%string := JStr (symbol a)]>
          (<["cash"%string := JNum (cash a)]>
             (<["positions"%string := JObj (position_asdict <$> positions a)]>
                ∅))).

Definition save_state (cfg : StrategyConfig)
    (accounts : gmap string PaperAccount) (meta : json) (saved_at : string)
    (out : WriteOutcome) (fs : FileState) : FileState :=
  match out with
  | Written =>
      Content (JObj (<["accounts"%string := JObj (to_dict <$> accounts)]>
                       (<["meta"%string := meta]>
                          (<["saved_at"%string := JStr saved_at]> ∅))))
  | OpenFailed => fs
  | DumpFailed => Unreadable
  end.

Section Loading.

(** The conversions [float(x)] and [str(x)] of Python on a JSON value.
    [float] raises on some values ([None]); [str] never does. *)
Variable py_float : json -> option Q.
Variable py_str : json -> string.

(** [Position(float(v.get("shares", 0.0)), float(v.get("cost_usd", 0.0)))];
    [None] when an exception is raised. *)
Definition position_from_json (v : json) : option Position :=
  match v with
  | JObj vm =>
      sh ← py_float (default (JNum 0.0) (vm !! "shares"%string));
      c ← py_float (default (JNum 0.0) (vm !! "cost_usd"%string));
      Some (mkPosition sh c)
  | _ => None
  end.

(** [None] when an exception is raised. *)
Definition from_dict (d : json) (default_symbol : string)
    (default_balance : Q) : option PaperAccount :=
  match d with
  | JObj dm =>
      let sym := py_str (py_or (default JNull (dm !! "symbol"%string))
                               (JStr default_symbol)) in
      c ← py_float (default (JNum default_balance) (dm !! "cash"%string));
      match py_or (default (JObj ∅) (dm !! "positions"%string)) (JObj ∅) with
      | JObj pm =>
          ps ← map_fold (fun k v (acc : option (gmap string Position)) =>
                           m ← acc;
                           p ← position_from_json v;
                           Some (<[k := p]> m))
                        (Some ∅) pm;
          Some {| symbol := sym; cash := c; positions := ps |}
      | _ => None
      end
  | _ => None
  end.

(** [start_balances.get(sym, 100.0)]. *)
Definition start_balance (start_balances : gmap string Q) (sym : string) : Q :=
  default 100.0 (start_balances !! sym).

(** The accounts every symbol starts with. *)
Definition fresh_accounts (cfg : StrategyConfig)
    (start_balances : gmap string Q) : gmap string PaperAccount :=
  foldl (fun acc sym =>
           <[sym := {| symbol := sym;
                       cash := start_balance start_balances sym;
                       positions := ∅ |}]> acc)
        ∅ (symbols cfg).

(** The [for sym in cfg.symbols] loop of [load_state]; an exception in
    [from_dict] ends it with the accounts replaced so far. *)
Fixpoint load_accounts (acc_blob : gmap string json)
    (start_balances : gmap string Q) (syms : list string)
    (accounts : gmap string PaperAccount) : gmap string PaperAccount :=
  match syms with
  | [] => accounts
  | sym :: rest =>
      match acc_blob !! sym with
      | None => load_accounts acc_blob start_balances rest accounts
      | Some d =>
          match from_dict d sym (start_balance start_balances sym) with
          | Some a =>
              load_accounts acc_blob start_balances rest
                            (<[sym := a]> accounts)
          | None => accounts
          end
      end
  end.

(** Returns [(accounts, meta)]. *)
Definition load_state (cfg : StrategyConfig)
    (start_balances : gmap string Q) (fs : FileState)
    : gmap string PaperAccount * json :=
  let accounts := fresh_accounts cfg start_balances in
  match fs with
  | Absent => (accounts, JObj ∅)
  | Unreadable => (accounts, JObj ∅)
  | Content (JObj dm) =>
      let meta := py_or (default (JObj ∅) (dm !! "meta"%string)) (JObj ∅) in
      match dm !! "accounts"%string with
      | Some (JObj acc_blob) =>
          (load_accounts acc_blob start_balances (symbols cfg) accounts,
           meta)
      | _ => (accounts, meta)
      end
  | Content _ => (accounts, JObj ∅)
  end.

(** The account [from_dict] builds from what [to_dict] wrote for [a]. *)
Definition reloaded (default_symbol : string) (a : PaperAccount)
    : PaperAccount :=
  {| symbol := py_str (py_or (JStr (symbol a)) (JStr default_symbol));
     cash := cash a;
     positions := positions a |}.

End Loading.

(** Conversions that agree with [float] and [str] on the values
    [save_state] writes, used to run [load_state] on examples: [float]
    of a number is the number, of a boolean [1.0] or [0.0]; [str] of a
    string is the string. *)
Definition float_of_json (j : json) : option Q :=
  match j with
  | JNum q => Some q
  | JBool b => Some (if b then 1 else 0)
  | _ => None
  end.

Definition str_of_json (j : json) : string :=
  match j with
  | JStr s => s
  | JNull => "None"
  | JBool true => "True"
  | JBool false => "False"
  | _ => "?"
  end.

(* ===================================================================== *)
(** ** Derived forms and sample data *)
(* ===================================================================== *)

(** The ledger after a buy that goes through. *)
Definition filled_ledger (mkt : ActiveMarket) (token_id : string)
    (note : string) (sh avg spent : Q) (L : Ledger) : Ledger :=
  {| acct :=
       {| symbol := symbol (acct L);
          cash := cash (acct L) - spent;
          positions :=
            <[token_id :=
                mkPosition (shares (position_of (acct L) token_id) + sh)
                           (cost_usd (position_of (acct L) token_id) + spent)]>
              (positions (acct L)) |};
     flog := flog L ++ [ {| fill_slug := mkt_slug mkt;
                            fill_symbol := mkt_symbol mkt;
                            fill_token_id := token_id;
                            fill_side := "BUY";
                            fill_price := avg;
                            fill_shares := sh;
                            fill_usd := spent;
                            fill_note := note |} ] |}.

(** The book of the worked example: 5 shares at 0.10, 10 shares at
    0.12. *)
Definition example_book : OrderBook :=
  {| bids := []; asks := [(0.10, 5); (0.12, 10)] |}.

Definition example_market : ActiveMarket :=
  {| mkt_symbol := "BTC"; mkt_slug := "btc-updown-15m-1";
     condition_id := "0xc1"; up_token := "up"; down_token := "down" |}.

Definition example_ledger : Ledger :=
  {| acct := {| symbol := "BTC"; cash := 100; positions := ∅ |};
     flog := [] |}.

(** The state of an account the strategy is meant to keep: cash and
    every position's shares are not negative. *)
Definition acct_ok (a : PaperAccount) : Prop :=
  0 <= cash a /\ map_Forall (fun _ p => 0 <= shares p) (positions a).

(** The engine states of one market: the state set by
    [reset_for_new_market] when the market is bound, and every state a
    tick produces from one of them. *)
Inductive in_market (cfg : StrategyConfig) (mode : Mode) (mkt : ActiveMarket)
    : Engine -> Prop :=
  | in_market_reset : in_market cfg mode mkt (reset_for_new_market cfg)
  | in_market_step fuel store eng L eng' L' :
      in_market cfg mode mkt eng ->
      step fuel cfg mode mkt store eng L = Some (eng', L') ->
      in_market cfg mode mkt eng'.

(** The threshold a trigger on a side stores. *)
Definition lowered (cfg : StrategyConfig) (threshold : Q) : Q :=
  clamp (threshold - dca_step_cents cfg / 100) 0.01 0.99.

(** The outcome token of a side. *)
Definition token_of (mkt : ActiveMarket) (s : Side) : string :=
  match s with UP => up_token mkt | DOWN => down_token mkt end.

(** Sample accounts for running [save_state] and [load_state]. *)
Definition example_account : PaperAccount :=
  {| symbol := "BTC"; cash := 97.5;
     positions := <["up"%string := mkPosition 10 1.1]> ∅ |}.

Definition example_accounts : gmap string PaperAccount :=
  <["BTC"%string := example_account]> ∅.

(** The side the hedge is bought on. *)
Definition opposite (s : Side) : Side :=
  match s with UP => DOWN | DOWN => UP end.

(** The loop variables hold the positions the account holds: so they do
    at both calls of [_hedge_chunks], and after every turn. *)
Definition in_step (primary_token hedge_token : string) (v : HedgeVars)
    : Prop :=
  primary_pos v = position_of (acct (ledger v)) primary_token /\
  hedge_pos v = position_of (acct (ledger v)) hedge_token.

(** A hedge book with 100 shares offered at 0.25. *)
Definition quarter_book : OrderBook :=
  {| bids := [(0.24, 100)]; asks := [(0.25, 100)] |}.

(** An account that holds 8 UP shares bought for 4.0 and 4 DOWN shares
    bought for 3.5, with the loop variables of a hedge call on it. *)
Definition skewed_vars : HedgeVars :=
  {| primary_pos := mkPosition 8 4;
     hedge_pos := mkPosition 4 3.5;
     ledger :=
       {| acct := {| symbol := "BTC"; cash := 100;
                     positions := <["up"%string := mkPosition 8 4]>
                                    (<["down"%string := mkPosition 4 3.5]> ∅) |};
          flog := [] |} |}.

(** An account with 0.5 of cash left that holds 4 UP shares bought for
    1.0, with the loop variables of a hedge call on it. *)
Definition broke_ledger : Ledger :=
  {| acct := {| symbol := "BTC"; cash := 0.5;
                positions := <["up"%string := mkPosition 4 1]> ∅ |};
     flog := [] |}.

Definition broke_vars : HedgeVars :=
  {| primary_pos := mkPosition 4 1;
     hedge_pos := Position0;
     ledger := broke_ledger |}.

(** A store in which both outcome tokens are offered at 0.25, and an
    account with 1.5 of cash and no position. *)
Definition quarter_store : gmap string OrderBook :=
  <["up"%string := quarter_book]> (<["down"%string := quarter_book]> ∅).

Definition thin_ledger : Ledger :=
  {| acct := {| symbol := "BTC"; cash := 1.5; positions := ∅ |};
     flog := [] |}.

(** The cost basis an account holds on a side of a market. *)
Definition side_cost (mkt : ActiveMarket) (s : Side) (L : Ledger) : Q :=
  cost_usd (position_of (acct L) (token_of mkt s)).

(** The hedge side trails the primary side [p] by less than one chunk. *)
Definition trails (cfg : StrategyConfig) (mkt : ActiveMarket) (p : Side)
    (L : Ledger) : Prop :=
  side_cost mkt (opposite p) L < side_cost mkt p L + buy_chunk_usd cfg.

(** The engine and ledger states of one market traded in threshold
    mode: the engine as reset when the market is bound, with no cost yet
    on either outcome token, and every state a tick produces from one of
    them. *)
Inductive market_run (cfg : StrategyConfig) (mkt : ActiveMarket)
    : Engine -> Ledger -> Prop :=
  | run_start L :
      side_cost mkt UP L == 0 ->
      side_cost mkt DOWN L == 0 ->
      market_run cfg mkt (reset_for_new_market cfg) L
  | run_tick fuel store eng L eng' L' :
      market_run cfg mkt eng L ->
      step fuel cfg threshold35 mkt store eng L = Some (eng', L') ->
      market_run cfg mkt eng' L'.

(** Descending price order between two levels. *)
Definition desc_prices (a b : Level) : Prop := fst b <= fst a.

(** The levels of a list that stand at price [p], in the order of the
    list. *)
Definition at_price (p : Q) (l : list Level) : list Level :=
  List.filter (fun lv => Qeq_bool (fst lv) p) l.

(** Raw levels for examples: two well-formed levels around one without a
    price and one without a size. *)
Definition example_raw : list RawLevel :=
  [(Some 0.40, Some 3); (None, Some 1); (Some 0.30, Some 2); (Some 0.35, None)].

(** The shares offered over all the levels of a side. *)
Definition total_size (l : list Level) : Q :=
  foldr (fun lv acc => snd lv + acc) 0 l.

(** Sums over a stretch of the fills log: the money spent, and the
    shares and the money that went to one token. *)
Definition sum_usd (fs : list Fill) : Q :=
  foldr (fun f acc => fill_usd f + acc) 0 fs.

Definition shares_on (t : string) (fs : list Fill) : Q :=
  foldr (fun f acc => if decide (fill_token_id f = t)
                      then fill_shares f + acc else acc) 0 fs.

Definition usd_on (t : string) (fs : list Fill) : Q :=
  foldr (fun f acc => if decide (fill_token_id f = t)
                      then fill_usd f + acc else acc) 0 fs.

(** The ledger [L] is the ledger [L0] after the fills [new]: the log
    grew by them, the cash fell by what they spent, and every position
    grew by the shares and the money of the fills on its token. *)
Definition reconciles (L0 L : Ledger) (new : list Fill) : Prop :=
  flog L = flog L0 ++ new /\
  cash (acct L) + sum_usd new == cash (acct L0) /\
  forall t : string,
    shares (position_of (acct L) t)
      == shares (position_of (acct L0) t) + shares_on t new /\
    cost_usd (position_of (acct L) t)
      == cost_usd (position_of (acct L0) t) + usd_on t new.

(** What every logged fill looks like. *)
Definition fill_ok (cfg : StrategyConfig) (f : Fill) : Prop :=
  fill_side f = "BUY"%string /\
  0 < fill_shares f /\
  0 < fill_usd f /\ fill_usd f <= buy_chunk_usd cfg /\
  fill_price f * fill_shares f == fill_usd f.


(** The threshold after [n] triggers on a side: the entry price lowered
    [n] times. *)
Definition ladder (cfg : StrategyConfig) (n : nat) : Q :=
  Nat.iter n (lowered cfg) (entry_ask_cents cfg / 100).

(** A store in which UP is offered at 0.75 and DOWN at 0.20. *)
Definition spread_store : gmap string OrderBook :=
  <["up"%string := {| bids := [(0.74, 50)]; asks := [(0.75, 50)] |}]>
    (<["down"%string := {| bids := [(0.19, 50)]; asks := [(0.20, 50)] |}]> ∅).

(** The entry the state file holds for a symbol: [None] when the file is
    missing or unreadable, when its document is no object, when the
    document has no object under ["accounts"], or when that object has
    no key for the symbol. *)
Definition file_entry (fs : FileState) (sym : string) : option json :=
  match fs with
  | Content (JObj dm) =>
      match dm !! "accounts"%string with
      | Some (JObj acc_blob) => acc_blob !! sym
      | _ => None
      end
  | _ => None
  end.

(** The account a symbol starts with. *)
Definition fresh_account (start_balances : gmap string Q) (sym : string)
    : PaperAccount :=
  {| symbol := sym;
     cash := start_balance start_balances sym;
     positions := ∅ |}.

(** A state file whose entry for ETH is [null], between well-formed
    entries for BTC and SOL. *)
Definition broken_file : FileState :=
  Content (JObj (<["accounts"%string :=
                     JObj (<["BTC"%string := to_dict example_account]>
                             (<["ETH"%string := JNull]>
                                (<["SOL"%string := to_dict example_account]>
                                   ∅)))]> ∅)).

(** *** The choice among candidate markets *)

(** The end time [parse_iso_dt] gives a candidate: an aware datetime,
    given by its instant in seconds, when the string carries a UTC
    offset or ends in [Z]; a naive one when it carries none. *)
Inductive EndTime := Aware (t : Q) | Naive (t : Q).

(** A candidate of [discover_next_market]: a market with its end
    time. *)
Record Candidate := { cand_end : EndTime; cand_market : ActiveMarket }.

(** The end of a candidate as an instant to set against [now], which is
    aware.  [None] is the [TypeError] Python raises when an aware and a
    naive datetime are compared or subtracted. *)
Definition end_instant (c : Candidate) : option Q :=
  match cand_end c with
  | Aware t => Some t
  | Naive _ => None
  end.

(** The candidates with the instants of their ends.  The comprehension
    [[c for c in candidates if c.end_time >= now]] compares the end of
    every candidate with [now], so one naive end time among them raises
    there ([None]), before anything is sorted. *)
Definition timed (candidates : list Candidate)
    : option (list (Q * Candidate)) :=
  mapM (fun c => t ← end_instant c; Some (t, c)) candidates.

(** [l.sort(key=key)]: stable insertion by ascending key. *)
Fixpoint insert_by {A : Type} (key : A -> Q) (x : A) (l : list A) : list A :=
  match l with
  | [] => [x]
  | y :: ys => if Qle_bool (key x) (key y) then x :: y :: ys
               else y :: insert_by key x ys
  end.

Definition sort_by {A : Type} (key : A -> Q) (l : list A) : list A :=
  foldr (insert_by key) [] l.

(** The distance of an end from [now]:
    [abs((end_time - now).total_seconds())]. *)
Definition end_distance (now : Q) (tc : Q * Candidate) : Q :=
  Qabs (fst tc - now).

(** The choice among candidates whose end times are aware: none gives
    [None]; else the candidates that end at [now] or later are sorted by
    end time and the first is returned; when there is none, all
    candidates are sorted by the distance of their end from [now] and
    the first is returned. *)
Definition select_aware (now : Q) (tcs : list (Q * Candidate))
    : option Candidate :=
  match tcs with
  | [] => None
  | _ :: _ =>
      match List.filter (fun tc => Qle_bool now (fst tc)) tcs with
      | tc :: future => snd <$> head (sort_by fst (tc :: future))
      | [] => snd <$> head (sort_by (end_distance now) tcs)
      end
  end.

(** The end of [discover_next_market], once the candidates are
    gathered.  The outer [None] is the [TypeError] of a naive end time,
    which nothing catches; [Some None] is the [None] returned when
    there is no candidate. *)
Definition select_candidate (now : Q) (candidates : list Candidate)
    : option (option Candidate) :=
  tcs ← timed candidates;
  Some (select_aware now tcs).

(** Three candidates, ending at 50, 130 and 110 seconds, and a fourth
    whose end time has no offset. *)
Definition example_candidates : list Candidate :=
  [ {| cand_end := Aware 50; cand_market := example_market |};
    {| cand_end := Aware 130; cand_market := example_market |};
    {| cand_end := Aware 110; cand_market := example_market |} ].

Definition naive_candidate : Candidate :=
  {| cand_end := Naive 120; cand_market := example_market |}.

(** The loop variables of a hedge call on an account with 99 of cash
    that holds 4 UP shares bought for 1.0. *)
Definition funded_vars : HedgeVars :=
  {| primary_pos := mkPosition 4 1;
     hedge_pos := Position0;
     ledger := {| acct := {| symbol := "BTC"; cash := 99;
                             positions := <["up"%string := mkPosition 4 1]> ∅ |};
                  flog := [] |} |}.

(** A store in which UP is offered at 0.5, above the entry price, and
    DOWN at 0.25; and an account that comes to the market holding 12 UP
    shares bought for 3.0. *)
Definition lopsided_store : gmap string OrderBook :=
  <["up"%string := {| bids := [(0.49, 100)]; asks := [(0.5, 100)] |}]>
    (<["down"%string := quarter_book]> ∅).

Definition carried_ledger : Ledger :=
  {| acct := {| symbol := "BTC"; cash := 100;
                positions := <["up"%string := mkPosition 12 3]> ∅ |};
     flog := [] |}.


(** The ticks of the driver on one market: [step] run on the successive
    states of the store.  [None] when a tick is still in its hedge loop
    after [fuel] turns. *)
Fixpoint ticks (fuel : nat) (cfg : StrategyConfig) (mode : Mode)
    (mkt : ActiveMarket) (stores : list (gmap string OrderBook))
    (eng : Engine) (L : Ledger) : option (Engine * Ledger) :=
  match stores with
  | [] => Some (eng, L)
  | store :: later =>
      match step fuel cfg mode mkt store eng L with
      | Some (eng1, L1) => ticks fuel cfg mode mkt later eng1 L1
      | None => None
      end
  end.

(** An entry of the state file with neither symbol nor cash, whose one
    position has a cost but no shares. *)
Definition costly_position : gmap string json :=
  <["cost_usd"%string := JNum 1.1]> ∅.

Definition bare_entry : gmap string json :=
  <["positions"%string :=
      JObj (<["up"%string := JObj costly_position]> ∅)]> ∅.

(* ===================================================================== *)
(** * Properties *)
(* ===================================================================== *)

(** ** Rational tests *)

Lemma Qle_bool_spec (x y : Q) : BoolSpec (x <= y) (y < x) (Qle_bool x y).
Proof.
  destruct (Qle_bool x y) eqn:E; constructor.
  - now apply Qle_bool_iff.
  - apply Qnot_le_lt. intro H. apply Qle_bool_iff in H. congruence.
Qed.

Lemma Qlt_bool_spec (x y : Q) : BoolSpec (x < y) (y <= x) (Qlt_bool x y).
Proof.
  unfold Qlt_bool. destruct (Qle_bool_spec y x); constructor; assumption.
Qed.

Lemma Qlt_bool_true (x y : Q) : Qlt_bool x y = true <-> x < y.
Proof.
  destruct (Qlt_bool_spec x y); split; intros; try congruence; try lra.
Qed.

Lemma Qlt_bool_false (x y : Q) : Qlt_bool x y = false <-> y <= x.
Proof.
  destruct (Qlt_bool_spec x y); split; intros; try congruence; try lra.
Qed.

Lemma Qle_bool_false (x y : Q) : Qle_bool x y = false <-> y < x.
Proof.
  destruct (Qle_bool_spec x y); split; intros; try congruence; try lra.
Qed.

Lemma Qmin_cases (x y : Q) :
  (x <= y /\ Qmin x y == x) \/ (y < x /\ Qmin x y == y).
Proof.
  destruct (Qlt_le_dec y x) as [H|H].
  - right. split; [assumption|]. apply Q.min_r. lra.
  - left. split; [assumption|]. now apply Q.min_l.
Qed.

Lemma Qmax_cases (x y : Q) :
  (y <= x /\ Qmax x y == x) \/ (x < y /\ Qmax x y == y).
Proof.
  destruct (Qlt_le_dec x y) as [H|H].
  - right. split; [assumption|]. apply Q.max_r. lra.
  - left. split; [assumption|]. now apply Q.max_l.
Qed.

Lemma Qdiv_mult_cancel (a p : Q) : 0 < p -> (a / p) * p == a.
Proof. intros Hp. field. lra. Qed.

Lemma Qdiv_pos (a p : Q) : 0 < a -> 0 < p -> 0 < a / p.
Proof.
  intros Ha Hp. unfold Qdiv. apply Qmult_lt_0_compat; [assumption|].
  now apply Qinv_lt_0_compat.
Qed.

(** ** The order book store keeps asks in ascending price order *)

Lemma insert_asc_Forall (P : Level -> Prop) (x : Level) (l : list Level) :
  P x -> Forall P l -> Forall P (insert_asc x l).
Proof.
  intros Hx Hl. induction Hl as [|y ys Hy Hys IH]; simpl.
  - repeat constructor. exact Hx.
  - destruct (Qle_bool (fst x) (fst y)); repeat constructor; assumption.
Qed.

Lemma insert_asc_sorted (x : Level) (l : list Level) :
  StronglySorted asc_prices l -> StronglySorted asc_prices (insert_asc x l).
Proof.
  induction 1 as [|y ys Hs IH Hall]; simpl.
  - repeat constructor.
  - destruct (Qle_bool_spec (fst x) (fst y)) as [Hle|Hlt].
    + constructor; [constructor; assumption|].
      constructor; [exact Hle|].
      eapply Forall_impl; [exact Hall|].
      intros z Hz. unfold asc_prices in *. lra.
    + constructor; [exact IH|].
      apply insert_asc_Forall; [|exact Hall].
      unfold asc_prices. lra.
Qed.

Lemma sort_asc_sorted (l : list Level) : StronglySorted asc_prices (sort_asc l).
Proof.
  induction l as [|x xs IH]; simpl.
  - constructor.
  - apply insert_asc_sorted, IH.
Qed.

Lemma insert_asc_perm (x : Level) (l : list Level) :
  Permutation (insert_asc x l) (x :: l).
Proof.
  induction l as [|y ys IH]; simpl; [reflexivity|].
  destruct (Qle_bool (fst x) (fst y)); [reflexivity|].
  rewrite IH. apply perm_swap.
Qed.

Lemma sort_asc_perm (l : list Level) : Permutation (sort_asc l) l.
Proof.
  induction l as [|x xs IH]; simpl; [reflexivity|].
  rewrite insert_asc_perm. now constructor.
Qed.

(** ** Order simulation *)

Lemma budget_eps_pos : 0 < budget_eps.
Proof. reflexivity. Qed.

Lemma consume_loop_exhausted (lv : list Level) (rem sh sp : Q) :
  rem <= budget_eps -> consume_loop lv rem sh sp = (sh, sp).
Proof.
  intros H. destruct lv as [|[price size] rest]; simpl; [reflexivity|].
  apply Qle_bool_iff in H. now rewrite H.
Qed.

(** The cost of what is taken at one level fits into the remaining
    budget. *)
Lemma take_cost_le (size rem price : Q) :
  0 < price -> Qmin size (rem / price) * price <= rem.
Proof.
  intros Hp.
  assert (H : Qmin size (rem / price) <= rem / price) by apply Q.le_min_r.
  apply (Qmult_le_compat_r _ _ price) in H; [|lra].
  rewrite Qdiv_mult_cancel in H; assumption.
Qed.

(** Shares and cost only grow along the walk, the cost added never
    exceeds the budget, and shares are added exactly when cost is. *)
Lemma consume_loop_bounds (lv : list Level) :
  forall rem sh sp : Q,
    let r := consume_loop lv rem sh sp in
    sh <= fst r /\ sp <= snd r /\
    (0 <= rem -> snd r - sp <= rem) /\
    (fst r <= sh \/ snd r <= sp -> r = (sh, sp)).
Proof.
  induction lv as [|[price size] rest IH]; intros rem sh sp; simpl.
  - split; [lra|]. split; [lra|]. split; [lra|]. reflexivity.
  - destruct (Qle_bool_spec rem budget_eps) as [Hex|Hrem]; simpl.
    { split; [lra|]. split; [lra|]. split; [lra|]. reflexivity. }
    destruct (Qle_bool_spec price 0) as [Hp|Hp]; [apply IH|].
    destruct (Qle_bool_spec (Qmin size (rem / price)) 0) as [Hm|Hm]; [apply IH|].
    set (m := Qmin size (rem / price)) in *.
    assert (Hcost : 0 < m * price) by (apply Qmult_lt_0_compat; assumption).
    assert (Hfit : m * price <= rem) by (apply take_cost_le; assumption).
    specialize (IH (rem - m * price) (sh + m) (sp + m * price)).
    simpl in IH. destruct IH as (H1 & H2 & H3 & H4).
    split; [lra|]. split; [lra|]. split.
    + intros _. assert (H : 0 <= rem - m * price) by lra. specialize (H3 H). lra.
    + intros [H|H]; exfalso; lra.
Qed.

Lemma consume_loop_spent_le (lv : list Level) (usd : Q) :
  0 <= usd -> snd (consume_loop lv usd 0 0) <= usd.
Proof.
  intros H. destruct (consume_loop_bounds lv usd 0 0) as (_ & _ & H3 & _).
  specialize (H3 H). lra.
Qed.

Lemma walk_levels_proper (lv : list Level) :
  forall b b' : Q, b == b' ->
    fst (walk_levels lv b) == fst (walk_levels lv b') /\
    snd (walk_levels lv b) == snd (walk_levels lv b').
Proof.
  induction lv as [|[price size] rest IH]; intros b b' Hb; simpl.
  - split; reflexivity.
  - rewrite <- Hb at 1. rewrite <- (Qleb_comp _ _ Hb _ _ (Qeq_refl budget_eps)).
    destruct (Qle_bool b budget_eps); simpl; [split; reflexivity|].
    assert (Ht : Qmin size (b / price) == Qmin size (b' / price))
      by now rewrite Hb.
    assert (Hr : b - Qmin size (b / price) * price
                 == b' - Qmin size (b' / price) * price)
      by now rewrite Ht, Hb.
    destruct (IH _ _ Hr) as [H1 H2].
    destruct (walk_levels rest (b - Qmin size (b / price) * price)) as [s1 c1].
    destruct (walk_levels rest (b' - Qmin size (b' / price) * price)) as [s2 c2].
    simpl in *. split.
    + now rewrite Ht, H1.
    + now rewrite Ht, H2.
Qed.

(** On levels of the data model the source's loop computes the walk of
    the specification. *)
Lemma consume_loop_walk (lv : list Level) :
  Forall level_ok lv ->
  forall rem sh sp : Q,
    fst (consume_loop lv rem sh sp) == sh + fst (walk_levels lv rem) /\
    snd (consume_loop lv rem sh sp) == sp + snd (walk_levels lv rem).
Proof.
  induction 1 as [|[price size] rest [Hprice Hsize] Hrest IH];
    intros rem sh sp; simpl in *.
  - split; lra.
  - destruct (Qle_bool_spec rem budget_eps) as [Hex|Hrem]; simpl.
    { split; lra. }
    destruct (Qle_bool_spec price 0) as [Hp|_]; [exfalso; lra|].
    set (m := Qmin size (rem / price)).
    assert (Hm0 : 0 <= m).
    { apply Q.min_glb; [assumption|]. apply Qlt_le_weak, Qdiv_pos; [|assumption].
      pose proof budget_eps_pos. lra. }
    destruct (Qle_bool_spec m 0) as [Hm|Hm].
    + assert (Hz : m == 0) by lra.
      assert (Hr : rem - m * price == rem) by (rewrite Hz; ring).
      destruct (walk_levels_proper rest _ _ Hr) as [E1 E2].
      destruct (IH rem sh sp) as [I1 I2].
      destruct (walk_levels rest (rem - m * price)) as [s1 c1].
      simpl in *. split.
      * rewrite I1, <- E1, Hz. ring.
      * rewrite I2, <- E2, Hz. ring.
    + destruct (IH (rem - m * price) (sh + m) (sp + m * price)) as [I1 I2].
      destruct (walk_levels rest (rem - m * price)) as [s1 c1].
      simpl in *. split.
      * rewrite I1. ring.
      * rewrite I2. ring.
Qed.

Lemma maybe_buy_zero_shares (cfg : StrategyConfig) (mkt : ActiveMarket)
    (token_id : string) (ob : OrderBook) (usd : Q) (note : string)
    (L : Ledger) :
  fst (fst (consume_asks_for_buy ob usd)) <= 0 ->
  _maybe_buy cfg mkt token_id ob usd note L = L.
Proof.
  intros H. unfold _maybe_buy.
  destruct (Qle_bool usd 0); [reflexivity|].
  destruct (Qlt_bool (cash (acct L)) (usd + require_free_cash cfg));
    [reflexivity|].
  destruct (consume_asks_for_buy ob usd) as [[sh avg] spent]. simpl in H.
  apply Qle_bool_iff in H. now rewrite H.
Qed.

(** C1.  The store keeps the asks of every snapshot, all of them, in
    ascending price order, and [consume_asks_for_buy] walks them in that
    order: on levels of the data model (positive price, size not
    negative) the
    shares and the cost it returns are those of the walk of the
    specification, which at each level takes
    [min(size, remaining / price)] shares and pays for them, until the
    remaining budget is within [1e-9] of zero or the levels run out.
    The average returned is [spent / shares] when shares were bought and
    [0] otherwise, and with no shares to buy [_maybe_buy] changes
    nothing.  On the asks 5 at 0.10 and 10 at 0.12, a budget of 1.10
    buys 10 shares at an average of 0.11. *)
Theorem consume_asks_for_buy_walks_the_ladder :
  (forall (store : gmap string OrderBook) (token_id : string)
          (raw_bids raw_asks : list RawLevel),
      let ob := store_get (update_from_snapshot store token_id raw_bids
                                                raw_asks) token_id in
      StronglySorted asc_prices (asks ob) /\
      Permutation (asks ob) (parse_levels raw_asks)) /\
  (forall (ob : OrderBook) (usd : Q),
      Forall level_ok (asks ob) ->
      let '(sh, _, spent) := consume_asks_for_buy ob usd in
      sh == fst (walk_levels (asks ob) usd) /\
      spent == snd (walk_levels (asks ob) usd)) /\
  (forall (ob : OrderBook) (usd : Q),
      let '(sh, avg, spent) := consume_asks_for_buy ob usd in
      (0 < sh -> avg = spent / sh) /\
      (sh <= 0 ->
       avg = 0 /\
       forall cfg mkt token_id note L,
         _maybe_buy cfg mkt token_id ob usd note L = L)) /\
  (let '(sh, avg, spent) := consume_asks_for_buy example_book 1.10 in
   sh == 10 /\ avg == 0.11 /\ spent == 1.10).
Proof.
  split; [|split; [|split]].
  - intros store token_id raw_bids raw_asks.
    unfold store_get, update_from_snapshot. rewrite lookup_insert_eq. simpl.
    split; [apply sort_asc_sorted|apply sort_asc_perm].
  - intros ob usd Hok. unfold consume_asks_for_buy.
    destruct (consume_loop_walk (asks ob) Hok usd 0 0) as [H1 H2].
    destruct (consume_loop (asks ob) usd 0 0) as [sh spent]. simpl in *.
    split; [rewrite H1|rewrite H2]; ring.
  - intros ob usd.
    pose proof (maybe_buy_zero_shares) as Hnoop.
    specialize (fun cfg mkt t note L => Hnoop cfg mkt t ob usd note L).
    unfold consume_asks_for_buy in *.
    destruct (consume_loop (asks ob) usd 0 0) as [sh spent]. simpl in *.
    destruct (Qlt_bool_spec 0 sh) as [Hpos|Hzero]; split; intros H.
    + reflexivity.
    + exfalso; lra.
    + exfalso; lra.
    + split; [reflexivity|]. intros. apply Hnoop, H.
  - vm_compute. repeat split; reflexivity.
Qed.

Lemma consume_asks_for_buy_walks_the_ladder_witness :
  Forall level_ok (asks example_book) /\
  fst (fst (consume_asks_for_buy example_book 1.10))
    == fst (walk_levels (asks example_book) 1.10).
Proof.
  assert (Hok : Forall level_ok (asks example_book)).
  { repeat (constructor; [split; simpl; lra|]). constructor. }
  split; [exact Hok|].
  pose proof (proj1 (proj2 consume_asks_for_buy_walks_the_ladder)
                example_book 1.10 Hok) as H.
  destruct (consume_asks_for_buy example_book 1.10) as [[sh avg] spent].
  exact (proj1 H).
Defined.

(** ** Simulated buys *)

Lemma consume_nonpositive_budget (ob : OrderBook) (usd : Q) :
  usd <= 0 -> consume_asks_for_buy ob usd = (0, 0, 0).
Proof.
  intros H. unfold consume_asks_for_buy.
  rewrite consume_loop_exhausted; [reflexivity|].
  pose proof budget_eps_pos. lra.
Qed.

Lemma consume_positive_budget (ob : OrderBook) (usd : Q) :
  0 < fst (fst (consume_asks_for_buy ob usd)) -> 0 < usd.
Proof.
  intros H. destruct (Qlt_le_dec 0 usd) as [|Hle]; [assumption|].
  rewrite (consume_nonpositive_budget ob usd Hle) in H. simpl in H.
  exfalso; lra.
Qed.

(** Shares are bought exactly when money is spent, and neither is ever
    negative. *)
Lemma consume_shares_spent (ob : OrderBook) (usd : Q) :
  let '(sh, _, spent) := consume_asks_for_buy ob usd in
  0 <= sh /\ 0 <= spent /\ (0 < sh <-> 0 < spent).
Proof.
  unfold consume_asks_for_buy.
  pose proof (consume_loop_bounds (asks ob) usd 0 0) as (H1 & H2 & _ & H4).
  destruct (consume_loop (asks ob) usd 0 0) as [sh spent]. simpl in *.
  split; [assumption|]. split; [assumption|].
  split; intros Hpos.
  - destruct (Qlt_le_dec 0 spent) as [?|Hle]; [assumption|].
    assert (E : (sh, spent) = (0, 0)) by (apply H4; now right).
    inversion E; subst. exfalso; lra.
  - destruct (Qlt_le_dec 0 sh) as [?|Hle]; [assumption|].
    assert (E : (sh, spent) = (0, 0)) by (apply H4; now left).
    inversion E; subst. exfalso; lra.
Qed.

Lemma consume_spent_le_budget (ob : OrderBook) (usd : Q) :
  0 <= usd -> snd (consume_asks_for_buy ob usd) <= usd.
Proof.
  intros H. unfold consume_asks_for_buy.
  pose proof (consume_loop_spent_le (asks ob) usd H) as Hle.
  destruct (consume_loop (asks ob) usd 0 0) as [sh spent]. exact Hle.
Qed.

(** The two outcomes of [_maybe_buy]: the ledger is returned as it was,
    or it is [filled_ledger] at the result of the walk, which bought
    shares, with a positive budget and enough cash. *)
Lemma maybe_buy_cases (cfg : StrategyConfig) (mkt : ActiveMarket)
    (token_id : string) (ob : OrderBook) (usd : Q) (note : string)
    (L : Ledger) :
  _maybe_buy cfg mkt token_id ob usd note L = L \/
  (exists sh avg spent,
      consume_asks_for_buy ob usd = (sh, avg, spent) /\
      0 < usd /\ usd + require_free_cash cfg <= cash (acct L) /\
      0 < sh /\ 0 < spent /\ spent <= usd /\
      _maybe_buy cfg mkt token_id ob usd note L
        = filled_ledger mkt token_id note sh avg spent L).
Proof.
  unfold _maybe_buy.
  destruct (Qle_bool_spec usd 0) as [|Husd]; [now left|].
  destruct (Qlt_bool_spec (cash (acct L)) (usd + require_free_cash cfg))
    as [|Hcash]; [now left|].
  pose proof (consume_spent_le_budget ob usd) as Hle.
  destruct (consume_asks_for_buy ob usd) as [[sh avg] spent]. simpl in Hle.
  destruct (Qle_bool_spec sh 0) as [|Hsh]; [now left|].
  destruct (Qle_bool_spec spent 0) as [|Hsp]; [now left|]. simpl.
  right. exists sh, avg, spent.
  repeat (split; [first [reflexivity | assumption | apply Hle; lra]|]).
  reflexivity.
Qed.

Lemma maybe_buy_filled (cfg : StrategyConfig) (mkt : ActiveMarket)
    (token_id : string) (ob : OrderBook) (usd : Q) (note : string)
    (L : Ledger) (sh avg spent : Q) :
  consume_asks_for_buy ob usd = (sh, avg, spent) ->
  usd + require_free_cash cfg <= cash (acct L) ->
  0 < sh ->
  _maybe_buy cfg mkt token_id ob usd note L
    = filled_ledger mkt token_id note sh avg spent L.
Proof.
  intros Ec Hcash Hsh.
  pose proof (consume_shares_spent ob usd) as Hss.
  pose proof (consume_positive_budget ob usd) as Hpos.
  unfold _maybe_buy. rewrite Ec in *. simpl in Hpos.
  destruct Hss as (_ & _ & Hiff). apply Hiff in Hsh as Hsp.
  specialize (Hpos Hsh).
  apply Qle_bool_false in Hpos, Hsh, Hsp. apply Qlt_bool_false in Hcash.
  now rewrite Hpos, Hcash, Hsh, Hsp.
Qed.

(** C6.  [_maybe_buy] returns the ledger unchanged, account and fills
    log alike, when the cash is below the budget plus the reserve or
    when the walk of the asks buys no share.  Otherwise the cash is
    lowered by what was spent, the position of the token grows by the
    shares bought and by their cost, and one [Fill] is appended to the
    log.  The function is total: a rejected buy is a value, not an
    error. *)
Theorem maybe_buy_rejects_or_fills :
  forall (cfg : StrategyConfig) (mkt : ActiveMarket) (token_id : string)
         (ob : OrderBook) (usd : Q) (note : string) (L : Ledger),
    let '(sh, avg, spent) := consume_asks_for_buy ob usd in
    (cash (acct L) < usd + require_free_cash cfg \/ sh <= 0 ->
     _maybe_buy cfg mkt token_id ob usd note L = L) /\
    (usd + require_free_cash cfg <= cash (acct L) /\ 0 < sh ->
     _maybe_buy cfg mkt token_id ob usd note L
       = filled_ledger mkt token_id note sh avg spent L /\
     length (flog (_maybe_buy cfg mkt token_id ob usd note L))
       = S (length (flog L))).
Proof.
  intros cfg mkt token_id ob usd note L.
  pose proof (consume_shares_spent ob usd) as Hss.
  pose proof (maybe_buy_zero_shares cfg mkt token_id ob usd note L) as Hzero.
  pose proof (consume_nonpositive_budget ob usd) as Hneg.
  unfold _maybe_buy in *.
  destruct (consume_asks_for_buy ob usd) as [[sh avg] spent]. simpl in *.
  destruct Hss as (Hsh0 & Hsp0 & Hiff). split.
  - intros [Hcash|Hsh]; [|now apply Hzero].
    destruct (Qle_bool usd 0); [reflexivity|].
    apply Qlt_bool_true in Hcash. now rewrite Hcash.
  - intros [Hcash Hsh].
    destruct (Qle_bool_spec usd 0) as [Husd|Husd].
    { specialize (Hneg Husd). inversion Hneg; subst. exfalso; lra. }
    apply Qlt_bool_false in Hcash. rewrite Hcash.
    apply Hiff in Hsh as Hsp.
    apply Qle_bool_false in Hsh, Hsp. rewrite Hsh, Hsp. simpl.
    split; [reflexivity|]. rewrite length_app. simpl. lia.
Qed.

Lemma maybe_buy_rejects_or_fills_witness :
  length (flog (_maybe_buy default_cfg example_market "up" example_book
                           1.10 "n" example_ledger)) = 1%nat.
Proof.
  pose proof (maybe_buy_rejects_or_fills default_cfg example_market "up"
                example_book 1.10 "n" example_ledger) as H.
  destruct (consume_asks_for_buy example_book 1.10) as [[sh avg] spent] eqn:E.
  vm_compute in E. inversion E; subst; clear E.
  apply (proj2 H). split; vm_compute; [discriminate|reflexivity].
Defined.

(** ** What every buy preserves, every tick preserves *)

Lemma hedge_loop_turns (cfg : StrategyConfig) (mkt : ActiveMarket)
    (ptok htok : string) (hob : OrderBook) (fuel : nat) :
  forall v v' : HedgeVars,
    hedge_loop cfg mkt ptok htok hob fuel v = Some v' ->
    exists n : nat,
      (n <= fuel)%nat /\
      hedge_turns cfg mkt ptok htok hob n v = Some v' /\
      hedge_body cfg mkt ptok htok hob v' = None.
Proof.
  induction fuel as [|k IH]; intros v v' H; simpl in H.
  - destruct (hedge_body cfg mkt ptok htok hob v) eqn:E; [discriminate|].
    inversion H; subst. exists 0%nat. simpl. auto.
  - destruct (hedge_body cfg mkt ptok htok hob v) as [v1|] eqn:E.
    + destruct (IH _ _ H) as (n & Hn & Ht & Hb).
      exists (S n). simpl. rewrite E. repeat split; [lia|assumption..].
    + inversion H; subst. exists 0%nat. simpl. repeat split; [lia|assumption].
Qed.

(** A completed turn of the hedge loop is one call of [_maybe_buy] on
    the hedge token with the chunk budget, after which both positions
    are read again. *)
Lemma hedge_body_buy (cfg : StrategyConfig) (mkt : ActiveMarket)
    (ptok htok : string) (hob : OrderBook) (v v' : HedgeVars) :
  hedge_body cfg mkt ptok htok hob v = Some v' ->
  let L' := _maybe_buy cfg mkt htok hob (buy_chunk_usd cfg)
                       "hedge_chunk_sumcap_ok" (ledger v) in
  v' = {| primary_pos := position_of (acct L') ptok;
          hedge_pos := position_of (acct L') htok;
          ledger := L' |}.
Proof.
  unfold hedge_body. intros H.
  destruct (Qlt_bool _ _); [|discriminate].
  destruct (Qle_bool _ _); [discriminate|].
  destruct (consume_asks_for_buy hob (buy_chunk_usd cfg)) as [[es ea] esp].
  destruct (_ || _); [discriminate|].
  destruct (Qle_bool _ _); [discriminate|].
  now inversion H.
Qed.

(** The hedge stage makes no hedge call, or exactly one, on the side
    opposite to the primary. *)
Lemma hedge_stage_inv (fuel : nat) (cfg : StrategyConfig) (mkt : ActiveMarket)
    (up_ob down_ob : OrderBook) (up_ask down_ask : Q) (prim : option Side)
    (L L' : Ledger) :
  hedge_stage fuel cfg mkt up_ob down_ob up_ask down_ask prim L = Some L' ->
  L' = L \/
  (prim = Some UP /\ 0 < cost_usd (position_of (acct L) (up_token mkt)) /\
   _hedge_chunks fuel cfg mkt (up_token mkt) (down_token mkt)
     (position_of (acct L) (up_token mkt))
     (position_of (acct L) (down_token mkt)) down_ob down_ask L = Some L') \/
  (prim = Some DOWN /\ 0 < cost_usd (position_of (acct L) (down_token mkt)) /\
   _hedge_chunks fuel cfg mkt (down_token mkt) (up_token mkt)
     (position_of (acct L) (down_token mkt))
     (position_of (acct L) (up_token mkt)) up_ob up_ask L = Some L').
Proof.
  unfold hedge_stage.
  destruct prim as [[|]|].
  - rewrite (bool_decide_eq_true_2 (Some UP = Some UP)) by reflexivity.
    rewrite (bool_decide_eq_false_2 (Some UP = Some DOWN)) by discriminate.
    simpl.
    destruct (Qlt_bool_spec 0 (cost_usd (position_of (acct L) (up_token mkt))))
      as [Hc|Hc].
    + destruct (_hedge_chunks _ _ _ _ _ _ _ _ _ _) as [L1|] eqn:E;
        simpl; [|discriminate].
      intros H; inversion H; subst. right; left. auto.
    + simpl. intros H; inversion H; subst. now left.
  - rewrite (bool_decide_eq_false_2 (Some DOWN = Some UP)) by discriminate.
    rewrite (bool_decide_eq_true_2 (Some DOWN = Some DOWN)) by reflexivity.
    simpl.
    destruct (Qlt_bool_spec 0 (cost_usd (position_of (acct L) (down_token mkt))))
      as [Hc|Hc].
    + intros H. right; right. auto.
    + intros H; inversion H; subst. now left.
  - rewrite !bool_decide_eq_false_2 by discriminate.
    simpl. intros H; inversion H; subst. now left.
Qed.

Lemma step_threshold35_inv (fuel : nat) (cfg : StrategyConfig)
    (mkt : ActiveMarket) (up_ob down_ob : OrderBook) (up_ask down_ask : Q)
    (eng eng' : Engine) (L L' : Ledger) :
  _step_threshold35 fuel cfg mkt up_ob down_ob up_ask down_ask eng L
    = Some (eng', L') ->
  exists L2 : Ledger,
    dca_stage cfg mkt up_ob down_ob up_ask down_ask
              (choose_primary cfg up_ask down_ask eng) L = (eng', L2) /\
    hedge_stage fuel cfg mkt up_ob down_ob up_ask down_ask (primary eng') L2
      = Some L'.
Proof.
  unfold _step_threshold35.
  destruct (dca_stage _ _ _ _ _ _ _ _) as [eng2 L2].
  destruct (hedge_stage _ _ _ _ _ _ _ _ _) as [L3|] eqn:E;
    simpl; [|discriminate].
  intros H; inversion H; subst. exists L2. auto.
Qed.

Section BuyClosed.

(** A property of ledgers that no buy of one chunk breaks. *)
Variable cfg : StrategyConfig.
Variable P : Ledger -> Prop.
Hypothesis P_buy :
  forall mkt token_id ob note L,
    P L -> P (_maybe_buy cfg mkt token_id ob (buy_chunk_usd cfg) note L).

Lemma dca_closed mkt side_label token_id ob best eng L :
  P L -> P (snd (_dca_if_trigger cfg mkt side_label token_id ob best eng L)).
Proof.
  intros HL. unfold _dca_if_trigger.
  destruct (Qle_bool _ _); [exact HL|].
  destruct (Qle_bool _ _); [|exact HL].
  destruct (_ <=? _)%Z; [|exact HL].
  simpl. now apply P_buy.
Qed.

Lemma hedge_turns_closed mkt ptok htok hob (n : nat) :
  forall v v' : HedgeVars,
    P (ledger v) ->
    hedge_turns cfg mkt ptok htok hob n v = Some v' ->
    P (ledger v').
Proof.
  induction n as [|k IH]; intros v v' Hv H; simpl in H.
  - now inversion H; subst.
  - destruct (hedge_body cfg mkt ptok htok hob v) as [v1|] eqn:E;
      [|discriminate].
    apply (IH v1 v'); [|assumption].
    rewrite (hedge_body_buy _ _ _ _ _ _ _ E). simpl. now apply P_buy.
Qed.

Lemma hedge_chunks_closed fuel mkt ptok htok ppos hpos hob hask L L' :
  P L ->
  _hedge_chunks fuel cfg mkt ptok htok ppos hpos hob hask L = Some L' ->
  P L'.
Proof.
  intros HL. unfold _hedge_chunks.
  destruct (Qlt_bool _ _); [intros H; now inversion H; subst|].
  destruct (hedge_loop _ _ _ _ _ _ _) as [v'|] eqn:E; simpl; [|discriminate].
  intros H; inversion H; subst.
  destruct (hedge_loop_turns _ _ _ _ _ _ _ _ E) as (n & _ & Ht & _).
  exact (hedge_turns_closed mkt ptok htok hob n
           {| primary_pos := ppos; hedge_pos := hpos; ledger := L |} v'
           HL Ht).
Qed.

Lemma dca_stage_closed mkt up_ob down_ob up_ask down_ask eng L :
  P L -> P (snd (dca_stage cfg mkt up_ob down_ob up_ask down_ask eng L)).
Proof.
  intros HL. unfold dca_stage.
  destruct (primary eng) as [[|]|]; [apply dca_closed..|]; exact HL.
Qed.

Lemma hedge_stage_closed fuel mkt up_ob down_ob up_ask down_ask prim L L' :
  P L ->
  hedge_stage fuel cfg mkt up_ob down_ob up_ask down_ask prim L = Some L' ->
  P L'.
Proof.
  intros HL H.
  destruct (hedge_stage_inv _ _ _ _ _ _ _ _ _ _ H)
    as [->|[(_ & _ & Hc)|(_ & _ & Hc)]];
    [exact HL|exact (hedge_chunks_closed _ _ _ _ _ _ _ _ _ _ HL Hc)..].
Qed.

Lemma step_threshold35_closed fuel mkt up_ob down_ob up_ask down_ask
    eng L eng' L' :
  P L ->
  _step_threshold35 fuel cfg mkt up_ob down_ob up_ask down_ask eng L
    = Some (eng', L') ->
  P L'.
Proof.
  intros HL H.
  destruct (step_threshold35_inv _ _ _ _ _ _ _ _ _ _ _ H) as (L2 & Hd & Hh).
  eapply hedge_stage_closed; [|exact Hh].
  change L2 with (snd (eng', L2)). rewrite <- Hd. now apply dca_stage_closed.
Qed.

Lemma step_spread_closed mkt up_ob down_ob up_ask down_ask L :
  P L -> P (_step_spread73_22 cfg mkt up_ob down_ob up_ask down_ask L).
Proof.
  intros HL. unfold _step_spread73_22.
  repeat match goal with
         | |- context [if ?b then _ else _] => destruct b
         end; repeat apply P_buy; exact HL.
Qed.

Lemma step_closed fuel mode mkt store eng L eng' L' :
  P L -> step fuel cfg mode mkt store eng L = Some (eng', L') -> P L'.
Proof.
  intros HL. unfold step.
  destruct (best_ask _) as [up_ask|]; [|intros H; now inversion H; subst].
  destruct (best_ask _) as [down_ask|]; [|intros H; now inversion H; subst].
  destruct (best_bid _); [|intros H; now inversion H; subst].
  destruct (best_bid _); [|intros H; now inversion H; subst].
  destruct mode.
  - now apply step_threshold35_closed.
  - intros H; inversion H; subst. now apply step_spread_closed.
Qed.

End BuyClosed.

(** ** Cash stays non-negative *)

Lemma position_of_shares_nonneg (a : PaperAccount) (token_id : string) :
  acct_ok a -> 0 <= shares (position_of a token_id).
Proof.
  intros [_ Hpos]. unfold position_of.
  destruct (positions a !! token_id) as [p|] eqn:E; simpl.
  - exact (Hpos _ _ E).
  - lra.
Qed.

Lemma maybe_buy_acct_ok (cfg : StrategyConfig) :
  0 <= require_free_cash cfg ->
  forall mkt token_id ob usd note L,
    acct_ok (acct L) ->
    acct_ok (acct (_maybe_buy cfg mkt token_id ob usd note L)).
Proof.
  intros Hres mkt token_id ob usd note L Hok.
  destruct (maybe_buy_cases cfg mkt token_id ob usd note L)
    as [->|(sh & avg & spent & _ & Husd & Hcash & Hsh & Hsp & Hle & ->)];
    [exact Hok|].
  pose proof (position_of_shares_nonneg _ token_id Hok) as Hp.
  destruct Hok as [Hc Hpos]. split; simpl.
  - lra.
  - apply map_Forall_insert_2; [simpl; lra|exact Hpos].
Qed.

Lemma settle_market_acct_ok (mkt : ActiveMarket)
    (polls : list (gmap string OrderBook)) (store : gmap string OrderBook)
    (a : PaperAccount) (rlog : list MarketResult) (cfg : StrategyConfig) :
  acct_ok a -> acct_ok (snd (fst (settle_market mkt polls store a rlog cfg))).
Proof.
  intros Hok.
  pose proof (position_of_shares_nonneg _ (up_token mkt) Hok) as Hu.
  pose proof (position_of_shares_nonneg _ (down_token mkt) Hok) as Hd.
  destruct Hok as [Hc Hpos]. unfold settle_market. split; simpl.
  - destruct (match wait_for_winner _ _ _ with Some w => w | None => _ end);
      lra.
  - repeat (apply map_Forall_insert_2; [simpl; lra|]). exact Hpos.
Qed.

(** C9.  With a reserve that is not negative, an account whose cash and
    shares are not negative stays so under every operation of the
    strategy: a simulated buy (it needs cash of at least the budget plus
    the reserve and spends at most the budget), a DCA trigger, any
    number of turns of the hedge loop, a whole tick in either mode, and
    settlement (which only adds the redeemed shares to the cash). *)
Theorem cash_never_negative :
  forall cfg : StrategyConfig,
    0 <= require_free_cash cfg ->
    (forall mkt token_id ob usd note L,
        acct_ok (acct L) ->
        acct_ok (acct (_maybe_buy cfg mkt token_id ob usd note L)) /\
        (_maybe_buy cfg mkt token_id ob usd note L <> L ->
         usd + require_free_cash cfg <= cash (acct L) /\
         cash (acct L) - usd
           <= cash (acct (_maybe_buy cfg mkt token_id ob usd note L)))) /\
    (forall mkt side_label token_id ob best eng L,
        acct_ok (acct L) ->
        acct_ok (acct (snd (_dca_if_trigger cfg mkt side_label token_id ob
                                            best eng L)))) /\
    (forall mkt ptok htok hob n v v',
        acct_ok (acct (ledger v)) ->
        hedge_turns cfg mkt ptok htok hob n v = Some v' ->
        acct_ok (acct (ledger v'))) /\
    (forall fuel mode mkt store eng L eng' L',
        acct_ok (acct L) ->
        step fuel cfg mode mkt store eng L = Some (eng', L') ->
        acct_ok (acct L')) /\
    (forall mkt polls store a rlog,
        acct_ok a ->
        acct_ok (snd (fst (settle_market mkt polls store a rlog cfg))) /\
        cash a <= cash (snd (fst (settle_market mkt polls store a rlog cfg)))).
Proof.
  intros cfg Hres.
  pose proof (maybe_buy_acct_ok cfg Hres) as Hbuy0.
  assert (Hbuy : forall mkt token_id ob note L,
             acct_ok (acct L) ->
             acct_ok (acct (_maybe_buy cfg mkt token_id ob (buy_chunk_usd cfg)
                                       note L)))
    by (intros; now apply Hbuy0).
  split; [|split; [|split; [|split]]].
  - intros mkt token_id ob usd note L Hok. split; [now apply Hbuy0|].
    destruct (maybe_buy_cases cfg mkt token_id ob usd note L)
      as [->|(sh & avg & spent & _ & Husd & Hcash & Hsh & Hsp & Hle & ->)];
      [congruence|].
    intros _. simpl. lra.
  - intros mkt side_label token_id ob best eng L.
    apply (dca_closed cfg (fun L => acct_ok (acct L)) Hbuy).
  - intros mkt ptok htok hob n v v'.
    apply (hedge_turns_closed cfg (fun L => acct_ok (acct L)) Hbuy).
  - intros fuel mode mkt store eng L eng' L'.
    apply (step_closed cfg (fun L => acct_ok (acct L)) Hbuy).
  - intros mkt polls store a rlog Hok.
    split; [now apply settle_market_acct_ok|].
    pose proof (position_of_shares_nonneg _ (up_token mkt) Hok) as Hu.
    pose proof (position_of_shares_nonneg _ (down_token mkt) Hok) as Hd.
    unfold settle_market; simpl.
    destruct (match wait_for_winner _ _ _ with Some w => w | None => _ end);
      lra.
Qed.

Lemma cash_never_negative_witness :
  0 <= require_free_cash default_cfg /\
  acct_ok (acct (_maybe_buy default_cfg example_market "up" example_book
                            1.10 "n" example_ledger)).
Proof.
  assert (Hres : 0 <= require_free_cash default_cfg) by (simpl; lra).
  split; [exact Hres|].
  apply (proj1 (cash_never_negative default_cfg Hres)).
  split; [simpl; lra|apply map_Forall_empty].
Defined.

(** ** DCA thresholds *)

Lemma clamp_bounds (n : Q) : 0.01 <= clamp n 0.01 0.99 /\ clamp n 0.01 0.99 <= 0.99.
Proof.
  unfold clamp.
  destruct (Qmax_cases 0.01 (Qmin 0.99 n)) as [[H E]|[H E]];
  destruct (Qmin_cases 0.99 n) as [[H' E']|[H' E']]; split; lra.
Qed.

Lemma lowered_le (cfg : StrategyConfig) (threshold : Q) :
  0 <= dca_step_cents cfg -> 0.01 <= threshold ->
  lowered cfg threshold <= threshold.
Proof.
  intros Hs Ht. unfold lowered, clamp.
  assert (Hd : 0 <= dca_step_cents cfg / 100).
  { apply Qle_shift_div_l; [reflexivity|]. lra. }
  destruct (Qmax_cases 0.01 (Qmin 0.99 (threshold - dca_step_cents cfg / 100)))
    as [[H E]|[H E]];
  destruct (Qmin_cases 0.99 (threshold - dca_step_cents cfg / 100))
    as [[H' E']|[H' E']]; lra.
Qed.

(** What [_dca_if_trigger] does to the thresholds: nothing, or the
    threshold of its side is replaced by the lowered one. *)
Lemma dca_if_trigger_thresholds (cfg : StrategyConfig) (mkt : ActiveMarket)
    (side_label : Side) (token_id : string) (ob : OrderBook) (best : Q)
    (eng : Engine) (L : Ledger) :
  let eng' := fst (_dca_if_trigger cfg mkt side_label token_id ob best eng L) in
  next_dca_threshold eng' = next_dca_threshold eng \/
  next_dca_threshold eng'
    = side_set (next_dca_threshold eng) side_label
        (lowered cfg (side_get (next_dca_threshold eng) side_label)).
Proof.
  unfold _dca_if_trigger.
  destruct (Qle_bool _ _); [now left|].
  destruct (Qle_bool _ _); [|now left].
  destruct (_ <=? _)%Z; [|now left].
  now right.
Qed.

Lemma side_get_set {A} (d : BySide A) (s s' : Side) (v : A) :
  side_get (side_set d s v) s' = if decide (s = s') then v else side_get d s'.
Proof. destruct s, s'; reflexivity. Qed.

Lemma choose_primary_thresholds (cfg : StrategyConfig) (up_ask down_ask : Q)
    (eng : Engine) :
  next_dca_threshold (choose_primary cfg up_ask down_ask eng)
    = next_dca_threshold eng.
Proof.
  unfold choose_primary. destruct (primary eng); [reflexivity|].
  destruct (Qle_bool _ _); [reflexivity|].
  destruct (Qle_bool _ _); reflexivity.
Qed.

Lemma choose_primary_state (cfg : StrategyConfig) (up_ask down_ask : Q)
    (eng : Engine) :
  dca_buys_done (choose_primary cfg up_ask down_ask eng) = dca_buys_done eng /\
  next_dca_threshold (choose_primary cfg up_ask down_ask eng)
    = next_dca_threshold eng.
Proof.
  unfold choose_primary. destruct (primary eng); [auto|].
  destruct (Qle_bool _ _); [auto|]. destruct (Qle_bool _ _); auto.
Qed.

(** The thresholds after a tick: on each side the old threshold, or the
    lowered one. *)
Lemma step_thresholds (fuel : nat) (cfg : StrategyConfig) (mode : Mode)
    (mkt : ActiveMarket) (store : gmap string OrderBook)
    (eng eng' : Engine) (L L' : Ledger) (s : Side) :
  step fuel cfg mode mkt store eng L = Some (eng', L') ->
  side_get (next_dca_threshold eng') s = side_get (next_dca_threshold eng) s \/
  side_get (next_dca_threshold eng') s
    = lowered cfg (side_get (next_dca_threshold eng) s).
Proof.
  unfold step.
  destruct (best_ask _) as [up_ask|]; [|intros H; inversion H; now left].
  destruct (best_ask _) as [down_ask|]; [|intros H; inversion H; now left].
  destruct (best_bid _); [|intros H; inversion H; now left].
  destruct (best_bid _); [|intros H; inversion H; now left].
  destruct mode; [|intros H; inversion H; now left].
  intros H. apply step_threshold35_inv in H as (L2 & Hd & _).
  apply (f_equal fst) in Hd. simpl in Hd. subst eng'.
  rewrite <- (choose_primary_thresholds cfg up_ask down_ask eng).
  set (eng1 := choose_primary cfg up_ask down_ask eng).
  unfold dca_stage. destruct (primary eng1) as [side|]; [|now left].
  assert (Hk : forall tok ob best,
             let e := fst (_dca_if_trigger cfg mkt side tok ob best eng1 L) in
             side_get (next_dca_threshold e) s
               = side_get (next_dca_threshold eng1) s \/
             side_get (next_dca_threshold e) s
               = lowered cfg (side_get (next_dca_threshold eng1) s)).
  { intros tok ob best e. subst e.
    destruct (dca_if_trigger_thresholds cfg mkt side tok ob best eng1 L)
      as [E|E]; simpl in E; rewrite E; [now left|].
    rewrite side_get_set. destruct (decide (side = s)) as [->|]; auto. }
  destruct side; apply Hk.
Qed.

(** When the three guards of [_dca_if_trigger] hold, the buy is
    attempted and the state of the side moves one rung down the ladder;
    when one of them fails, nothing happens. *)
Lemma dca_if_trigger_fires (cfg : StrategyConfig) (mkt : ActiveMarket)
    (s : Side) (token_id : string) (ob : OrderBook) (best : Q)
    (eng : Engine) (L : Ledger) :
  cost_usd (position_of (acct L) token_id) < max_side_spend_usd cfg ->
  best <= side_get (next_dca_threshold eng) s ->
  (side_get (dca_buys_done eng) s <= dca_levels cfg)%Z ->
  _dca_if_trigger cfg mkt s token_id ob best eng L
    = ({| primary := primary eng;
          next_dca_threshold :=
            side_set (next_dca_threshold eng) s
              (lowered cfg (side_get (next_dca_threshold eng) s));
          dca_buys_done :=
            side_set (dca_buys_done eng) s
              (side_get (dca_buys_done eng) s + 1)%Z |},
       _maybe_buy cfg mkt token_id ob (buy_chunk_usd cfg) (side_note s) L).
Proof.
  intros Hcost Hbest Hdone. unfold _dca_if_trigger.
  rewrite (proj2 (Qle_bool_false _ _) Hcost).
  rewrite (proj2 (Qle_bool_iff _ _) Hbest).
  now rewrite (proj2 (Z.leb_le _ _) Hdone).
Qed.

Lemma dca_if_trigger_idle (cfg : StrategyConfig) (mkt : ActiveMarket)
    (s : Side) (token_id : string) (ob : OrderBook) (best : Q)
    (eng : Engine) (L : Ledger) :
  max_side_spend_usd cfg <= cost_usd (position_of (acct L) token_id) \/
  side_get (next_dca_threshold eng) s < best \/
  (dca_levels cfg < side_get (dca_buys_done eng) s)%Z ->
  _dca_if_trigger cfg mkt s token_id ob best eng L = (eng, L).
Proof.
  intros H. unfold _dca_if_trigger.
  destruct (Qle_bool_spec (max_side_spend_usd cfg)
                          (cost_usd (position_of (acct L) token_id)))
    as [Hc|Hc]; [reflexivity|].
  destruct (Qle_bool_spec best (side_get (next_dca_threshold eng) s))
    as [Hb|Hb]; [|reflexivity].
  destruct (Z.leb_spec (side_get (dca_buys_done eng) s) (dca_levels cfg))
    as [Hd|Hd]; [|reflexivity].
  exfalso. destruct H as [H|[H|H]]; [lra|lra|lia].
Qed.

(** The lowered threshold is at most the threshold it replaces exactly
    when that one is at least 0.01 and, the step being negative, it is
    at the ceiling already. *)
Lemma lowered_le_iff (cfg : StrategyConfig) (threshold : Q) :
  lowered cfg threshold <= threshold <->
  0.01 <= threshold /\ (0 <= dca_step_cents cfg \/ 0.99 <= threshold).
Proof.
  unfold lowered, clamp.
  assert (Hd : 0 <= dca_step_cents cfg <-> 0 <= dca_step_cents cfg / 100).
  { split; intros H.
    - apply Qle_shift_div_l; [reflexivity|]. lra.
    - assert (E : dca_step_cents cfg == dca_step_cents cfg / 100 * 100)
        by (field; discriminate).
      rewrite E. nra. }
  destruct (Qmax_cases 0.01 (Qmin 0.99 (threshold - dca_step_cents cfg / 100)))
    as [[H E]|[H E]];
  destruct (Qmin_cases 0.99 (threshold - dca_step_cents cfg / 100))
    as [[H' E']|[H' E']]; rewrite E in *; try rewrite E' in *;
  (split;
   [intros Hle; split; [lra|];
    destruct (Qlt_le_dec threshold 0.99) as [Hlt|Hge]; [left|right; exact Hge];
    apply Hd; lra
   |intros [H1 [H2|H2]]; [apply Hd in H2|]; lra]).
Qed.

(** A tick in threshold mode whose primary side passes the three guards
    lowers the threshold of that side. *)
Lemma step_threshold_fires (fuel : nat) (cfg : StrategyConfig)
    (mkt : ActiveMarket) (store : gmap string OrderBook)
    (eng eng' : Engine) (L L' : Ledger) (s : Side) (up_ask down_ask : Q) :
  step fuel cfg threshold35 mkt store eng L = Some (eng', L') ->
  best_ask (store_get store (up_token mkt)) = Some up_ask ->
  best_ask (store_get store (down_token mkt)) = Some down_ask ->
  is_Some (best_bid (store_get store (up_token mkt))) ->
  is_Some (best_bid (store_get store (down_token mkt))) ->
  primary (choose_primary cfg up_ask down_ask eng) = Some s ->
  cost_usd (position_of (acct L) (token_of mkt s)) < max_side_spend_usd cfg ->
  match s with UP => up_ask | DOWN => down_ask end
    <= side_get (next_dca_threshold eng) s ->
  (side_get (dca_buys_done eng) s <= dca_levels cfg)%Z ->
  side_get (next_dca_threshold eng') s
    = lowered cfg (side_get (next_dca_threshold eng) s) /\
  side_get (dca_buys_done eng') s = (side_get (dca_buys_done eng) s + 1)%Z.
Proof.
  intros Hstep Hua Hda [bu Hbu] [bd Hbd] Hp Hcost Hbest Hdone.
  unfold step in Hstep. rewrite Hua, Hda, Hbu, Hbd in Hstep.
  apply step_threshold35_inv in Hstep as (L2 & Hd & _).
  apply (f_equal fst) in Hd. simpl in Hd. subst eng'.
  destruct (choose_primary_state cfg up_ask down_ask eng) as [Ed Et].
  set (eng1 := choose_primary cfg up_ask down_ask eng) in *.
  unfold dca_stage. rewrite Hp.
  rewrite <- Et in Hbest. rewrite <- Ed in Hdone. rewrite <- Et, <- Ed.
  destruct s; simpl in Hcost;
    rewrite (dca_if_trigger_fires _ _ _ _ _ _ _ _ Hcost Hbest Hdone);
    simpl; split; reflexivity.
Qed.

(** Within one market, with a step that is not negative and an entry
    price of at least one cent, no threshold is below 0.01 and no tick
    raises one. *)
Lemma in_market_thresholds (cfg : StrategyConfig) (mode : Mode)
    (mkt : ActiveMarket) (eng : Engine) :
  0 <= dca_step_cents cfg ->
  1 <= entry_ask_cents cfg ->
  in_market cfg mode mkt eng ->
  (forall s, 0.01 <= side_get (next_dca_threshold eng) s) /\
  (forall fuel store L eng' L' s,
      step fuel cfg mode mkt store eng L = Some (eng', L') ->
      side_get (next_dca_threshold eng') s
        <= side_get (next_dca_threshold eng) s).
Proof.
  intros Hstep Hentry Hin.
  assert (Hinv : forall s, 0.01 <= side_get (next_dca_threshold eng) s).
  { induction Hin as [|fuel store eng L eng' L' Hin IH Hs]; intros s.
    - assert (0.01 <= entry_ask_cents cfg / 100).
      { apply Qle_shift_div_l; lra. }
      destruct s; simpl; assumption.
    - destruct (step_thresholds _ _ _ _ _ _ _ _ _ s Hs) as [E|E]; rewrite E.
      + apply IH.
      + apply clamp_bounds. }
  split; [exact Hinv|].
  intros fuel store L eng' L' s Hs.
  destruct (step_thresholds _ _ _ _ _ _ _ _ _ s Hs) as [E|E]; rewrite E.
  - lra.
  - apply lowered_le; [assumption|apply Hinv].
Qed.

(** Under the defaults no threshold of a market is above 0.99. *)
Lemma in_market_default_ceiling (mode : Mode) (mkt : ActiveMarket)
    (eng : Engine) (s : Side) :
  in_market default_cfg mode mkt eng ->
  side_get (next_dca_threshold eng) s <= 0.99.
Proof.
  induction 1 as [|fuel store eng L eng' L' Hin IH Hs].
  - destruct s; vm_compute; discriminate.
  - destruct (step_thresholds _ _ _ _ _ _ _ _ _ s Hs) as [E|E]; rewrite E.
    + exact IH.
    + apply clamp_bounds.
Qed.

(** C7.  Each trigger replaces the threshold of its side by
    [clamp(threshold - dca_step, 0.01, 0.99)]: [_dca_if_trigger] does so
    whenever the cost of the side is below the cap, the ask is at or
    below the threshold and the counter has not passed [dca_levels], and
    it leaves the engine as it was otherwise; the stored value lies in
    [0.01, 0.99], the threshold of the other side is kept, and the
    stored value is at most its predecessor exactly when the predecessor
    is at least 0.01 and the step is not negative (or the predecessor is
    at the ceiling).  A tick in threshold mode whose primary side meets
    the three conditions lowers that side's threshold so, and every tick
    leaves each threshold as it was or lowered so.  Hence within one
    market, under the configuration [main] builds ([StrategyConfig()]:
    entry 35 cents, step 5 cents), every threshold lies in [0.01, 0.99]
    and no tick raises one; and so under every configuration whose step
    is not negative and whose entry price is at least one cent. *)
Theorem dca_thresholds_non_increasing :
  (forall (cfg : StrategyConfig) (mkt : ActiveMarket) (s : Side)
          (token_id : string) (ob : OrderBook) (best : Q)
          (eng : Engine) (L : Ledger),
      let t := side_get (next_dca_threshold eng) s in
      let eng' := fst (_dca_if_trigger cfg mkt s token_id ob best eng L) in
      let t' := side_get (next_dca_threshold eng') s in
      (cost_usd (position_of (acct L) token_id) < max_side_spend_usd cfg ->
       best <= t ->
       (side_get (dca_buys_done eng) s <= dca_levels cfg)%Z ->
       t' = clamp (t - dca_step_cents cfg / 100) 0.01 0.99 /\
       0.01 <= t' /\ t' <= 0.99 /\
       (t' <= t <-> 0.01 <= t /\ (0 <= dca_step_cents cfg \/ 0.99 <= t)) /\
       side_get (next_dca_threshold eng') (opposite s)
         = side_get (next_dca_threshold eng) (opposite s)) /\
      (max_side_spend_usd cfg <= cost_usd (position_of (acct L) token_id) \/
       t < best \/
       (dca_levels cfg < side_get (dca_buys_done eng) s)%Z ->
       eng' = eng)) /\
  (forall (fuel : nat) (cfg : StrategyConfig) (mkt : ActiveMarket)
          (store : gmap string OrderBook) (eng eng' : Engine)
          (L L' : Ledger) (s : Side) (up_ask down_ask : Q),
      step fuel cfg threshold35 mkt store eng L = Some (eng', L') ->
      best_ask (store_get store (up_token mkt)) = Some up_ask ->
      best_ask (store_get store (down_token mkt)) = Some down_ask ->
      is_Some (best_bid (store_get store (up_token mkt))) ->
      is_Some (best_bid (store_get store (down_token mkt))) ->
      primary (choose_primary cfg up_ask down_ask eng) = Some s ->
      cost_usd (position_of (acct L) (token_of mkt s))
        < max_side_spend_usd cfg ->
      match s with UP => up_ask | DOWN => down_ask end
        <= side_get (next_dca_threshold eng) s ->
      (side_get (dca_buys_done eng) s <= dca_levels cfg)%Z ->
      side_get (next_dca_threshold eng') s
        = clamp (side_get (next_dca_threshold eng) s
                 - dca_step_cents cfg / 100) 0.01 0.99) /\
  (forall (fuel : nat) (cfg : StrategyConfig) (mode : Mode)
          (mkt : ActiveMarket) (store : gmap string OrderBook)
          (eng eng' : Engine) (L L' : Ledger) (s : Side),
      step fuel cfg mode mkt store eng L = Some (eng', L') ->
      side_get (next_dca_threshold eng') s
        = side_get (next_dca_threshold eng) s \/
      side_get (next_dca_threshold eng') s
        = clamp (side_get (next_dca_threshold eng) s
                 - dca_step_cents cfg / 100) 0.01 0.99) /\
  (forall (mode : Mode) (mkt : ActiveMarket) (eng : Engine),
      in_market default_cfg mode mkt eng ->
      (forall s, 0.01 <= side_get (next_dca_threshold eng) s /\
                 side_get (next_dca_threshold eng) s <= 0.99) /\
      (forall fuel store L eng' L' s,
          step fuel default_cfg mode mkt store eng L = Some (eng', L') ->
          side_get (next_dca_threshold eng') s
            <= side_get (next_dca_threshold eng) s)) /\
  (forall (cfg : StrategyConfig) (mode : Mode) (mkt : ActiveMarket)
          (eng : Engine),
      0 <= dca_step_cents cfg ->
      1 <= entry_ask_cents cfg ->
      in_market cfg mode mkt eng ->
      (forall s, 0.01 <= side_get (next_dca_threshold eng) s) /\
      (forall fuel store L eng' L' s,
          step fuel cfg mode mkt store eng L = Some (eng', L') ->
          side_get (next_dca_threshold eng') s
            <= side_get (next_dca_threshold eng) s)).
Proof.
  split; [|split; [|split; [|split]]].
  - intros cfg mkt s token_id ob best eng L t eng' t'. split.
    + intros Hcost Hbest Hdone. subst t' eng'.
      rewrite (dca_if_trigger_fires _ _ _ _ _ _ _ _ Hcost Hbest Hdone).
      cbn [fst next_dca_threshold]. rewrite !side_get_set.
      rewrite decide_True by reflexivity.
      split; [reflexivity|]. split; [apply clamp_bounds|].
      split; [apply clamp_bounds|]. split; [apply lowered_le_iff|].
      now destruct s.
    + intros Hidle. subst eng'.
      now rewrite (dca_if_trigger_idle _ _ _ _ _ _ _ _ Hidle).
  - intros fuel cfg mkt store eng eng' L L' s up_ask down_ask
           Hstep Hua Hda Hbu Hbd Hp Hcost Hbest Hdone.
    exact (proj1 (step_threshold_fires _ _ _ _ _ _ _ _ _ _ _ Hstep Hua Hda
                    Hbu Hbd Hp Hcost Hbest Hdone)).
  - intros fuel cfg mode mkt store eng eng' L L' s Hstep.
    exact (step_thresholds _ _ _ _ _ _ _ _ _ s Hstep).
  - intros mode mkt eng Hin.
    assert (H1 : 0 <= dca_step_cents default_cfg) by (simpl; lra).
    assert (H2 : 1 <= entry_ask_cents default_cfg) by (simpl; lra).
    destruct (in_market_thresholds default_cfg mode mkt eng H1 H2 Hin)
      as [Hlo Hmono].
    split; [|exact Hmono].
    intros s. split; [apply Hlo|].
    exact (in_market_default_ceiling mode mkt eng s Hin).
  - intros cfg mode mkt eng Hs He Hin.
    exact (in_market_thresholds cfg mode mkt eng Hs He Hin).
Qed.

Lemma dca_thresholds_non_increasing_witness :
  exists (eng1 eng2 : Engine) (L1 L2 : Ledger),
    step 5 default_cfg threshold35 example_market quarter_store
         (reset_for_new_market default_cfg) example_ledger = Some (eng1, L1) /\
    step 5 default_cfg threshold35 example_market quarter_store eng1 L1
      = Some (eng2, L2) /\
    side_get (next_dca_threshold eng1) UP
      = clamp (side_get (next_dca_threshold
                           (reset_for_new_market default_cfg)) UP
               - dca_step_cents default_cfg / 100) 0.01 0.99 /\
    side_get (next_dca_threshold eng1) UP
      <= side_get (next_dca_threshold (reset_for_new_market default_cfg)) UP /\
    side_get (next_dca_threshold eng2) UP
      <= side_get (next_dca_threshold eng1) UP /\
    0.01 <= side_get (next_dca_threshold eng2) UP /\
    side_get (next_dca_threshold eng2) UP <= 0.99.
Proof.
  destruct (step 5 default_cfg threshold35 example_market quarter_store
                 (reset_for_new_market default_cfg) example_ledger)
    as [[eng1 L1]|] eqn:E1; [|vm_compute in E1; discriminate].
  destruct (step 5 default_cfg threshold35 example_market quarter_store
                 eng1 L1)
    as [[eng2 L2]|] eqn:E2.
  2:{ exfalso. revert E2.
      change (match Some (eng1, L1) with
              | Some x => step 5 default_cfg threshold35 example_market
                               quarter_store (fst x) (snd x)
              | None => None
              end = None -> False).
      rewrite <- E1. vm_compute. discriminate. }
  pose proof dca_thresholds_non_increasing as (_ & Hfire & _ & Hdef & _).
  pose proof (in_market_reset default_cfg threshold35 example_market) as I0.
  pose proof (in_market_step _ _ _ _ _ _ _ _ _ I0 E1) as I1.
  pose proof (in_market_step _ _ _ _ _ _ _ _ _ I1 E2) as I2.
  exists eng1, eng2, L1, L2.
  split; [reflexivity|]. split; [exact E2|]. split.
  - apply (Hfire 5%nat default_cfg example_market quarter_store
                 (reset_for_new_market default_cfg) eng1 example_ledger L1
                 UP 0.25 0.25 E1).
    + reflexivity.
    + reflexivity.
    + eexists; reflexivity.
    + eexists; reflexivity.
    + reflexivity.
    + vm_compute. reflexivity.
    + vm_compute. discriminate.
    + simpl. lia.
  - split; [exact (proj2 (Hdef _ _ _ I0) _ _ _ _ _ UP E1)|].
    split; [exact (proj2 (Hdef _ _ _ I1) _ _ _ _ _ UP E2)|].
    exact (proj1 (Hdef _ _ _ I2) UP).
Defined.

(** ** Settlement *)

Lemma bid_or_zero_eq (b : option Q) : bid_or_zero b == default 0 b.
Proof.
  destruct b as [p|]; simpl; [|reflexivity].
  destruct (Qeq_bool p 0) eqn:E; [|reflexivity].
  apply Qeq_bool_iff in E. now rewrite E.
Qed.

(** C4.  Whatever the account before settlement and whichever side is
    decided the winner, [settle_market] leaves the positions of both
    outcome tokens at 0 shares and 0 cost and every other position as it
    was, adds to the cash the shares held on the winning side before
    settlement times 1.0, and records as pnl that redemption minus the
    sum of the costs of the UP and DOWN positions. *)
Theorem settle_market_redeems_and_zeroes :
  forall (mkt : ActiveMarket) (polls : list (gmap string OrderBook))
         (store : gmap string OrderBook) (a : PaperAccount)
         (rlog : list MarketResult) (cfg : StrategyConfig),
    let '(res, a', rlog') := settle_market mkt polls store a rlog cfg in
    let redeem := shares (position_of a (token_of mkt (winner res))) * 1 in
    positions a' !! up_token mkt = Some (mkPosition 0 0) /\
    positions a' !! down_token mkt = Some (mkPosition 0 0) /\
    (forall t, t <> up_token mkt -> t <> down_token mkt ->
               positions a' !! t = positions a !! t) /\
    cash a' = cash a + redeem /\
    cash a' == cash a + shares (position_of a (token_of mkt (winner res))) /\
    pnl res = redeem - (cost_usd (position_of a (up_token mkt))
                        + cost_usd (position_of a (down_token mkt))) /\
    balance_after res = cash a' /\
    rlog' = rlog ++ [res].
Proof.
  intros mkt polls store a rlog cfg. unfold settle_market. simpl.
  set (w := match wait_for_winner mkt (settle_signal_bid cfg) polls with
            | Some w => w
            | None => force_pick_winner mkt store
            end).
  assert (Hw : match w with
               | UP => shares (position_of a (up_token mkt))
               | DOWN => shares (position_of a (down_token mkt))
               end = shares (position_of a (token_of mkt w)))
    by (destruct w; reflexivity).
  rewrite Hw.
  split; [|split; [|split; [|split; [|split; [|split; [|split]]]]]];
    try reflexivity.
  - destruct (decide (down_token mkt = up_token mkt)) as [E|N].
    + rewrite E. apply lookup_insert_eq.
    + rewrite lookup_insert_ne by exact N. apply lookup_insert_eq.
  - apply lookup_insert_eq.
  - intros t Hu Hd. rewrite !lookup_insert_ne by congruence. reflexivity.
  - ring.
Qed.

Lemma settle_market_redeems_and_zeroes_witness :
  positions (snd (fst (settle_market example_market [] ∅ example_account []
                                     default_cfg))) !! "up"%string
    = Some (mkPosition 0 0) /\
  cash (snd (fst (settle_market example_market [] ∅ example_account []
                                default_cfg)))
    == 107.5.
Proof.
  pose proof (settle_market_redeems_and_zeroes example_market [] ∅
                example_account [] default_cfg) as H.
  destruct (settle_market example_market [] ∅ example_account [] default_cfg)
    as [[res a'] rlog'] eqn:E.
  destruct H as (Hup & _ & _ & Hcash & _).
  split; [exact Hup|].
  simpl. rewrite Hcash.
  apply (f_equal (fun r => winner (fst (fst r)))) in E. simpl in E.
  rewrite <- E. vm_compute. reflexivity.
Defined.

Lemma wait_for_winner_none (mkt : ActiveMarket) (signal : Q)
    (polls : list (gmap string OrderBook)) :
  wait_for_winner mkt signal polls = None <->
  Forall (fun store => pick_winner_from_book mkt store signal = None) polls.
Proof.
  induction polls as [|store later IH]; simpl.
  - split; [constructor|reflexivity].
  - destruct (pick_winner_from_book mkt store signal) eqn:E.
    + split; [discriminate|]. intros H. inversion H; congruence.
    + rewrite IH. split; [now constructor|]. intros H. now inversion H.
Qed.

(** C5.  When no poll of the wait shows a winner, the winner
    [settle_market] records is the forced one: with [u] and [d] the best
    bids of the UP and DOWN books once the wait is over, an absent bid
    counting as 0, UP wins when [u > d], DOWN wins when [d > u], and
    on [u = d], both bids absent included, the winner is UP. *)
Theorem forced_winner_compares_best_bids :
  forall (mkt : ActiveMarket) (polls : list (gmap string OrderBook))
         (store : gmap string OrderBook) (a : PaperAccount)
         (rlog : list MarketResult) (cfg : StrategyConfig),
    Forall (fun st => pick_winner_from_book mkt st (settle_signal_bid cfg)
                      = None) polls ->
    let w := winner (fst (fst (settle_market mkt polls store a rlog cfg))) in
    let ub := best_bid (store_get store (up_token mkt)) in
    let db := best_bid (store_get store (down_token mkt)) in
    w = force_pick_winner mkt store /\
    (default 0 db < default 0 ub -> w = UP) /\
    (default 0 ub < default 0 db -> w = DOWN) /\
    (default 0 ub == default 0 db -> w = UP) /\
    (ub = None -> db = None -> w = UP).
Proof.
  intros mkt polls store a rlog cfg Hnone. simpl.
  apply wait_for_winner_none in Hnone. rewrite Hnone.
  unfold force_pick_winner.
  set (ub := best_bid (store_get store (up_token mkt))).
  set (db := best_bid (store_get store (down_token mkt))).
  pose proof (bid_or_zero_eq ub) as Eu. pose proof (bid_or_zero_eq db) as Ed.
  split; [reflexivity|].
  destruct (Qlt_bool_spec (bid_or_zero db) (bid_or_zero ub)) as [H1|H1];
    [|destruct (Qlt_bool_spec (bid_or_zero ub) (bid_or_zero db)) as [H2|H2]];
    repeat split; intros; try reflexivity; try (exfalso; lra).
  subst ub db.
  match goal with
  | Hu : best_bid _ = None, Hd : best_bid _ = None |- _ =>
      rewrite Hu, Hd in H2; simpl in H2; exfalso; lra
  end.
Qed.

Lemma forced_winner_compares_best_bids_witness :
  winner (fst (fst (settle_market example_market [∅] ∅
                      (acct example_ledger) [] default_cfg))) = UP.
Proof.
  refine (proj2 (proj2 (proj2 (proj2
            (forced_winner_compares_best_bids example_market [∅] ∅
               (acct example_ledger) [] default_cfg _)))) _ _);
    [repeat constructor|reflexivity|reflexivity].
Defined.

(** ** Persistence *)

Section RoundTrip.

Variable py_float : json -> option Q.
Variable py_str : json -> string.

(** [float] of a JSON number is that number. *)
Hypothesis py_float_num : forall q : Q, py_float (JNum q) = Some q.

Lemma position_from_asdict (p : Position) :
  position_from_json py_float (position_asdict p) = Some p.
Proof.
  destruct p as [sh c]. unfold position_from_json, position_asdict. simpl.
  set (vm := <["shares"%string := JNum sh]> _).
  replace (vm !! "shares"%string) with (Some (JNum sh)) by reflexivity.
  replace (vm !! "cost_usd"%string) with (Some (JNum c)) by reflexivity.
  simpl. rewrite !py_float_num. reflexivity.
Qed.

(** The loop over [pos.items()] rebuilds the map of the positions it
    can read. *)
Lemma positions_fold (pm : gmap string json) :
  map_Forall (fun _ v => is_Some (position_from_json py_float v)) pm ->
  map_fold (fun k v (acc : option (gmap string Position)) =>
              m ← acc; p ← position_from_json py_float v; Some (<[k := p]> m))
           (Some ∅) pm
  = Some (omap (position_from_json py_float) pm).
Proof.
  apply (map_fold_weak_ind
           (fun r (m : gmap string json) =>
              map_Forall (fun _ v => is_Some (position_from_json py_float v)) m ->
              r = Some (omap (position_from_json py_float) m))).
  - intros _. now rewrite omap_empty.
  - intros k v m r Hk IH Hall.
    apply map_Forall_insert in Hall as [[p Hp] Hm]; [|exact Hk].
    rewrite (IH Hm). simpl. rewrite Hp. simpl.
    now rewrite (omap_insert_Some _ _ _ _ _ Hp).
Qed.

Lemma positions_reloaded (ps : gmap string Position) :
  omap (position_from_json py_float) (position_asdict <$> ps) = ps.
Proof.
  apply map_eq. intros k. rewrite lookup_omap, lookup_fmap.
  destruct (ps !! k) as [p|]; simpl; [apply position_from_asdict|reflexivity].
Qed.

Lemma from_dict_to_dict (a : PaperAccount) (default_symbol : string)
    (default_balance : Q) :
  from_dict py_float py_str (to_dict a) default_symbol default_balance
    = Some (reloaded py_str default_symbol a).
Proof.
  unfold from_dict, to_dict.
  set (dm := <["symbol"%string := JStr (symbol a)]> _).
  replace (dm !! "symbol"%string) with (Some (JStr (symbol a)))
    by reflexivity.
  replace (dm !! "cash"%string) with (Some (JNum (cash a))) by reflexivity.
  replace (dm !! "positions"%string)
    with (Some (JObj (position_asdict <$> positions a))) by reflexivity.
  simpl. rewrite py_float_num. simpl.
  assert (Hor : py_or (JObj (position_asdict <$> positions a)) (JObj ∅)
                = JObj (position_asdict <$> positions a)).
  { unfold py_or. simpl. case_bool_decide as Hempty; simpl; [|reflexivity].
    now rewrite Hempty. }
  rewrite Hor, positions_fold.
  - now rewrite positions_reloaded.
  - intros k v Hv. rewrite lookup_fmap in Hv.
    destruct (positions a !! k) as [p|]; simpl in Hv; [|discriminate].
    inversion Hv; subst. rewrite position_from_asdict. now eexists.
Qed.

(** A symbol outside the list is not touched by the loading loop. *)
Lemma load_accounts_other (blob : gmap string json) (sb : gmap string Q)
    (syms : list string) :
  forall (acc : gmap string PaperAccount) (s : string),
    s ∉ syms ->
    load_accounts py_float py_str blob sb syms acc !! s = acc !! s.
Proof.
  induction syms as [|sym rest IH]; intros acc s Hs; simpl; [reflexivity|].
  apply not_elem_of_cons in Hs as [Hne Hrest].
  destruct (blob !! sym) as [d|]; [|now apply IH].
  destruct (from_dict py_float py_str d sym (start_balance sb sym)) as [a|];
    [|reflexivity].
  rewrite IH by exact Hrest. now rewrite lookup_insert_ne.
Qed.

Lemma load_accounts_saved (accounts : gmap string PaperAccount)
    (sb : gmap string Q) (syms : list string) :
  forall (acc : gmap string PaperAccount) (s : string) (a : PaperAccount),
    s ∈ syms ->
    accounts !! s = Some a ->
    load_accounts py_float py_str (to_dict <$> accounts) sb syms acc !! s
      = Some (reloaded py_str s a).
Proof.
  induction syms as [|sym rest IH]; intros acc s a Hs Ha; simpl.
  - now apply elem_of_nil in Hs.
  - rewrite lookup_fmap.
    destruct (decide (s = sym)) as [->|Hne].
    + rewrite Ha. change (to_dict <$> Some a) with (Some (to_dict a)).
      cbv beta iota. rewrite from_dict_to_dict.
      destruct (decide (sym ∈ rest)) as [Hin|Hout].
      * now apply IH.
      * rewrite load_accounts_other by exact Hout. apply lookup_insert_eq.
    + apply elem_of_cons in Hs as [?|Hin]; [congruence|].
      destruct (accounts !! sym) as [a1|].
      * change (to_dict <$> Some a1) with (Some (to_dict a1)).
        cbv beta iota. rewrite from_dict_to_dict. now apply IH.
      * now apply IH.
Qed.

(** C8.  After [save_state] has written the state file, [load_state]
    returns, for every configured symbol that has an account, an account
    with the same cash and the same map of positions (same shares and
    cost under every token id). *)
Theorem save_then_load_round_trip :
  forall (cfg : StrategyConfig) (start_balances : gmap string Q)
         (accounts : gmap string PaperAccount) (meta : json)
         (saved_at : string) (fs : FileState)
         (sym : string) (a : PaperAccount),
    sym ∈ symbols cfg ->
    accounts !! sym = Some a ->
    exists a' : PaperAccount,
      fst (load_state py_float py_str cfg start_balances
             (save_state cfg accounts meta saved_at Written fs)) !! sym
        = Some a' /\
      cash a' = cash a /\
      positions a' = positions a.
Proof.
  intros cfg sb accounts meta saved_at fs sym a Hsym Ha.
  exists (reloaded py_str sym a). split; [|split; reflexivity].
  unfold load_state, save_state.
  set (dm := <["accounts"%string := JObj (to_dict <$> accounts)]> _).
  replace (dm !! "accounts"%string)
    with (Some (JObj (to_dict <$> accounts))) by reflexivity.
  simpl. now apply load_accounts_saved.
Qed.

End RoundTrip.

Lemma save_then_load_round_trip_witness :
  exists a' : PaperAccount,
    fst (load_state float_of_json str_of_json default_cfg ∅
           (save_state default_cfg example_accounts (JObj ∅) "t" Written
                       Absent)) !! "BTC"%string = Some a' /\
    cash a' = cash example_account /\
    positions a' = positions example_account.
Proof.
  refine (save_then_load_round_trip float_of_json str_of_json
            (fun q => eq_refl) default_cfg ∅ example_accounts (JObj ∅) "t"
            Absent "BTC" example_account _ _).
  - simpl. apply elem_of_cons. now left.
  - reflexivity.
Defined.

(** ** The hedge loop *)

Lemma hedge_eps_pos : 0 < hedge_eps.
Proof. reflexivity. Qed.

(** What a completed turn of the hedge loop has checked, and what it
    has done. *)
Lemma hedge_body_inv (cfg : StrategyConfig) (mkt : ActiveMarket)
    (ptok htok : string) (hob : OrderBook) (v v' : HedgeVars) :
  hedge_body cfg mkt ptok htok hob v = Some v' ->
  cost_usd (hedge_pos v) + hedge_eps < cost_usd (primary_pos v) /\
  cost_usd (hedge_pos v) < max_side_spend_usd cfg /\
  exists es ea esp : Q,
    consume_asks_for_buy hob (buy_chunk_usd cfg) = (es, ea, esp) /\
    0 < es /\ 0 < esp /\
    avg_price (primary_pos v) + ea < sum_cap_dollars cfg /\
    v' = {| primary_pos :=
              position_of (acct (_maybe_buy cfg mkt htok hob (buy_chunk_usd cfg)
                                   "hedge_chunk_sumcap_ok" (ledger v))) ptok;
            hedge_pos :=
              position_of (acct (_maybe_buy cfg mkt htok hob (buy_chunk_usd cfg)
                                   "hedge_chunk_sumcap_ok" (ledger v))) htok;
            ledger := _maybe_buy cfg mkt htok hob (buy_chunk_usd cfg)
                                 "hedge_chunk_sumcap_ok" (ledger v) |}.
Proof.
  unfold hedge_body. intros H.
  destruct (Qlt_bool_spec (cost_usd (hedge_pos v) + hedge_eps)
                          (cost_usd (primary_pos v))) as [Hlt|]; [|discriminate].
  destruct (Qle_bool_spec (max_side_spend_usd cfg) (cost_usd (hedge_pos v)))
    as [|Hmax]; [discriminate|].
  destruct (consume_asks_for_buy hob (buy_chunk_usd cfg)) as [[es ea] esp].
  destruct (Qle_bool_spec es 0) as [|Hes]; [discriminate|].
  destruct (Qle_bool_spec esp 0) as [|Hesp]; [discriminate|]. simpl in H.
  destruct (Qle_bool_spec (sum_cap_dollars cfg) (avg_price (primary_pos v) + ea))
    as [|Hcap]; [discriminate|].
  inversion H; subst; clear H.
  split; [assumption|]. split; [assumption|].
  exists es, ea, esp. repeat (split; [first [reflexivity|assumption]|]).
  reflexivity.
Qed.

(** The fills a completed turn appends: none when the buy is rejected,
    else one, on the hedge token, at the average price of the chunk. *)
Lemma hedge_body_fills (cfg : StrategyConfig) (mkt : ActiveMarket)
    (ptok htok : string) (hob : OrderBook) (v v' : HedgeVars) :
  hedge_body cfg mkt ptok htok hob v = Some v' ->
  exists fills : list Fill,
    flog (ledger v') = flog (ledger v) ++ fills /\
    (length fills <= 1)%nat /\
    Forall (fun f =>
              fill_token_id f = htok /\
              fill_price f
                = snd (fst (consume_asks_for_buy hob (buy_chunk_usd cfg))) /\
              avg_price (primary_pos v) + fill_price f < sum_cap_dollars cfg)
           fills.
Proof.
  intros H.
  destruct (hedge_body_inv _ _ _ _ _ _ _ H)
    as (_ & _ & es & ea & esp & Ec & _ & _ & Hcap & ->).
  simpl.
  destruct (maybe_buy_cases cfg mkt htok hob (buy_chunk_usd cfg)
              "hedge_chunk_sumcap_ok" (ledger v))
    as [->|(sh & avg & spent & Ec' & _ & _ & _ & _ & _ & ->)].
  - exists []. rewrite app_nil_r. repeat split; [simpl; lia|constructor].
  - rewrite Ec in Ec'. inversion Ec'; subst. simpl.
    eexists. split; [reflexivity|]. split; [simpl; lia|].
    constructor; [|constructor]. simpl. rewrite Ec. simpl.
    split; [reflexivity|]. split; [reflexivity|exact Hcap].
Qed.

(** C2, as the code has it.  Every fill the hedge loop appends, over
    any number of turns, is on the hedge token and is priced at the
    average price of the chunk alone, the average
    [consume_asks_for_buy] returns for one chunk budget on the hedge
    book; at the turn that made it, the average price of the primary
    position plus that price was below [sum_cap_dollars]. *)
Theorem hedge_fills_below_cap_on_chunk_average :
  forall (cfg : StrategyConfig) (mkt : ActiveMarket) (ptok htok : string)
         (hob : OrderBook) (n : nat) (v v' : HedgeVars),
    hedge_turns cfg mkt ptok htok hob n v = Some v' ->
    exists fills : list Fill,
      flog (ledger v') = flog (ledger v) ++ fills /\
      Forall (fun f =>
                fill_token_id f = htok /\
                fill_price f
                  = snd (fst (consume_asks_for_buy hob (buy_chunk_usd cfg))) /\
                exists (k : nat) (vk : HedgeVars),
                  (k < n)%nat /\
                  hedge_turns cfg mkt ptok htok hob k v = Some vk /\
                  avg_price (primary_pos vk) + fill_price f
                    < sum_cap_dollars cfg)
             fills.
Proof.
  intros cfg mkt ptok htok hob n.
  induction n as [|n IH]; intros v v' H; simpl in H.
  - inversion H; subst. exists []. now rewrite app_nil_r.
  - destruct (hedge_body cfg mkt ptok htok hob v) as [v1|] eqn:E;
      [|discriminate].
    destruct (hedge_body_fills _ _ _ _ _ _ _ E) as (f1 & E1 & _ & H1).
    destruct (IH _ _ H) as (f2 & E2 & H2).
    exists (f1 ++ f2). split.
    + now rewrite E2, E1, app_assoc.
    + apply Forall_app. split.
      * eapply Forall_impl; [exact H1|].
        intros f (Ht & Hp & Hc). repeat split; try assumption.
        exists 0%nat, v. repeat split; [lia|assumption].
      * eapply Forall_impl; [exact H2|].
        intros f (Ht & Hp & k & vk & Hk & Hturn & Hc).
        repeat split; try assumption.
        exists (S k), vk. simpl. rewrite E. repeat split; [lia|assumption..].
Qed.

Lemma hedge_fills_below_cap_on_chunk_average_witness :
  exists (v' : HedgeVars) (fills : list Fill),
    hedge_turns default_cfg example_market "up" "down" quarter_book 1
                skewed_vars = Some v' /\
    flog (ledger v') = flog (ledger skewed_vars) ++ fills.
Proof.
  destruct (hedge_turns default_cfg example_market "up" "down" quarter_book 1
                        skewed_vars) as [v'|] eqn:E;
    [|vm_compute in E; discriminate].
  destruct (hedge_fills_below_cap_on_chunk_average _ _ _ _ _ _ _ _ E)
    as (fills & Hf & _).
  exists v', fills. split; [reflexivity|exact Hf].
Defined.

(** C2, as the specification words it, fails.  On an account that holds 8 UP
    shares bought for 4.0 (average 0.5) and 4 DOWN shares bought for
    3.5, with 100 DOWN shares offered at 0.25, one turn of the hedge
    loop buys a chunk (0.5 + 0.25 is below the cap of 0.99); the DOWN
    position then averages 4.5 / 8 = 0.5625, and 0.5 + 0.5625 is not
    below the cap. *)
Lemma hedge_chunk_breaks_cap_on_position_average :
  exists v' : HedgeVars,
    hedge_body default_cfg example_market "up" "down" quarter_book
               skewed_vars = Some v' /\
    length (flog (ledger v')) = S (length (flog (ledger skewed_vars))) /\
    hedge_pos v' = position_of (acct (ledger v')) "down" /\
    avg_price (primary_pos v') == 0.5 /\
    avg_price (hedge_pos v') == 0.5625 /\
    sum_cap_dollars default_cfg
      <= avg_price (primary_pos v') + avg_price (hedge_pos v').
Proof.
  eexists. split; [vm_compute; reflexivity|].
  split; [reflexivity|]. split; [reflexivity|].
  split; [vm_compute; reflexivity|]. split; [vm_compute; reflexivity|].
  apply Qle_bool_iff. vm_compute. reflexivity.
Qed.

(** *** A rejected buy does not leave the loop *)

Lemma hedge_turns_stuck (cfg : StrategyConfig) (mkt : ActiveMarket)
    (ptok htok : string) (hob : OrderBook) (v : HedgeVars) :
  hedge_body cfg mkt ptok htok hob v = Some v ->
  forall n : nat, hedge_turns cfg mkt ptok htok hob n v = Some v.
Proof.
  intros Hb n. induction n as [|n IH]; simpl; [reflexivity|].
  now rewrite Hb.
Qed.

Lemma hedge_loop_stuck (cfg : StrategyConfig) (mkt : ActiveMarket)
    (ptok htok : string) (hob : OrderBook) (v : HedgeVars) :
  hedge_body cfg mkt ptok htok hob v = Some v ->
  forall fuel : nat, hedge_loop cfg mkt ptok htok hob fuel v = None.
Proof.
  intros Hb fuel. induction fuel as [|k IH]; simpl; rewrite Hb;
    [reflexivity|exact IH].
Qed.

(** A turn that passes every check of the loop and whose buy is
    rejected for want of cash ends with the variables it started
    with. *)
Lemma hedge_body_rejected (cfg : StrategyConfig) (mkt : ActiveMarket)
    (ptok htok : string) (hob : OrderBook) (v v' : HedgeVars) :
  in_step ptok htok v ->
  hedge_body cfg mkt ptok htok hob v = Some v' ->
  cash (acct (ledger v)) < buy_chunk_usd cfg + require_free_cash cfg ->
  v' = v.
Proof.
  intros [Hp Hh] Hb Hcash.
  destruct (hedge_body_inv _ _ _ _ _ _ _ Hb) as (_ & _ & _ & _ & _ & _ & _ & _ & _ & ->).
  assert (E : _maybe_buy cfg mkt htok hob (buy_chunk_usd cfg)
                "hedge_chunk_sumcap_ok" (ledger v) = ledger v).
  { destruct (maybe_buy_cases cfg mkt htok hob (buy_chunk_usd cfg)
                "hedge_chunk_sumcap_ok" (ledger v))
      as [E|(sh & avg & spent & _ & _ & Hc & _)]; [exact E|exfalso; lra]. }
  rewrite E, <- Hp, <- Hh. now destruct v.
Qed.

(** When the first turn of the hedge loop on DOWN ends where it
    started, the hedge stage of a tick with UP as primary side does not
    return. *)
Lemma hedge_stage_up_stuck (fuel : nat) (cfg : StrategyConfig)
    (mkt : ActiveMarket) (up_ob down_ob : OrderBook) (up_ask down_ask : Q)
    (L : Ledger) :
  0 < cost_usd (position_of (acct L) (up_token mkt)) ->
  down_ask <= entry_ask_cents cfg / 100 ->
  (let v := {| primary_pos := position_of (acct L) (up_token mkt);
               hedge_pos := position_of (acct L) (down_token mkt);
               ledger := L |} in
   hedge_body cfg mkt (up_token mkt) (down_token mkt) down_ob v = Some v) ->
  hedge_stage fuel cfg mkt up_ob down_ob up_ask down_ask (Some UP) L = None.
Proof.
  intros Hcost Hask Hb. unfold hedge_stage.
  rewrite (bool_decide_eq_true_2 (Some UP = Some UP)) by reflexivity.
  apply Qlt_bool_true in Hcost. rewrite Hcost. simpl.
  unfold _hedge_chunks. apply Qlt_bool_false in Hask. rewrite Hask.
  now rewrite (hedge_loop_stuck _ _ _ _ _ _ Hb).
Qed.

(** C3 fails on the code.  A turn of the hedge loop whose buy is
    rejected for want of cash changes nothing, so the loop is never
    left.  With 0.5 of cash, 4 UP shares bought for 1.0 and 100 DOWN
    shares offered at 0.25, every check of the hedge loop passes and the
    buy of the chunk is rejected (0.5 is below 1.0 plus the reserve of
    0.05): a turn ends with the variables it started
    with, so the loop has not been left after any number of turns, and
    [_hedge_chunks] returns for no bound on the turns.  The same happens
    within one tick that starts a market with 1.5 of cash: the entry
    buy leaves 0.5, and the hedge loop that follows never ends. *)
Theorem hedge_loop_spins_when_cash_is_short :
  (forall (cfg : StrategyConfig) (mkt : ActiveMarket) (ptok htok : string)
          (hob : OrderBook) (v v' : HedgeVars),
      in_step ptok htok v ->
      hedge_body cfg mkt ptok htok hob v = Some v' ->
      cash (acct (ledger v)) < buy_chunk_usd cfg + require_free_cash cfg ->
      forall fuel : nat, hedge_loop cfg mkt ptok htok hob fuel v = None) /\
  hedge_body default_cfg example_market "up" "down" quarter_book broke_vars
    = Some broke_vars /\
  (forall n : nat,
      hedge_turns default_cfg example_market "up" "down" quarter_book n
                  broke_vars = Some broke_vars) /\
  (forall fuel : nat,
      _hedge_chunks fuel default_cfg example_market "up" "down"
                    (mkPosition 4 1) Position0 quarter_book 0.25 broke_ledger
        = None) /\
  (forall fuel : nat,
      step fuel default_cfg threshold35 example_market quarter_store
           (reset_for_new_market default_cfg) thin_ledger = None).
Proof.
  assert (Hb : hedge_body default_cfg example_market "up" "down" quarter_book
                          broke_vars = Some broke_vars)
    by (vm_compute; reflexivity).
  split.
  { intros cfg mkt ptok htok hob v v' Hv Hbody Hcash.
    apply hedge_loop_stuck.
    now rewrite <- (hedge_body_rejected _ _ _ _ _ _ _ Hv Hbody Hcash) at 2. }
  split; [exact Hb|]. split; [now apply hedge_turns_stuck|]. split.
  - intros fuel. unfold _hedge_chunks.
    replace (Qlt_bool (entry_ask_cents default_cfg / 100) 0.25) with false
      by (vm_compute; reflexivity).
    fold broke_vars. now rewrite hedge_loop_stuck.
  - intros fuel. unfold step.
    change (store_get quarter_store (up_token example_market))
      with quarter_book.
    change (store_get quarter_store (down_token example_market))
      with quarter_book.
    cbn [best_ask best_bid quarter_book asks bids].
    unfold _step_threshold35.
    destruct (dca_stage default_cfg example_market quarter_book quarter_book
                0.25 0.25
                (choose_primary default_cfg 0.25 0.25
                   (reset_for_new_market default_cfg)) thin_ledger)
      as [eng2 L2] eqn:Hd.
    assert (Hp : primary eng2 = Some UP).
    { change eng2 with (fst (eng2, L2)). rewrite <- Hd.
      vm_compute. reflexivity. }
    rewrite Hp, hedge_stage_up_stuck; [reflexivity| | |].
    + change L2 with (snd (eng2, L2)). rewrite <- Hd.
      vm_compute. reflexivity.
    + apply Qle_bool_iff. vm_compute. reflexivity.
    + change L2 with (snd (eng2, L2)). rewrite <- Hd.
      vm_compute. reflexivity.
Qed.

(** *** The hedge side trails the primary side *)

Lemma position_of_filled (mkt : ActiveMarket) (token_id t : string)
    (note : string) (sh avg spent : Q) (L : Ledger) :
  position_of (acct (filled_ledger mkt token_id note sh avg spent L)) t
    = if decide (token_id = t)
      then mkPosition (shares (position_of (acct L) t) + sh)
                      (cost_usd (position_of (acct L) t) + spent)
      else position_of (acct L) t.
Proof.
  unfold position_of at 1. simpl. rewrite lookup_insert.
  destruct (decide (token_id = t)) as [->|]; reflexivity.
Qed.

(** After a completed turn that started in step with the account, the
    loop variables are in step again and the hedge cost is below the
    primary cost plus one chunk. *)
Lemma hedge_body_bound (cfg : StrategyConfig) (mkt : ActiveMarket)
    (ptok htok : string) (hob : OrderBook) (v v' : HedgeVars) :
  in_step ptok htok v ->
  hedge_body cfg mkt ptok htok hob v = Some v' ->
  in_step ptok htok v' /\
  cost_usd (hedge_pos v') < cost_usd (primary_pos v') + buy_chunk_usd cfg.
Proof.
  intros [Hp Hh] Hb.
  destruct (hedge_body_inv _ _ _ _ _ _ _ Hb)
    as (Hlt & _ & es & ea & esp & Ec & Hes & _ & _ & ->).
  split; [split; reflexivity|]. simpl.
  assert (Hchunk : 0 < buy_chunk_usd cfg).
  { apply (consume_positive_budget hob). now rewrite Ec. }
  pose proof hedge_eps_pos as Heps.
  destruct (maybe_buy_cases cfg mkt htok hob (buy_chunk_usd cfg)
              "hedge_chunk_sumcap_ok" (ledger v))
    as [->|(sh & avg & spent & _ & _ & _ & _ & Hsp & Hle & ->)].
  - rewrite <- Hp, <- Hh. lra.
  - rewrite !position_of_filled.
    rewrite (decide_True (P := htok = htok)) by reflexivity.
    destruct (decide (htok = ptok)) as [E|N]; simpl.
    + exfalso. rewrite Hp, Hh, E in Hlt. lra.
    + rewrite <- Hp, <- Hh. lra.
Qed.

Lemma hedge_turns_bound (cfg : StrategyConfig) (mkt : ActiveMarket)
    (ptok htok : string) (hob : OrderBook) (n : nat) :
  forall v v' : HedgeVars,
    in_step ptok htok v ->
    hedge_turns cfg mkt ptok htok hob n v = Some v' ->
    in_step ptok htok v' /\
    (v' = v \/
     cost_usd (hedge_pos v') < cost_usd (primary_pos v') + buy_chunk_usd cfg).
Proof.
  induction n as [|n IH]; intros v v' Hv H; simpl in H.
  - inversion H; subst. auto.
  - destruct (hedge_body cfg mkt ptok htok hob v) as [v1|] eqn:E;
      [|discriminate].
    destruct (hedge_body_bound _ _ _ _ _ _ _ Hv E) as [Hv1 Hb1].
    destruct (IH _ _ Hv1 H) as [Hv' [->|Hb]]; auto.
Qed.

Lemma hedge_chunks_bound (fuel : nat) (cfg : StrategyConfig)
    (mkt : ActiveMarket) (ptok htok : string) (hob : OrderBook) (hask : Q)
    (L L' : Ledger) :
  _hedge_chunks fuel cfg mkt ptok htok (position_of (acct L) ptok)
                (position_of (acct L) htok) hob hask L = Some L' ->
  L' = L \/
  cost_usd (position_of (acct L') htok)
    < cost_usd (position_of (acct L') ptok) + buy_chunk_usd cfg.
Proof.
  unfold _hedge_chunks.
  destruct (Qlt_bool _ _); [intros H; inversion H; now left|].
  destruct (hedge_loop _ _ _ _ _ _ _) as [v'|] eqn:E; simpl; [|discriminate].
  intros H; inversion H; subst; clear H.
  destruct (hedge_loop_turns _ _ _ _ _ _ _ _ E) as (n & _ & Ht & _).
  apply hedge_turns_bound in Ht as [[Hp Hh] [->|Hb]];
    [now left| |split; reflexivity].
  right. now rewrite <- Hp, <- Hh.
Qed.

Lemma choose_primary_keeps (cfg : StrategyConfig) (up_ask down_ask : Q)
    (eng : Engine) (p : Side) :
  primary eng = Some p ->
  primary (choose_primary cfg up_ask down_ask eng) = Some p.
Proof. intros H. unfold choose_primary. rewrite H. exact H. Qed.

(** The DCA stage keeps the primary side, and leaves the ledger as it
    was or buys on the token of the primary side. *)
Lemma dca_stage_cases (cfg : StrategyConfig) (mkt : ActiveMarket)
    (up_ob down_ob : OrderBook) (up_ask down_ask : Q)
    (eng eng' : Engine) (L L2 : Ledger) :
  dca_stage cfg mkt up_ob down_ob up_ask down_ask eng L = (eng', L2) ->
  primary eng' = primary eng /\
  (L2 = L \/
   exists p ob note,
     primary eng = Some p /\
     L2 = _maybe_buy cfg mkt (token_of mkt p) ob (buy_chunk_usd cfg) note L).
Proof.
  unfold dca_stage.
  assert (Hk : forall p ob best,
             primary eng = Some p ->
             _dca_if_trigger cfg mkt p (token_of mkt p) ob best eng L
               = (eng', L2) ->
             primary eng' = primary eng /\
             (L2 = L \/
              exists p ob note,
                primary eng = Some p /\
                L2 = _maybe_buy cfg mkt (token_of mkt p) ob
                                (buy_chunk_usd cfg) note L)).
  { intros p ob best Hp. unfold _dca_if_trigger.
    destruct (Qle_bool _ _); [intros H; inversion H; subst; auto|].
    destruct (Qle_bool _ _); [|intros H; inversion H; subst; auto].
    destruct (_ <=? _)%Z; [|intros H; inversion H; subst; auto].
    intros H; inversion H; subst; clear H. simpl. split; [reflexivity|].
    right. exists p, ob, (side_note p). auto. }
  destruct (primary eng) as [[|]|] eqn:Hp.
  - apply (Hk UP); reflexivity.
  - apply (Hk DOWN); reflexivity.
  - intros H; inversion H; subst. auto.
Qed.

(** No buy lowers the cost basis of a position. *)
Lemma maybe_buy_cost_grows (cfg : StrategyConfig) (mkt : ActiveMarket)
    (token_id : string) (ob : OrderBook) (usd : Q) (note : string)
    (L : Ledger) (t : string) :
  cost_usd (position_of (acct L) t)
    <= cost_usd (position_of (acct (_maybe_buy cfg mkt token_id ob usd note L))
                             t).
Proof.
  destruct (maybe_buy_cases cfg mkt token_id ob usd note L)
    as [->|(sh & avg & spent & _ & _ & _ & _ & Hsp & _ & ->)]; [lra|].
  rewrite position_of_filled.
  destruct (decide (token_id = t)); simpl; lra.
Qed.

Lemma hedge_stage_bound (fuel : nat) (cfg : StrategyConfig)
    (mkt : ActiveMarket) (up_ob down_ob : OrderBook) (up_ask down_ask : Q)
    (p : Side) (L L' : Ledger) :
  hedge_stage fuel cfg mkt up_ob down_ob up_ask down_ask (Some p) L
    = Some L' ->
  L' = L \/
  side_cost mkt (opposite p) L' < side_cost mkt p L' + buy_chunk_usd cfg.
Proof.
  intros H.
  destruct (hedge_stage_inv _ _ _ _ _ _ _ _ _ _ H)
    as [->|[(Hp & _ & Hc)|(Hp & _ & Hc)]]; [now left| |];
    inversion Hp; subst p; apply hedge_chunks_bound in Hc; exact Hc.
Qed.

(** One tick in threshold mode leaves the position on the hedge side as
    it was, or leaves its cost below the primary cost plus one chunk. *)
Lemma step_hedge_bound (fuel : nat) (cfg : StrategyConfig)
    (mkt : ActiveMarket) (store : gmap string OrderBook)
    (eng eng' : Engine) (L L' : Ledger) (p : Side) :
  step fuel cfg threshold35 mkt store eng L = Some (eng', L') ->
  primary eng' = Some p ->
  position_of (acct L') (token_of mkt (opposite p))
    = position_of (acct L) (token_of mkt (opposite p)) \/
  side_cost mkt (opposite p) L' < side_cost mkt p L' + buy_chunk_usd cfg.
Proof.
  unfold step.
  destruct (best_ask _) as [up_ask|]; [|intros H; inversion H; now left].
  destruct (best_ask _) as [down_ask|]; [|intros H; inversion H; now left].
  destruct (best_bid _); [|intros H; inversion H; now left].
  destruct (best_bid _); [|intros H; inversion H; now left].
  intros H Hp.
  apply step_threshold35_inv in H as (L2 & Hd & Hh).
  rewrite Hp in Hh.
  apply dca_stage_cases in Hd as [Hprim Hd].
  apply hedge_stage_bound in Hh as [->|Hb]; [|now right].
  destruct Hd as [->|(p' & ob & note & Hp' & ->)]; [now left|].
  assert (p' = p) by congruence. subst p'.
  destruct (maybe_buy_cases cfg mkt (token_of mkt p) ob (buy_chunk_usd cfg)
              note L)
    as [->|(sh & avg & spent & _ & Husd & _ & _ & _ & _ & ->)]; [now left|].
  destruct (decide (token_of mkt p = token_of mkt (opposite p))) as [E|N].
  - right. unfold side_cost. rewrite <- E. lra.
  - left. rewrite position_of_filled. now rewrite decide_False.
Qed.

Lemma step_trails_preserved (fuel : nat) (cfg : StrategyConfig)
    (mkt : ActiveMarket) (store : gmap string OrderBook)
    (eng eng' : Engine) (L L' : Ledger) (p : Side) :
  step fuel cfg threshold35 mkt store eng L = Some (eng', L') ->
  primary eng' = Some p ->
  trails cfg mkt p L -> trails cfg mkt p L'.
Proof.
  intros Hstep Hp Hinv. unfold trails in *.
  destruct (step_hedge_bound _ _ _ _ _ _ _ _ _ Hstep Hp) as [Hsame|Hb];
    [|exact Hb].
  assert (Hgrow : side_cost mkt p L <= side_cost mkt p L').
  { refine (step_closed cfg
              (fun L0 => side_cost mkt p L <= side_cost mkt p L0)
              _ _ _ _ _ _ _ _ _ _ Hstep); [|lra].
    intros mkt0 t ob note L0 H0. unfold side_cost in *.
    pose proof (maybe_buy_cost_grows cfg mkt0 t ob (buy_chunk_usd cfg) note
                  L0 (token_of mkt p)). lra. }
  unfold side_cost in *. rewrite Hsame. lra.
Qed.

(** A tick keeps a primary side that is set, and buys nothing while
    none is. *)
Lemma step_primary (fuel : nat) (cfg : StrategyConfig)
    (mkt : ActiveMarket) (store : gmap string OrderBook)
    (eng eng' : Engine) (L L' : Ledger) :
  step fuel cfg threshold35 mkt store eng L = Some (eng', L') ->
  (forall p, primary eng = Some p -> primary eng' = Some p) /\
  (primary eng' = None -> L' = L).
Proof.
  unfold step.
  destruct (best_ask _) as [up_ask|]; [|intros H; inversion H; subst; auto].
  destruct (best_ask _) as [down_ask|]; [|intros H; inversion H; subst; auto].
  destruct (best_bid _); [|intros H; inversion H; subst; auto].
  destruct (best_bid _); [|intros H; inversion H; subst; auto].
  intros H. apply step_threshold35_inv in H as (L2 & Hd & Hh).
  apply dca_stage_cases in Hd as [Hprim Hd]. split.
  - intros p Hp. rewrite Hprim. now apply choose_primary_keeps.
  - intros Hnone. rewrite Hnone in Hh.
    destruct (hedge_stage_inv _ _ _ _ _ _ _ _ _ _ Hh)
      as [->|[(Hp & _)|(Hp & _)]]; [|discriminate..].
    destruct Hd as [->|(p' & _ & _ & Hp' & _)]; [reflexivity|congruence].
Qed.

Lemma market_run_trails (cfg : StrategyConfig) (mkt : ActiveMarket)
    (eng : Engine) (L : Ledger) :
  0 < buy_chunk_usd cfg ->
  market_run cfg mkt eng L ->
  match primary eng with
  | Some p => trails cfg mkt p L
  | None => trails cfg mkt UP L /\ trails cfg mkt DOWN L
  end.
Proof.
  intros Hchunk Hrun.
  induction Hrun as [L Hu Hd|fuel store eng L eng' L' Hrun IH Hstep]; simpl.
  - unfold trails. simpl. split; lra.
  - destruct (step_primary _ _ _ _ _ _ _ _ Hstep) as [Hkeep Hnone].
    destruct (primary eng') as [p|] eqn:Hp.
    + apply (step_trails_preserved _ _ _ _ _ _ _ _ _ Hstep Hp).
      destruct (primary eng) as [p0|] eqn:Hp0.
      * specialize (Hkeep _ eq_refl). now inversion Hkeep; subst.
      * destruct p; tauto.
    + rewrite (Hnone eq_refl).
      destruct (primary eng) as [p0|] eqn:Hp0; [|exact IH].
      specialize (Hkeep _ eq_refl). discriminate.
Qed.

(** C10, as the code has it.  A turn of the hedge loop runs to its buy
    only when the cost of the hedge position, plus [1e-9], is below the
    cost of the primary position.  So a tick in threshold mode with
    primary side [p] leaves
    the position on the opposite side as it was, or leaves its cost
    below the cost on [p] plus one chunk; a hedge cost that is below
    the primary cost plus one chunk before a tick is so after it; and
    with a positive chunk, in a market that starts with no cost on
    either token, the hedge cost is below the primary cost plus one
    chunk after every tick. *)
Theorem hedge_cost_within_one_chunk_of_primary :
  (forall (cfg : StrategyConfig) (mkt : ActiveMarket) (ptok htok : string)
          (hob : OrderBook) (v v' : HedgeVars),
      hedge_body cfg mkt ptok htok hob v = Some v' ->
      cost_usd (hedge_pos v) + hedge_eps < cost_usd (primary_pos v)) /\
  (forall (fuel : nat) (cfg : StrategyConfig) (mkt : ActiveMarket)
          (store : gmap string OrderBook) (eng eng' : Engine)
          (L L' : Ledger) (p : Side),
      step fuel cfg threshold35 mkt store eng L = Some (eng', L') ->
      primary eng' = Some p ->
      (position_of (acct L') (token_of mkt (opposite p))
         = position_of (acct L) (token_of mkt (opposite p)) \/
       side_cost mkt (opposite p) L'
         < side_cost mkt p L' + buy_chunk_usd cfg) /\
      (side_cost mkt (opposite p) L < side_cost mkt p L + buy_chunk_usd cfg ->
       side_cost mkt (opposite p) L'
         < side_cost mkt p L' + buy_chunk_usd cfg)) /\
  (forall (cfg : StrategyConfig) (mkt : ActiveMarket) (eng : Engine)
          (L : Ledger) (p : Side),
      0 < buy_chunk_usd cfg ->
      market_run cfg mkt eng L ->
      primary eng = Some p ->
      side_cost mkt (opposite p) L < side_cost mkt p L + buy_chunk_usd cfg).
Proof.
  split; [|split].
  - intros cfg mkt ptok htok hob v v' H.
    now destruct (hedge_body_inv _ _ _ _ _ _ _ H) as [Hlt _].
  - intros fuel cfg mkt store eng eng' L L' p Hstep Hp.
    split; [exact (step_hedge_bound _ _ _ _ _ _ _ _ _ Hstep Hp)|].
    exact (step_trails_preserved _ _ _ _ _ _ _ _ _ Hstep Hp).
  - intros cfg mkt eng L p Hchunk Hrun Hp.
    pose proof (market_run_trails cfg mkt eng L Hchunk Hrun) as H.
    now rewrite Hp in H.
Qed.

Lemma hedge_cost_within_one_chunk_of_primary_witness :
  exists (eng' : Engine) (L' : Ledger),
    step 5 default_cfg threshold35 example_market quarter_store
         (reset_for_new_market default_cfg) example_ledger = Some (eng', L') /\
    primary eng' = Some UP /\
    length (flog L') = 2%nat /\
    side_cost example_market DOWN L'
      < side_cost example_market UP L' + buy_chunk_usd default_cfg.
Proof.
  destruct (step 5 default_cfg threshold35 example_market quarter_store
                 (reset_for_new_market default_cfg) example_ledger)
    as [[eng' L']|] eqn:E; [|vm_compute in E; discriminate].
  assert (Hp : primary eng' = Some UP).
  { change (match Some (eng', L') with
            | Some x => primary (fst x)
            | None => None
            end = Some UP).
    rewrite <- E. vm_compute. reflexivity. }
  assert (Hf : length (flog L') = 2%nat).
  { change (match Some (eng', L') with
            | Some x => length (flog (snd x))
            | None => 0%nat
            end = 2%nat).
    rewrite <- E. vm_compute. reflexivity. }
  exists eng', L'. split; [reflexivity|]. split; [exact Hp|].
  split; [exact Hf|].
  apply (proj2 (proj2 hedge_cost_within_one_chunk_of_primary)
           default_cfg example_market eng' L' UP).
  - reflexivity.
  - apply (run_tick default_cfg example_market 5%nat quarter_store
                    (reset_for_new_market default_cfg) example_ledger);
      [|exact E].
    apply run_start; reflexivity.
  - exact Hp.
Defined.

(** C10, as the specification words it, fails.  The engine is reset when
    a market is bound, the account is not: on an account that comes to
    the market with 12 UP shares bought for 3.0, with UP offered at 0.5
    and DOWN at 0.25, the tick makes DOWN the primary side and buys one
    chunk of it; the hedge call returns at once, the ask of UP being
    above the entry price.  After this single tick the hedge side has
    cost 3.0, the primary side 1.0, and 3.0 is not below 1.0 plus one
    chunk. *)
Lemma hedge_cost_exceeds_primary_on_carried_position :
  exists (eng' : Engine) (L' : Ledger),
    step 5 default_cfg threshold35 example_market lopsided_store
         (reset_for_new_market default_cfg) carried_ledger = Some (eng', L') /\
    primary eng' = Some DOWN /\
    side_cost example_market DOWN L' == 1 /\
    side_cost example_market UP L' == 3 /\
    ~ (side_cost example_market UP L'
         < side_cost example_market DOWN L' + buy_chunk_usd default_cfg).
Proof.
  destruct (step 5 default_cfg threshold35 example_market lopsided_store
                 (reset_for_new_market default_cfg) carried_ledger)
    as [[eng' L']|] eqn:E; [|vm_compute in E; discriminate].
  assert (Hp : primary eng' = Some DOWN).
  { change (match Some (eng', L') with
            | Some x => primary (fst x)
            | None => None
            end = Some DOWN).
    rewrite <- E. vm_compute. reflexivity. }
  assert (Hd : side_cost example_market DOWN L' == 1).
  { change (match Some (eng', L') with
            | Some x => side_cost example_market DOWN (snd x)
            | None => 0
            end == 1).
    rewrite <- E. vm_compute. reflexivity. }
  assert (Hu : side_cost example_market UP L' == 3).
  { change (match Some (eng', L') with
            | Some x => side_cost example_market UP (snd x)
            | None => 0
            end == 3).
    rewrite <- E. vm_compute. reflexivity. }
  exists eng', L'. split; [reflexivity|]. split; [exact Hp|].
  split; [exact Hd|]. split; [exact Hu|].
  rewrite Hd, Hu. simpl. lra.
Qed.

(** *** The loop ends when every buy goes through *)

Lemma inject_Z_succ (k : nat) :
  inject_Z (Z.of_nat (S k)) == inject_Z (Z.of_nat k) + 1.
Proof.
  rewrite Nat2Z.inj_succ. unfold Z.succ. now rewrite inject_Z_plus.
Qed.

(** X20.  With [s] what one chunk costs on the hedge book: when the
    primary cost exceeds the hedge cost by at most [k * s], and the cash
    covers that gap besides one chunk and the reserve, the hedge loop is
    left within [k] turns. *)
Lemma hedge_loop_ends_with_cash (cfg : StrategyConfig) (mkt : ActiveMarket)
    (ptok htok : string) (hob : OrderBook) (k : nat) :
  forall v : HedgeVars,
    in_step ptok htok v ->
    cost_usd (primary_pos v) - cost_usd (hedge_pos v)
      <= inject_Z (Z.of_nat k)
         * snd (consume_asks_for_buy hob (buy_chunk_usd cfg)) ->
    buy_chunk_usd cfg + require_free_cash cfg
      + (cost_usd (primary_pos v) - cost_usd (hedge_pos v))
      <= cash (acct (ledger v)) ->
    exists v' : HedgeVars,
      hedge_loop cfg mkt ptok htok hob k v = Some v'.
Proof.
  induction k as [|k IH]; intros v Hv Hk Hcash;
    destruct (hedge_body cfg mkt ptok htok hob v) as [v1|] eqn:E;
    try (exists v; simpl; now rewrite E).
  - exfalso.
    destruct (hedge_body_inv _ _ _ _ _ _ _ E) as (Hlt & _).
    pose proof hedge_eps_pos. simpl in Hk.
    assert (H0 : inject_Z 0 * snd (consume_asks_for_buy hob (buy_chunk_usd cfg))
                 == 0) by (unfold inject_Z; ring).
    rewrite H0 in Hk. lra.
  - simpl. rewrite E.
    destruct (hedge_body_inv _ _ _ _ _ _ _ E)
      as (Hlt & _ & es & ea & esp & Ec & Hes & Hesp & _ & Hv1).
    pose proof hedge_eps_pos as Heps.
    destruct Hv as [Hp Hh].
    assert (Hne : htok <> ptok).
    { intros ->. rewrite Hp, Hh in Hlt. lra. }
    assert (Hfill : _maybe_buy cfg mkt htok hob (buy_chunk_usd cfg)
                      "hedge_chunk_sumcap_ok" (ledger v)
                    = filled_ledger mkt htok "hedge_chunk_sumcap_ok"
                                    es ea esp (ledger v)).
    { apply maybe_buy_filled; [exact Ec| |exact Hes]. lra. }
    rewrite Ec in Hk. simpl in Hk. rewrite inject_Z_succ in Hk.
    subst v1. apply IH; [split; reflexivity| |];
      cbn [primary_pos hedge_pos ledger];
      rewrite Hfill, !position_of_filled;
      rewrite (decide_True (P := htok = htok)) by reflexivity;
      rewrite (decide_False (P := htok = ptok)) by exact Hne;
      rewrite <- Hp, <- Hh; rewrite ?Ec; simpl; lra.
Qed.

Lemma hedge_loop_ends_with_cash_example :
  exists v' : HedgeVars,
    hedge_loop default_cfg example_market "up" "down" quarter_book 1
               {| primary_pos := mkPosition 4 1;
                  hedge_pos := Position0;
                  ledger := {| acct := {| symbol := "BTC"; cash := 99;
                                          positions :=
                                            <["up"%string := mkPosition 4 1]> ∅ |};
                               flog := [] |} |}
      = Some v' /\
    length (flog (ledger v')) = 1%nat.
Proof.
  eexists. split; [vm_compute; reflexivity|reflexivity].
Qed.

(* ===================================================================== *)
(** * Further properties of the code *)
(* ===================================================================== *)

(** ** The order book store *)

Lemma insert_desc_Forall (P : Level -> Prop) (x : Level) (l : list Level) :
  P x -> Forall P l -> Forall P (insert_desc x l).
Proof.
  intros Hx Hl. induction Hl as [|y ys Hy Hys IH]; simpl.
  - repeat constructor. exact Hx.
  - destruct (Qle_bool (fst y) (fst x)); repeat constructor; assumption.
Qed.

Lemma insert_desc_sorted (x : Level) (l : list Level) :
  StronglySorted desc_prices l -> StronglySorted desc_prices (insert_desc x l).
Proof.
  induction 1 as [|y ys Hs IH Hall]; simpl.
  - repeat constructor.
  - destruct (Qle_bool_spec (fst y) (fst x)) as [Hle|Hlt].
    + constructor; [constructor; assumption|].
      constructor; [exact Hle|].
      eapply Forall_impl; [exact Hall|].
      intros z Hz. unfold desc_prices in *. lra.
    + constructor; [exact IH|].
      apply insert_desc_Forall; [|exact Hall].
      unfold desc_prices. lra.
Qed.

Lemma sort_desc_sorted (l : list Level) :
  StronglySorted desc_prices (sort_desc l).
Proof.
  induction l as [|x xs IH]; simpl.
  - constructor.
  - apply insert_desc_sorted, IH.
Qed.

Lemma insert_desc_perm (x : Level) (l : list Level) :
  Permutation (insert_desc x l) (x :: l).
Proof.
  induction l as [|y ys IH]; simpl; [reflexivity|].
  destruct (Qle_bool (fst y) (fst x)); [reflexivity|].
  rewrite IH. apply perm_swap.
Qed.

Lemma sort_desc_perm (l : list Level) : Permutation (sort_desc l) l.
Proof.
  induction l as [|x xs IH]; simpl; [reflexivity|].
  rewrite insert_desc_perm. now constructor.
Qed.

(** The head of a list sorted by a relation is related to every
    element behind it. *)
Lemma sorted_head_extremal (R : Level -> Level -> Prop) (x : Level)
    (l : list Level) :
  StronglySorted R (x :: l) -> Forall (R x) l.
Proof. intros H. now inversion H. Qed.

Lemma store_get_update (store : gmap string OrderBook) (t : string)
    (raw_bids raw_asks : list RawLevel) :
  store_get (update_from_snapshot store t raw_bids raw_asks) t
    = snapshot_book raw_bids raw_asks.
Proof.
  unfold store_get, update_from_snapshot. now rewrite lookup_insert_eq.
Qed.

(** X1.  After a snapshot is stored for a token, the book read back for
    it holds exactly the raw levels that have both a numeric price and a
    numeric size, bids and asks alike; the best bid is at least the
    price of every bid level, the best ask at most the price of every
    ask level, and a side has no best quote only when it has no
    level. *)
Theorem stored_best_quotes_are_extremal :
  forall (store : gmap string OrderBook) (t : string)
         (raw_bids raw_asks : list RawLevel),
    let ob := store_get (update_from_snapshot store t raw_bids raw_asks) t in
    Permutation (bids ob) (parse_levels raw_bids) /\
    Permutation (asks ob) (parse_levels raw_asks) /\
    match best_bid ob with
    | Some p => Forall (fun lv => fst lv <= p) (bids ob)
    | None => parse_levels raw_bids = []
    end /\
    match best_ask ob with
    | Some p => Forall (fun lv => p <= fst lv) (asks ob)
    | None => parse_levels raw_asks = []
    end.
Proof.
  intros store t raw_bids raw_asks. simpl. rewrite store_get_update.
  split; [apply sort_desc_perm|]. split; [apply sort_asc_perm|].
  unfold best_bid, best_ask, snapshot_book. simpl. split.
  - pose proof (sort_desc_sorted (parse_levels raw_bids)) as Hs.
    pose proof (sort_desc_perm (parse_levels raw_bids)) as Hp.
    destruct (sort_desc (parse_levels raw_bids)) as [|[p s] rest].
    + now apply Permutation_nil in Hp.
    + constructor; [simpl; lra|].
      exact (sorted_head_extremal _ _ _ Hs).
  - pose proof (sort_asc_sorted (parse_levels raw_asks)) as Hs.
    pose proof (sort_asc_perm (parse_levels raw_asks)) as Hp.
    destruct (sort_asc (parse_levels raw_asks)) as [|[p s] rest].
    + now apply Permutation_nil in Hp.
    + constructor; [simpl; lra|].
      exact (sorted_head_extremal _ _ _ Hs).
Qed.

(** X2.  The store answers with an empty book, which has no best bid and
    no best ask, for a token it has no snapshot of; a snapshot for one
    token leaves the book of every other token as it was; and a second
    snapshot for a token replaces the first one whole. *)
Theorem store_replaces_whole_books :
  (forall t : string,
      store_get ∅ t = empty_book /\
      best_bid (store_get ∅ t) = None /\ best_ask (store_get ∅ t) = None) /\
  (forall (store : gmap string OrderBook) (t t' : string)
          (raw_bids raw_asks : list RawLevel),
      t <> t' ->
      store_get (update_from_snapshot store t raw_bids raw_asks) t'
        = store_get store t') /\
  (forall (store : gmap string OrderBook) (t : string)
          (b1 a1 b2 a2 : list RawLevel),
      update_from_snapshot (update_from_snapshot store t b1 a1) t b2 a2
        = update_from_snapshot store t b2 a2).
Proof.
  split; [|split].
  - intros t. unfold store_get. rewrite lookup_empty. now simpl.
  - intros store t t' rb ra Hne. unfold store_get, update_from_snapshot.
    now rewrite lookup_insert_ne.
  - intros store t b1 a1 b2 a2. unfold update_from_snapshot.
    apply insert_insert_eq.
Qed.

Lemma store_replaces_whole_books_witness :
  store_get (update_from_snapshot ∅ "up" example_raw example_raw) "down"
    = empty_book.
Proof.
  rewrite (proj1 (proj2 store_replaces_whole_books) ∅ "up" "down"
             example_raw example_raw) by discriminate.
  exact (proj1 (proj1 store_replaces_whole_books "down")).
Defined.

Lemma at_price_insert_asc (p : Q) (x : Level) (l : list Level) :
  at_price p (insert_asc x l) = at_price p (x :: l).
Proof.
  induction l as [|y ys IH]; [reflexivity|]. simpl insert_asc.
  destruct (Qle_bool_spec (fst x) (fst y)) as [Hle|Hlt]; [reflexivity|].
  unfold at_price in *. simpl in *. rewrite IH.
  destruct (Qeq_bool (fst x) p) eqn:Ex; [|reflexivity].
  destruct (Qeq_bool (fst y) p) eqn:Ey; [|reflexivity].
  apply Qeq_bool_iff in Ex, Ey. exfalso. lra.
Qed.

Lemma at_price_insert_desc (p : Q) (x : Level) (l : list Level) :
  at_price p (insert_desc x l) = at_price p (x :: l).
Proof.
  induction l as [|y ys IH]; [reflexivity|]. simpl insert_desc.
  destruct (Qle_bool_spec (fst y) (fst x)) as [Hle|Hlt]; [reflexivity|].
  unfold at_price in *. simpl in *. rewrite IH.
  destruct (Qeq_bool (fst x) p) eqn:Ex; [|reflexivity].
  destruct (Qeq_bool (fst y) p) eqn:Ey; [|reflexivity].
  apply Qeq_bool_iff in Ex, Ey. exfalso. lra.
Qed.

(** X3.  Both sorts of a snapshot are stable: in the stored book the
    levels that stand at one price, among the bids and among the asks,
    keep the order in which the snapshot listed them. *)
Theorem snapshot_sort_is_stable :
  forall (raw_bids raw_asks : list RawLevel) (p : Q),
    at_price p (bids (snapshot_book raw_bids raw_asks))
      = at_price p (parse_levels raw_bids) /\
    at_price p (asks (snapshot_book raw_bids raw_asks))
      = at_price p (parse_levels raw_asks).
Proof.
  intros raw_bids raw_asks p. unfold snapshot_book. simpl. split.
  - induction (parse_levels raw_bids) as [|x xs IH]; [reflexivity|].
    simpl. rewrite at_price_insert_desc. unfold at_price in *. simpl.
    now rewrite IH.
  - induction (parse_levels raw_asks) as [|x xs IH]; [reflexivity|].
    simpl. rewrite at_price_insert_asc. unfold at_price in *. simpl.
    now rewrite IH.
Qed.

(** ** The walk of the asks *)

Lemma consume_loop_fills_or_spends (lv : list Level) :
  Forall level_ok lv ->
  forall rem sh sp : Q,
    let r := consume_loop lv rem sh sp in
    (rem - (snd r - sp) <= budget_eps \/ fst r - sh == total_size lv) /\
    fst r - sh <= total_size lv /\ 0 <= total_size lv.
Proof.
  induction 1 as [|[price size] rest [Hprice Hsize] Hrest IH];
    intros rem sh sp; simpl in *.
  - split; [right; ring|]. split; lra.
  - pose proof budget_eps_pos as Heps.
    assert (Htot : 0 <= total_size rest) by (apply (IH 0 0 0)).
    destruct (Qle_bool_spec rem budget_eps) as [Hex|Hrem]; simpl.
    { split; [left; lra|]. split; lra. }
    destruct (Qle_bool_spec price 0) as [|_]; [exfalso; lra|].
    set (m := Qmin size (rem / price)).
    assert (Hm0 : 0 <= m).
    { apply Q.min_glb; [assumption|].
      apply Qlt_le_weak, Qdiv_pos; [lra|assumption]. }
    assert (Hms : m <= size) by apply Q.le_min_l.
    destruct (Qle_bool_spec m 0) as [Hm|Hm].
    + assert (Hz : size == 0).
      { destruct (Qmin_cases size (rem / price)) as [[_ E]|[Hlt E]];
          fold m in E; [lra|].
        assert (0 < rem / price) by (apply Qdiv_pos; lra). lra. }
      destruct (IH rem sh sp) as ([I|I] & I2 & _).
      * split; [left; exact I|]. split; lra.
      * split; [right; lra|]. split; lra.
    + destruct (Qmin_cases size (rem / price)) as [[Hle E]|[Hlt E]];
        fold m in E.
      * destruct (IH (rem - m * price) (sh + m) (sp + m * price))
          as ([I|I] & I2 & _).
        -- split; [left; lra|]. split; lra.
        -- split; [right; lra|]. split; lra.
      * assert (Hz : rem - m * price == 0).
        { rewrite E. field. lra. }
        rewrite consume_loop_exhausted by lra. simpl.
        split; [left; lra|]. split; lra.
Qed.

(** X5.  On asks of the data model the walk stops short of the budget
    only for want of depth: either what is left of the budget after the
    buy is within [1e-9] of zero, or the shares bought are all the
    shares the asks offer.  The shares bought never exceed the shares
    offered. *)
Theorem walk_spends_the_budget_or_takes_the_book :
  forall (ob : OrderBook) (usd : Q),
    Forall level_ok (asks ob) ->
    let '(sh, _, spent) := consume_asks_for_buy ob usd in
    (usd - spent <= budget_eps \/ sh == total_size (asks ob)) /\
    sh <= total_size (asks ob).
Proof.
  intros ob usd Hok. unfold consume_asks_for_buy.
  pose proof (consume_loop_fills_or_spends (asks ob) Hok usd 0 0) as H.
  destruct (consume_loop (asks ob) usd 0 0) as [sh spent]. simpl in H.
  destruct H as ([H|H] & H2 & _).
  - split; [left; lra|lra].
  - split; [right; lra|lra].
Qed.

Lemma walk_spends_the_budget_or_takes_the_book_witness :
  fst (fst (consume_asks_for_buy example_book 5)) == 15.
Proof.
  pose proof (walk_spends_the_budget_or_takes_the_book example_book 5) as H.
  destruct (consume_asks_for_buy example_book 5) as [[sh avg] spent] eqn:E.
  simpl.
  assert (Hok : Forall level_ok (asks example_book)).
  { repeat (constructor; [split; simpl; lra|]). constructor. }
  destruct (H Hok) as [[Hl|Hr] _].
  - exfalso. vm_compute in E. inversion E; subst.
    apply Qle_bool_iff in Hl. vm_compute in Hl. discriminate.
  - rewrite Hr. vm_compute. reflexivity.
Defined.

(** ** The fills log and the ledger *)

Lemma sum_usd_snoc (fs : list Fill) (f : Fill) :
  sum_usd (fs ++ [f]) == sum_usd fs + fill_usd f.
Proof.
  induction fs as [|g gs IH]; simpl; [ring|]. rewrite IH. ring.
Qed.

Lemma shares_on_snoc (t : string) (fs : list Fill) (f : Fill) :
  shares_on t (fs ++ [f])
    == shares_on t fs + (if decide (fill_token_id f = t)
                         then fill_shares f else 0).
Proof.
  induction fs as [|g gs IH]; simpl.
  - destruct (decide _); ring.
  - destruct (decide (fill_token_id g = t)); rewrite IH; ring.
Qed.

Lemma usd_on_snoc (t : string) (fs : list Fill) (f : Fill) :
  usd_on t (fs ++ [f])
    == usd_on t fs + (if decide (fill_token_id f = t)
                      then fill_usd f else 0).
Proof.
  induction fs as [|g gs IH]; simpl.
  - destruct (decide _); ring.
  - destruct (decide (fill_token_id g = t)); rewrite IH; ring.
Qed.

Lemma consume_avg (ob : OrderBook) (usd sh avg spent : Q) :
  consume_asks_for_buy ob usd = (sh, avg, spent) ->
  0 < sh -> avg * sh == spent.
Proof.
  unfold consume_asks_for_buy.
  destruct (consume_loop (asks ob) usd 0 0) as [sh' spent'].
  intros E Hsh. inversion E; subst.
  apply Qlt_bool_true in Hsh as Ht. rewrite Ht. field. lra.
Qed.

Lemma maybe_buy_reconciles (cfg : StrategyConfig) (L0 : Ledger)
    (mkt : ActiveMarket) (token_id : string) (ob : OrderBook)
    (note : string) (L : Ledger) :
  (exists new, reconciles L0 L new /\ Forall (fill_ok cfg) new) ->
  exists new,
    reconciles L0 (_maybe_buy cfg mkt token_id ob (buy_chunk_usd cfg) note L)
               new /\
    Forall (fill_ok cfg) new.
Proof.
  intros (new & (Hlog & Hcash & Hpos) & Hok).
  destruct (maybe_buy_cases cfg mkt token_id ob (buy_chunk_usd cfg) note L)
    as [->|(sh & avg & spent & Ec & Husd & _ & Hsh & Hsp & Hle & ->)].
  - exists new. repeat split; try assumption; apply Hpos.
  - eexists (new ++ [_]). split; [split; [|split]|].
    + simpl. rewrite Hlog, <- app_assoc. reflexivity.
    + simpl. rewrite sum_usd_snoc. simpl. lra.
    + intros t. rewrite position_of_filled, shares_on_snoc, usd_on_snoc.
      destruct (Hpos t) as [Hs Hc]. simpl.
      destruct (decide (token_id = t)); simpl; split; lra.
    + apply Forall_app. split; [exact Hok|].
      constructor; [|constructor]. unfold fill_ok. simpl.
      repeat split; try assumption. exact (consume_avg _ _ _ _ _ Ec Hsh).
Qed.

Lemma step_reconciles (fuel : nat) (cfg : StrategyConfig) (mode : Mode)
    (mkt : ActiveMarket) (store : gmap string OrderBook)
    (eng eng' : Engine) (L L' : Ledger) :
  step fuel cfg mode mkt store eng L = Some (eng', L') ->
  exists new, reconciles L L' new /\ Forall (fill_ok cfg) new.
Proof.
  intros Hstep.
  refine (step_closed cfg
            (fun L1 => exists new,
                 reconciles L L1 new /\ Forall (fill_ok cfg) new)
            _ _ _ _ _ _ _ _ _ _ Hstep).
  - intros mkt0 t ob note L1. apply maybe_buy_reconciles.
  - exists []. split; [|constructor]. unfold reconciles. simpl.
    rewrite app_nil_r. split; [reflexivity|]. split; [ring|].
    intros t. split; ring.
Qed.



(** X7.  A tick only appends to the fills log, in either mode, and
    every fill it appends is a buy of a positive number of shares for a
    positive amount: a simulated buy that gets no share, or costs
    nothing, is not logged. *)
Theorem tick_fills_are_well_formed :
  forall (fuel : nat) (cfg : StrategyConfig) (mode : Mode)
         (mkt : ActiveMarket) (store : gmap string OrderBook)
         (eng eng' : Engine) (L L' : Ledger),
    step fuel cfg mode mkt store eng L = Some (eng', L') ->
    exists new : list Fill,
      flog L' = flog L ++ new /\
      Forall (fun f =>
                fill_side f = "BUY"%string /\
                0 < fill_shares f /\
                0 < fill_usd f) new.
Proof.
  intros fuel cfg mode mkt store eng eng' L L' Hstep.
  destruct (step_reconciles _ _ _ _ _ _ _ _ _ Hstep)
    as (new & (Hlog & _) & Hok).
  exists new. split; [exact Hlog|].
  eapply Forall_impl; [exact Hok|].
  intros f (Hside & Hsh & Husd & _). auto.
Qed.

Lemma tick_fills_are_well_formed_witness :
  exists (eng' : Engine) (L' : Ledger) (new : list Fill),
    step 5 default_cfg threshold35 example_market quarter_store
         (reset_for_new_market default_cfg) example_ledger = Some (eng', L') /\
    flog L' = flog example_ledger ++ new /\
    length new = 2%nat /\
    Forall (fun f => fill_side f = "BUY"%string /\
                     0 < fill_shares f /\ 0 < fill_usd f) new.
Proof.
  destruct (step 5 default_cfg threshold35 example_market quarter_store
                 (reset_for_new_market default_cfg) example_ledger)
    as [[eng' L']|] eqn:E; [|vm_compute in E; discriminate].
  assert (Hf : length (flog L') = 2%nat).
  { change (match Some (eng', L') with
            | Some x => length (flog (snd x))
            | None => 0%nat
            end = 2%nat).
    rewrite <- E. vm_compute. reflexivity. }
  destruct (tick_fills_are_well_formed _ _ _ _ _ _ _ _ _ E)
    as (new & Hlog & Hok).
  exists eng', L', new. split; [reflexivity|]. split; [exact Hlog|].
  split; [|exact Hok].
  rewrite Hlog in Hf. simpl in Hf. exact Hf.
Defined.

(** ** The per-side spend cap *)









(** ** The DCA ladder *)

(** What [_dca_if_trigger] does to the counter and the threshold of its
    side: nothing, or, the counter being at most [dca_levels], the
    counter goes up by one and the threshold is lowered once. *)
Lemma dca_if_trigger_state (cfg : StrategyConfig) (mkt : ActiveMarket)
    (side_label : Side) (token_id : string) (ob : OrderBook) (best : Q)
    (eng : Engine) (L : Ledger) (s : Side) :
  let eng' := fst (_dca_if_trigger cfg mkt side_label token_id ob best eng L) in
  primary eng' = primary eng /\
  ((side_get (dca_buys_done eng') s = side_get (dca_buys_done eng) s /\
    side_get (next_dca_threshold eng') s
      = side_get (next_dca_threshold eng) s) \/
   ((side_get (dca_buys_done eng) s <= dca_levels cfg)%Z /\
    side_get (dca_buys_done eng') s
      = (side_get (dca_buys_done eng) s + 1)%Z /\
    side_get (next_dca_threshold eng') s
      = lowered cfg (side_get (next_dca_threshold eng) s))).
Proof.
  unfold _dca_if_trigger.
  destruct (Qle_bool _ _); [simpl; auto|].
  destruct (Qle_bool _ _); [|simpl; auto].
  destruct (Z.leb_spec (side_get (dca_buys_done eng) side_label)
                       (dca_levels cfg)) as [Hle|]; [|simpl; auto].
  simpl. split; [reflexivity|]. rewrite !side_get_set.
  destruct (decide (side_label = s)) as [->|]; [right|left]; auto.
Qed.

Lemma step_dca_state (fuel : nat) (cfg : StrategyConfig) (mode : Mode)
    (mkt : ActiveMarket) (store : gmap string OrderBook)
    (eng eng' : Engine) (L L' : Ledger) (s : Side) :
  step fuel cfg mode mkt store eng L = Some (eng', L') ->
  (side_get (dca_buys_done eng') s = side_get (dca_buys_done eng) s /\
   side_get (next_dca_threshold eng') s
     = side_get (next_dca_threshold eng) s) \/
  ((side_get (dca_buys_done eng) s <= dca_levels cfg)%Z /\
   side_get (dca_buys_done eng') s = (side_get (dca_buys_done eng) s + 1)%Z /\
   side_get (next_dca_threshold eng') s
     = lowered cfg (side_get (next_dca_threshold eng) s)).
Proof.
  unfold step.
  destruct (best_ask _) as [up_ask|]; [|intros H; inversion H; now left].
  destruct (best_ask _) as [down_ask|]; [|intros H; inversion H; now left].
  destruct (best_bid _); [|intros H; inversion H; now left].
  destruct (best_bid _); [|intros H; inversion H; now left].
  destruct mode; [|intros H; inversion H; now left].
  intros H. apply step_threshold35_inv in H as (L2 & Hd & _).
  apply (f_equal fst) in Hd. simpl in Hd. subst eng'.
  destruct (choose_primary_state cfg up_ask down_ask eng) as [Ed Et].
  rewrite <- Ed, <- Et.
  set (eng1 := choose_primary cfg up_ask down_ask eng).
  unfold dca_stage. destruct (primary eng1) as [[|]|]; [| |now left].
  - apply (dca_if_trigger_state cfg mkt UP).
  - apply (dca_if_trigger_state cfg mkt DOWN).
Qed.

(** A tick in threshold mode on which a side is not the primary side,
    or fails one of the three guards of [_dca_if_trigger], leaves the
    counter and the threshold of that side as they were. *)
Lemma step_threshold_idle (fuel : nat) (cfg : StrategyConfig)
    (mkt : ActiveMarket) (store : gmap string OrderBook)
    (eng eng' : Engine) (L L' : Ledger) (s : Side) (up_ask down_ask : Q) :
  step fuel cfg threshold35 mkt store eng L = Some (eng', L') ->
  best_ask (store_get store (up_token mkt)) = Some up_ask ->
  best_ask (store_get store (down_token mkt)) = Some down_ask ->
  primary (choose_primary cfg up_ask down_ask eng) <> Some s \/
  max_side_spend_usd cfg <= cost_usd (position_of (acct L) (token_of mkt s)) \/
  side_get (next_dca_threshold eng) s
    < match s with UP => up_ask | DOWN => down_ask end \/
  (dca_levels cfg < side_get (dca_buys_done eng) s)%Z ->
  side_get (dca_buys_done eng') s = side_get (dca_buys_done eng) s /\
  side_get (next_dca_threshold eng') s = side_get (next_dca_threshold eng) s.
Proof.
  intros Hstep Hua Hda Hidle.
  unfold step in Hstep. rewrite Hua, Hda in Hstep.
  destruct (best_bid _); [|inversion Hstep; now subst].
  destruct (best_bid _); [|inversion Hstep; now subst].
  apply step_threshold35_inv in Hstep as (L2 & Hd & _).
  apply (f_equal fst) in Hd. simpl in Hd. subst eng'.
  destruct (choose_primary_state cfg up_ask down_ask eng) as [Ed Et].
  set (eng1 := choose_primary cfg up_ask down_ask eng) in *.
  rewrite <- Ed, <- Et. rewrite <- Ed, <- Et in Hidle.
  unfold dca_stage.
  destruct (primary eng1) as [p|] eqn:Hp; [|destruct s; auto].
  destruct (decide (p = s)) as [->|Hne].
  - destruct Hidle as [H|H]; [congruence|].
    destruct s; cbn [token_of] in H;
      [rewrite (dca_if_trigger_idle cfg mkt UP _ _ _ eng1 L H)
      |rewrite (dca_if_trigger_idle cfg mkt DOWN _ _ _ eng1 L H)]; auto.
  - pose proof (dca_if_trigger_state cfg mkt p (token_of mkt p)
                  (store_get store (token_of mkt p))
                  (match p with UP => up_ask | DOWN => down_ask end)
                  eng1 L s) as Hst.
    assert (Hother :
              side_get (dca_buys_done
                          (fst (_dca_if_trigger cfg mkt p (token_of mkt p)
                                  (store_get store (token_of mkt p))
                                  (match p with
                                   | UP => up_ask | DOWN => down_ask end)
                                  eng1 L))) s
                = side_get (dca_buys_done eng1) s /\
              side_get (next_dca_threshold
                          (fst (_dca_if_trigger cfg mkt p (token_of mkt p)
                                  (store_get store (token_of mkt p))
                                  (match p with
                                   | UP => up_ask | DOWN => down_ask end)
                                  eng1 L))) s
                = side_get (next_dca_threshold eng1) s).
    { unfold _dca_if_trigger.
      destruct (Qle_bool _ _); [auto|].
      destruct (Qle_bool _ _); [|auto].
      destruct (_ <=? _)%Z; [|auto].
      simpl. rewrite !side_get_set. now rewrite !decide_False by exact Hne. }
    destruct p; exact Hother.
Qed.

Lemma ticks_in_market (fuel : nat) (cfg : StrategyConfig) (mode : Mode)
    (mkt : ActiveMarket) (stores : list (gmap string OrderBook)) :
  forall (eng eng' : Engine) (L L' : Ledger),
    in_market cfg mode mkt eng ->
    ticks fuel cfg mode mkt stores eng L = Some (eng', L') ->
    in_market cfg mode mkt eng'.
Proof.
  induction stores as [|store later IH]; intros eng eng' L L' Hin H;
    simpl in H.
  - now inversion H; subst.
  - destruct (step fuel cfg mode mkt store eng L) as [[eng1 L1]|] eqn:E;
      [|discriminate].
    apply (IH eng1 eng' L1 L'); [|exact H].
    exact (in_market_step _ _ _ _ _ _ _ _ _ Hin E).
Qed.

(** X9.  Within one market the DCA counter of a side counts the
    triggers on it.  It starts at 0 and never exceeds [dca_levels + 1]
    (it stays 0 when [dca_levels] is negative), and the threshold stored
    for the side is the entry price lowered by the DCA step, clamped to
    [0.01, 0.99], once per trigger counted.  A tick leaves counter and
    threshold as they were, or adds one to the counter and lowers the
    threshold once; in threshold mode it does the latter when the side
    is the primary side, its cost is below the cap, its ask is at or
    below the threshold and the counter is at most [dca_levels], and
    the former otherwise. *)
Theorem dca_counter_and_threshold_follow_the_ladder :
  forall (cfg : StrategyConfig) (mode : Mode) (mkt : ActiveMarket)
         (eng : Engine) (s : Side),
    in_market cfg mode mkt eng ->
    ((0 <= side_get (dca_buys_done eng) s)%Z /\
     (side_get (dca_buys_done eng) s <= Z.max 0 (dca_levels cfg + 1))%Z /\
     side_get (next_dca_threshold eng) s
       = ladder cfg (Z.to_nat (side_get (dca_buys_done eng) s))) /\
    (forall fuel store L eng' L',
        step fuel cfg mode mkt store eng L = Some (eng', L') ->
        (side_get (dca_buys_done eng') s = side_get (dca_buys_done eng) s /\
         side_get (next_dca_threshold eng') s
           = side_get (next_dca_threshold eng) s) \/
        ((side_get (dca_buys_done eng) s <= dca_levels cfg)%Z /\
         side_get (dca_buys_done eng') s
           = (side_get (dca_buys_done eng) s + 1)%Z /\
         side_get (next_dca_threshold eng') s
           = ladder cfg (S (Z.to_nat (side_get (dca_buys_done eng) s))))) /\
    (forall fuel store L eng' L' up_ask down_ask,
        step fuel cfg threshold35 mkt store eng L = Some (eng', L') ->
        best_ask (store_get store (up_token mkt)) = Some up_ask ->
        best_ask (store_get store (down_token mkt)) = Some down_ask ->
        (is_Some (best_bid (store_get store (up_token mkt))) ->
         is_Some (best_bid (store_get store (down_token mkt))) ->
         primary (choose_primary cfg up_ask down_ask eng) = Some s ->
         cost_usd (position_of (acct L) (token_of mkt s))
           < max_side_spend_usd cfg ->
         match s with UP => up_ask | DOWN => down_ask end
           <= side_get (next_dca_threshold eng) s ->
         (side_get (dca_buys_done eng) s <= dca_levels cfg)%Z ->
         side_get (dca_buys_done eng') s
           = (side_get (dca_buys_done eng) s + 1)%Z) /\
        (primary (choose_primary cfg up_ask down_ask eng) <> Some s \/
         max_side_spend_usd cfg
           <= cost_usd (position_of (acct L) (token_of mkt s)) \/
         side_get (next_dca_threshold eng) s
           < match s with UP => up_ask | DOWN => down_ask end \/
         (dca_levels cfg < side_get (dca_buys_done eng) s)%Z ->
         side_get (dca_buys_done eng') s = side_get (dca_buys_done eng) s)).
Proof.
  intros cfg mode mkt eng s Hin.
  assert (Hinv : (0 <= side_get (dca_buys_done eng) s)%Z /\
                 (side_get (dca_buys_done eng) s
                    <= Z.max 0 (dca_levels cfg + 1))%Z /\
                 side_get (next_dca_threshold eng) s
                   = ladder cfg (Z.to_nat (side_get (dca_buys_done eng) s))).
  { induction Hin as [|fuel store eng L eng' L' Hin IH Hs].
    - destruct s; simpl; repeat split; try lia; reflexivity.
    - destruct IH as (H0 & Hmax & Hthr).
      destruct (step_dca_state _ _ _ _ _ _ _ _ _ s Hs)
        as [[Ed Et]|(Hle & Ed & Et)]; rewrite Ed, Et.
      + auto.
      + split; [lia|]. split; [lia|].
        rewrite Hthr. unfold ladder.
        replace (side_get (dca_buys_done eng) s + 1)%Z
          with (Z.succ (side_get (dca_buys_done eng) s)) by lia.
        rewrite Z2Nat.inj_succ by exact H0. reflexivity. }
  split; [exact Hinv|]. split.
  - intros fuel store L eng' L' Hs.
    destruct (step_dca_state _ _ _ _ _ _ _ _ _ s Hs)
      as [[Ed Et]|(Hle & Ed & Et)]; [left; auto|right].
    split; [exact Hle|]. split; [exact Ed|].
    rewrite Et. destruct Hinv as (_ & _ & ->). reflexivity.
  - intros fuel store L eng' L' up_ask down_ask Hs Hua Hda. split.
    + intros Hbu Hbd Hp Hcost Hbest Hdone.
      exact (proj2 (step_threshold_fires _ _ _ _ _ _ _ _ _ _ _ Hs Hua Hda
                      Hbu Hbd Hp Hcost Hbest Hdone)).
    + intros Hidle.
      exact (proj1 (step_threshold_idle _ _ _ _ _ _ _ _ _ _ _ Hs Hua Hda
                      Hidle)).
Qed.

Lemma dca_counter_and_threshold_follow_the_ladder_witness :
  exists (eng3 : Engine) (L3 : Ledger),
    ticks 5 default_cfg threshold35 example_market
          [quarter_store; quarter_store; quarter_store]
          (reset_for_new_market default_cfg) example_ledger
      = Some (eng3, L3) /\
    side_get (dca_buys_done eng3) UP = 3%Z /\
    side_get (next_dca_threshold eng3) UP = ladder default_cfg 3.
Proof.
  destruct (ticks 5 default_cfg threshold35 example_market
                  [quarter_store; quarter_store; quarter_store]
                  (reset_for_new_market default_cfg) example_ledger)
    as [[eng3 L3]|] eqn:E; [|vm_compute in E; discriminate].
  assert (Hc : side_get (dca_buys_done eng3) UP = 3%Z).
  { change (match Some (eng3, L3) with
            | Some x => side_get (dca_buys_done (fst x)) UP
            | None => 0%Z
            end = 3%Z).
    rewrite <- E. vm_compute. reflexivity. }
  exists eng3, L3. split; [reflexivity|]. split; [exact Hc|].
  pose proof (ticks_in_market _ _ _ _ _ _ _ _ _
                (in_market_reset default_cfg threshold35 example_market) E)
    as Hin.
  destruct (dca_counter_and_threshold_follow_the_ladder
              default_cfg threshold35 example_market eng3 UP Hin)
    as ((_ & _ & Hthr) & _).
  rewrite Hthr, Hc. reflexivity.
Defined.

(** ** The primary side *)

(** X10.  In threshold mode a primary side, once set, is kept by every
    tick; a tick that ends with no primary side has bought nothing; and
    a tick that sets the primary side sets it to a side whose best ask
    is at or below the entry price, to DOWN only when the best ask of
    UP is above the entry price. *)
Theorem primary_side_is_chosen_once :
  forall (fuel : nat) (cfg : StrategyConfig) (mkt : ActiveMarket)
         (store : gmap string OrderBook) (eng eng' : Engine) (L L' : Ledger),
    step fuel cfg threshold35 mkt store eng L = Some (eng', L') ->
    (forall p, primary eng = Some p -> primary eng' = Some p) /\
    (primary eng' = None -> L' = L) /\
    (forall p,
        primary eng = None -> primary eng' = Some p ->
        exists up_ask down_ask : Q,
          best_ask (store_get store (up_token mkt)) = Some up_ask /\
          best_ask (store_get store (down_token mkt)) = Some down_ask /\
          match p with
          | UP => up_ask <= entry_ask_cents cfg / 100
          | DOWN => entry_ask_cents cfg / 100 < up_ask /\
                    down_ask <= entry_ask_cents cfg / 100
          end).
Proof.
  intros fuel cfg mkt store eng eng' L L' Hstep.
  destruct (step_primary _ _ _ _ _ _ _ _ Hstep) as [Hkeep Hnone].
  split; [exact Hkeep|]. split; [exact Hnone|].
  intros p Hp0 Hp. unfold step in Hstep.
  destruct (best_ask (store_get store (up_token mkt))) as [up_ask|];
    [|inversion Hstep; congruence].
  destruct (best_ask (store_get store (down_token mkt))) as [down_ask|];
    [|inversion Hstep; congruence].
  destruct (best_bid _); [|inversion Hstep; congruence].
  destruct (best_bid _); [|inversion Hstep; congruence].
  apply step_threshold35_inv in Hstep as (L2 & Hd & _).
  apply dca_stage_cases in Hd as [Hprim _].
  exists up_ask, down_ask. split; [reflexivity|]. split; [reflexivity|].
  rewrite Hp in Hprim. unfold choose_primary in Hprim. rewrite Hp0 in Hprim.
  destruct (Qle_bool_spec up_ask (entry_ask_cents cfg / 100)) as [Hu|Hu].
  - simpl in Hprim. inversion Hprim; subst. exact Hu.
  - destruct (Qle_bool_spec down_ask (entry_ask_cents cfg / 100)) as [Hd|Hd].
    + simpl in Hprim. inversion Hprim; subst. split; assumption.
    + congruence.
Qed.

Lemma primary_side_is_chosen_once_witness :
  exists (eng' : Engine) (L' : Ledger),
    step 5 default_cfg threshold35 example_market quarter_store
         (reset_for_new_market default_cfg) example_ledger = Some (eng', L') /\
    (primary eng' = None -> L' = example_ledger).
Proof.
  destruct (step 5 default_cfg threshold35 example_market quarter_store
                 (reset_for_new_market default_cfg) example_ledger)
    as [[eng' L']|] eqn:E; [|vm_compute in E; discriminate].
  exists eng', L'. split; [reflexivity|].
  exact (proj1 (proj2 (primary_side_is_chosen_once _ _ _ _ _ _ _ _ E))).
Defined.

(** ** Spread mode *)

Lemma maybe_buy_log_length (cfg : StrategyConfig) (mkt : ActiveMarket)
    (token_id : string) (ob : OrderBook) (usd : Q) (note : string)
    (L : Ledger) :
  (length (flog (_maybe_buy cfg mkt token_id ob usd note L))
     <= S (length (flog L)))%nat.
Proof.
  destruct (maybe_buy_cases cfg mkt token_id ob usd note L)
    as [->|(sh & avg & spent & _ & _ & _ & _ & _ & _ & ->)]; [lia|].
  simpl. rewrite length_app. simpl. lia.
Qed.

(** X11.  A tick in spread mode never touches the engine state.  It
    changes the ledger only when the two best asks sum to less than
    [spread_sum_cap] with one of them at or above [expensive_min] and the
    other at or below [cheap_max]; and when [cheap_max] is below
    [expensive_min] it logs at most two fills. *)
Theorem spread_tick_buys_only_on_a_spread :
  forall (fuel : nat) (cfg : StrategyConfig) (mkt : ActiveMarket)
         (store : gmap string OrderBook) (eng eng' : Engine) (L L' : Ledger),
    step fuel cfg spread73_22 mkt store eng L = Some (eng', L') ->
    eng' = eng /\
    (L' <> L ->
     exists up_ask down_ask : Q,
       best_ask (store_get store (up_token mkt)) = Some up_ask /\
       best_ask (store_get store (down_token mkt)) = Some down_ask /\
       up_ask + down_ask < spread_sum_cap cfg /\
       (expensive_min cfg <= up_ask /\ down_ask <= cheap_max cfg \/
        expensive_min cfg <= down_ask /\ up_ask <= cheap_max cfg)) /\
    (cheap_max cfg < expensive_min cfg ->
     (length (flog L') <= length (flog L) + 2)%nat).
Proof.
  intros fuel cfg mkt store eng eng' L L'. unfold step.
  destruct (best_ask (store_get store (up_token mkt))) as [up_ask|];
    [|intros H; inversion H; subst; repeat split; [congruence|lia]].
  destruct (best_ask (store_get store (down_token mkt))) as [down_ask|];
    [|intros H; inversion H; subst; repeat split; [congruence|lia]].
  destruct (best_bid _);
    [|intros H; inversion H; subst; repeat split; [congruence|lia]].
  destruct (best_bid _);
    [|intros H; inversion H; subst; repeat split; [congruence|lia]].
  intros H; inversion H; subst; clear H.
  split; [reflexivity|]. unfold _step_spread73_22.
  set (c1 := Qle_bool (expensive_min cfg) up_ask
             && Qle_bool down_ask (cheap_max cfg)
             && Qlt_bool (up_ask + down_ask) (spread_sum_cap cfg)).
  set (c2 := Qle_bool (expensive_min cfg) down_ask
             && Qle_bool up_ask (cheap_max cfg)
             && Qlt_bool (down_ask + up_ask) (spread_sum_cap cfg)).
  assert (H1 : c1 = true ->
               expensive_min cfg <= up_ask /\ down_ask <= cheap_max cfg /\
               up_ask + down_ask < spread_sum_cap cfg).
  { unfold c1. rewrite !andb_true_iff, !Qle_bool_iff, Qlt_bool_true. tauto. }
  assert (H2 : c2 = true ->
               expensive_min cfg <= down_ask /\ up_ask <= cheap_max cfg /\
               down_ask + up_ask < spread_sum_cap cfg).
  { unfold c2. rewrite !andb_true_iff, !Qle_bool_iff, Qlt_bool_true. tauto. }
  split.
  - intros Hne. exists up_ask, down_ask.
    split; [reflexivity|]. split; [reflexivity|].
    destruct c1; [destruct (H1 eq_refl) as (? & ? & ?); split; [lra|tauto]|].
    destruct c2; [destruct (H2 eq_refl) as (? & ? & ?); split; [lra|tauto]|].
    congruence.
  - intros Hgap.
    destruct c1, c2.
    + destruct (H1 eq_refl) as (? & _). destruct (H2 eq_refl) as (_ & ? & _).
      exfalso. lra.
    + match goal with
      | |- context [_maybe_buy ?c ?m ?t ?o ?u ?n (_maybe_buy ?c' ?m' ?t' ?o' ?u' ?n' ?l)] =>
          pose proof (maybe_buy_log_length c' m' t' o' u' n' l);
          pose proof (maybe_buy_log_length c m t o u n
                        (_maybe_buy c' m' t' o' u' n' l))
      end. lia.
    + match goal with
      | |- context [_maybe_buy ?c ?m ?t ?o ?u ?n (_maybe_buy ?c' ?m' ?t' ?o' ?u' ?n' ?l)] =>
          pose proof (maybe_buy_log_length c' m' t' o' u' n' l);
          pose proof (maybe_buy_log_length c m t o u n
                        (_maybe_buy c' m' t' o' u' n' l))
      end. lia.
    + lia.
Qed.

Lemma spread_tick_buys_only_on_a_spread_witness :
  exists (eng' : Engine) (L' : Ledger),
    step 0 default_cfg spread73_22 example_market spread_store
         (reset_for_new_market default_cfg) example_ledger = Some (eng', L') /\
    eng' = reset_for_new_market default_cfg /\
    length (flog L') = 2%nat.
Proof.
  destruct (step 0 default_cfg spread73_22 example_market spread_store
                 (reset_for_new_market default_cfg) example_ledger)
    as [[eng' L']|] eqn:E; [|vm_compute in E; discriminate].
  exists eng', L'. split; [reflexivity|].
  split; [exact (proj1 (spread_tick_buys_only_on_a_spread _ _ _ _ _ _ _ _ E))|].
  change (match Some (eng', L') with
          | Some x => length (flog (snd x))
          | None => 0%nat
          end = 2%nat).
  rewrite <- E. vm_compute. reflexivity.
Defined.

(** ** Settlement *)








(** ** Loading the state file *)

Lemma fresh_accounts_fold (sb : gmap string Q) (syms : list string) :
  forall (acc : gmap string PaperAccount) (s : string),
    foldl (fun acc sym =>
             <[sym := {| symbol := sym;
                         cash := start_balance sb sym;
                         positions := ∅ |}]> acc) acc syms !! s
    = if decide (s ∈ syms) then Some (fresh_account sb s) else acc !! s.
Proof.
  induction syms as [|x xs IH]; intros acc s.
  - destruct (decide (s ∈ [])) as [Hin|_]; [|reflexivity].
    now apply elem_of_nil in Hin.
  - cbn [foldl]. rewrite IH.
    destruct (decide (s ∈ xs)) as [Hin|Hout];
      destruct (decide (s ∈ x :: xs)) as [Hin'|Hout']; try reflexivity.
    + exfalso. apply Hout'. apply elem_of_cons. now right.
    + apply elem_of_cons in Hin' as [->|?]; [|contradiction].
      now rewrite lookup_insert_eq.
    + apply lookup_insert_ne. intros ->. apply Hout'.
      apply elem_of_cons. now left.
Qed.

Lemma fresh_accounts_lookup (cfg : StrategyConfig) (sb : gmap string Q)
    (s : string) :
  fresh_accounts cfg sb !! s
    = if decide (s ∈ symbols cfg) then Some (fresh_account sb s) else None.
Proof.
  unfold fresh_accounts. rewrite fresh_accounts_fold.
  now rewrite lookup_empty.
Qed.

Section LoadingFacts.

Variable py_float : json -> option Q.
Variable py_str : json -> string.

(** The loading loop replaces accounts and adds none. *)
Lemma load_accounts_keys (blob : gmap string json) (sb : gmap string Q)
    (syms : list string) :
  forall acc : gmap string PaperAccount,
    Forall (fun x => is_Some (acc !! x)) syms ->
    forall s : string,
      is_Some (load_accounts py_float py_str blob sb syms acc !! s)
      <-> is_Some (acc !! s).
Proof.
  induction syms as [|sym rest IH]; intros acc Hall s; simpl; [reflexivity|].
  inversion Hall as [|? ? Hsym Hrest]; subst.
  destruct (blob !! sym) as [d|]; [|now apply IH].
  destruct (from_dict py_float py_str d sym (start_balance sb sym)) as [a|];
    [|reflexivity].
  rewrite IH.
  - destruct (decide (sym = s)) as [->|Hne].
    + rewrite lookup_insert_eq. split; [intros _; exact Hsym|eauto].
    + now rewrite lookup_insert_ne.
  - eapply Forall_impl; [exact Hrest|]. intros x Hx.
    destruct (decide (sym = x)) as [->|Hne].
    + rewrite lookup_insert_eq. eauto.
    + now rewrite lookup_insert_ne.
Qed.

(** A symbol without an entry in the file is not touched by the loading
    loop. *)
Lemma load_accounts_absent (blob : gmap string json) (sb : gmap string Q)
    (syms : list string) :
  forall (acc : gmap string PaperAccount) (s : string),
    blob !! s = None ->
    load_accounts py_float py_str blob sb syms acc !! s = acc !! s.
Proof.
  induction syms as [|sym rest IH]; intros acc s Hs; simpl; [reflexivity|].
  destruct (blob !! sym) as [d|] eqn:E; [|now apply IH].
  destruct (from_dict py_float py_str d sym (start_balance sb sym)) as [a|];
    [|reflexivity].
  rewrite IH by exact Hs. apply lookup_insert_ne. congruence.
Qed.

(** The loading loop ends at the first entry [from_dict] cannot read. *)
Lemma load_accounts_stops (blob : gmap string json) (sb : gmap string Q)
    (pre post : list string) (bad : string) (d : json) :
  blob !! bad = Some d ->
  from_dict py_float py_str d bad (start_balance sb bad) = None ->
  forall acc : gmap string PaperAccount,
    load_accounts py_float py_str blob sb (pre ++ bad :: post) acc
      = load_accounts py_float py_str blob sb pre acc.
Proof.
  intros Hb Hf. induction pre as [|sym rest IH]; intros acc; simpl.
  - now rewrite Hb, Hf.
  - destruct (blob !! sym) as [d'|]; [|apply IH].
    destruct (from_dict py_float py_str d' sym (start_balance sb sym));
      [apply IH|reflexivity].
Qed.

Lemma load_state_accounts (cfg : StrategyConfig) (sb : gmap string Q)
    (fs : FileState) :
  fst (load_state py_float py_str cfg sb fs) = fresh_accounts cfg sb \/
  exists dm acc_blob,
    fs = Content (JObj dm) /\
    dm !! "accounts"%string = Some (JObj acc_blob) /\
    fst (load_state py_float py_str cfg sb fs)
      = load_accounts py_float py_str acc_blob sb (symbols cfg)
                      (fresh_accounts cfg sb).
Proof.
  unfold load_state. destruct fs as [| |[| | | | |dm]]; try (now left).
  destruct (dm !! "accounts"%string) as [[| | | | |acc_blob]|] eqn:E;
    try (now left).
  right. exists dm, acc_blob. auto.
Qed.

(** X14.  Whatever the state file holds, and whatever [float] and [str]
    make of its values, [load_state] returns an account for every
    configured symbol and for no other key. *)
Theorem load_state_has_the_configured_symbols :
  forall (cfg : StrategyConfig) (start_balances : gmap string Q)
         (fs : FileState) (s : string),
    is_Some (fst (load_state py_float py_str cfg start_balances fs) !! s)
    <-> s ∈ symbols cfg.
Proof.
  intros cfg sb fs s.
  assert (Hfresh : is_Some (fresh_accounts cfg sb !! s) <-> s ∈ symbols cfg).
  { rewrite fresh_accounts_lookup. destruct (decide (s ∈ symbols cfg)).
    - split; eauto.
    - split; [intros [? ?]; discriminate|contradiction]. }
  destruct (load_state_accounts cfg sb fs) as [->|(dm & blob & _ & _ & ->)];
    [exact Hfresh|].
  rewrite load_accounts_keys; [exact Hfresh|].
  apply Forall_forall. intros x Hx. rewrite fresh_accounts_lookup.
  rewrite decide_True by exact Hx. eauto.
Qed.

(** X15.  A configured symbol for which the state file holds no entry
    (the file is missing or unreadable, its document is no object or has
    no object of accounts, or that object lacks the symbol) is loaded
    with its starting balance, 100.0 when none is given, and with no
    position, whatever the other entries of the file are. *)
Theorem symbol_without_entry_starts_fresh :
  forall (cfg : StrategyConfig) (start_balances : gmap string Q)
         (fs : FileState) (s : string),
    s ∈ symbols cfg ->
    file_entry fs s = None ->
    fst (load_state py_float py_str cfg start_balances fs) !! s
      = Some {| symbol := s;
                cash := default 100.0 (start_balances !! s);
                positions := ∅ |}.
Proof.
  intros cfg sb fs s Hs Hentry.
  assert (Hfresh : fresh_accounts cfg sb !! s
                   = Some {| symbol := s;
                             cash := default 100.0 (sb !! s);
                             positions := ∅ |}).
  { rewrite fresh_accounts_lookup. now rewrite decide_True by exact Hs. }
  destruct (load_state_accounts cfg sb fs)
    as [->|(dm & blob & -> & Hacc & ->)]; [exact Hfresh|].
  simpl in Hentry. rewrite Hacc in Hentry.
  now rewrite load_accounts_absent.
Qed.

(** X16.  An entry of the state file that [from_dict] cannot read ends
    the loading: the symbol of that entry, and every configured symbol
    that comes only after it in [cfg.symbols], is left with its starting
    account, even where the file holds a well-formed entry for it. *)
Theorem unreadable_entry_ends_the_loading :
  forall (cfg : StrategyConfig) (start_balances : gmap string Q)
         (dm acc_blob : gmap string json) (pre post : list string)
         (bad s : string) (d : json),
    dm !! "accounts"%string = Some (JObj acc_blob) ->
    symbols cfg = pre ++ bad :: post ->
    acc_blob !! bad = Some d ->
    from_dict py_float py_str d bad (start_balance start_balances bad)
      = None ->
    s ∉ pre ->
    fst (load_state py_float py_str cfg start_balances (Content (JObj dm))) !! s
      = fresh_accounts cfg start_balances !! s.
Proof.
  intros cfg sb dm blob pre post bad s d Hacc Hsyms Hbad Hfail Hs.
  unfold load_state. rewrite Hacc. simpl. rewrite Hsyms.
  rewrite (load_accounts_stops blob sb pre post bad d Hbad Hfail).
  now apply (load_accounts_other py_float py_str).
Qed.

End LoadingFacts.

Lemma load_state_has_the_configured_symbols_witness :
  is_Some (fst (load_state float_of_json str_of_json default_cfg ∅
                           broken_file) !! "XRP"%string).
Proof.
  apply (load_state_has_the_configured_symbols float_of_json str_of_json).
  simpl. repeat constructor.
Defined.

Lemma symbol_without_entry_starts_fresh_witness :
  fst (load_state float_of_json str_of_json default_cfg ∅ broken_file)
    !! "XRP"%string
  = Some {| symbol := "XRP";
            cash := default 100.0 ((∅ : gmap string Q) !! "XRP"%string);
            positions := ∅ |}.
Proof.
  apply (symbol_without_entry_starts_fresh float_of_json str_of_json
           default_cfg ∅ broken_file "XRP").
  - simpl. repeat constructor.
  - reflexivity.
Defined.

Lemma unreadable_entry_ends_the_loading_witness :
  fst (load_state float_of_json str_of_json default_cfg ∅ broken_file)
    !! "SOL"%string
  = fresh_accounts default_cfg ∅ !! "SOL"%string.
Proof.
  refine (unreadable_entry_ends_the_loading float_of_json str_of_json
            default_cfg ∅ _ _ ["BTC"%string] ["SOL"%string; "XRP"%string]
            "ETH" "SOL" JNull _ _ _ _ _).
  - reflexivity.
  - reflexivity.
  - reflexivity.
  - reflexivity.
  - intros H. apply elem_of_cons in H as [H|H]; [discriminate|].
    now apply elem_of_nil in H.
Defined.

(** ** The choice among candidate markets *)

Section SortBy.

Context {A : Type} (key : A -> Q).

Lemma insert_by_perm (x : A) (l : list A) :
  Permutation (insert_by key x l) (x :: l).
Proof.
  induction l as [|y ys IH]; simpl; [reflexivity|].
  destruct (Qle_bool (key x) (key y)); [reflexivity|].
  rewrite IH. apply perm_swap.
Qed.

Lemma sort_by_perm (l : list A) : Permutation (sort_by key l) l.
Proof.
  induction l as [|x xs IH]; simpl; [reflexivity|].
  rewrite insert_by_perm. now constructor.
Qed.

Lemma insert_by_sorted (x : A) (l : list A) :
  StronglySorted (fun a b => key a <= key b) l ->
  StronglySorted (fun a b => key a <= key b) (insert_by key x l).
Proof.
  induction 1 as [|y ys Hs IH Hall]; simpl.
  - repeat constructor.
  - destruct (Qle_bool_spec (key x) (key y)) as [Hle|Hlt].
    + constructor; [constructor; assumption|].
      constructor; [exact Hle|].
      eapply Forall_impl; [exact Hall|]. intros z Hz. simpl in Hz. lra.
    + constructor; [exact IH|].
      rewrite insert_by_perm. constructor; [lra|exact Hall].
Qed.

Lemma sort_by_sorted (l : list A) :
  StronglySorted (fun a b => key a <= key b) (sort_by key l).
Proof.
  induction l as [|x xs IH]; simpl; [constructor|].
  apply insert_by_sorted, IH.
Qed.

(** The first element of the sorted list is an element of the list
    whose key is least. *)
Lemma sort_by_head (l : list A) (x : A) :
  head (sort_by key l) = Some x ->
  x ∈ l /\ Forall (fun y => key x <= key y) l.
Proof.
  intros Hh.
  pose proof (sort_by_sorted l) as Hs. pose proof (sort_by_perm l) as Hp.
  destruct (sort_by key l) as [|z zs]; [discriminate|].
  inversion Hh; subst z. split.
  - rewrite <- Hp. apply elem_of_cons. now left.
  - rewrite <- Hp. constructor; [lra|]. now inversion Hs.
Qed.

Lemma sort_by_head_none (l : list A) : head (sort_by key l) = None -> l = [].
Proof.
  intros Hh. pose proof (sort_by_perm l) as Hp.
  destruct (sort_by key l); [|discriminate].
  now apply Permutation_nil in Hp.
Qed.

End SortBy.

Lemma timed_spec (candidates : list Candidate) (tcs : list (Q * Candidate)) :
  timed candidates = Some tcs ->
  Forall2 (fun c tc => cand_end c = Aware (fst tc) /\ snd tc = c)
          candidates tcs.
Proof.
  intros H. apply mapM_Some_1 in H.
  eapply Forall2_impl; [exact H|].
  intros c tc Hc. simpl in Hc. unfold end_instant in Hc.
  destruct (cand_end c) as [t|t]; simpl in Hc; [|discriminate].
  inversion Hc; subst tc. auto.
Qed.

Lemma timed_naive (candidates : list Candidate) :
  timed candidates = None ->
  exists (c : Candidate) (t : Q), c ∈ candidates /\ cand_end c = Naive t.
Proof.
  intros H. apply mapM_None_1 in H. apply Exists_exists in H as (c & Hin & Hc).
  unfold end_instant in Hc.
  destruct (cand_end c) as [t|t] eqn:E; simpl in Hc; [discriminate|].
  exists c, t. auto.
Qed.

(** X18.  From the candidates it has gathered, [discover_next_market]
    raises a [TypeError] exactly when the end time of one of them is
    naive.  Otherwise it returns nothing only when there is no
    candidate, and else one of them: when some candidate ends at [now]
    or later, the one returned ends at [now] or later and no such
    candidate ends before it; when every candidate has ended, the one
    returned has its end nearest to [now]. *)
Theorem select_candidate_picks_the_next_market :
  forall (now : Q) (candidates : list Candidate),
    match select_candidate now candidates with
    | None =>
        exists (c : Candidate) (t : Q),
          c ∈ candidates /\ cand_end c = Naive t
    | Some None => candidates = []
    | Some (Some c) =>
        c ∈ candidates /\
        Forall (fun c' => exists t', cand_end c' = Aware t') candidates /\
        exists t : Q,
          cand_end c = Aware t /\
          ((now <= t /\
            Forall (fun c' => forall t', cand_end c' = Aware t' ->
                                         now <= t' -> t <= t')
                   candidates) \/
           (Forall (fun c' => forall t', cand_end c' = Aware t' -> t' < now)
                   candidates /\
            Forall (fun c' => forall t', cand_end c' = Aware t' ->
                                         Qabs (t - now) <= Qabs (t' - now))
                   candidates))
    end.
Proof.
  intros now candidates. unfold select_candidate.
  destruct (timed candidates) as [tcs|] eqn:Et; simpl;
    [|exact (timed_naive candidates Et)].
  pose proof (timed_spec candidates tcs Et) as H2.
  assert (Hfrom : forall tc, tc ∈ tcs ->
                    snd tc ∈ candidates /\ cand_end (snd tc) = Aware (fst tc)).
  { intros tc Htc.
    destruct (proj1 (list_elem_of_lookup _ _) Htc) as [i Hi].
    destruct (Forall2_lookup_r _ _ _ _ _ H2 Hi) as (c & Hc & He & <-).
    split; [|exact He]. now apply list_elem_of_lookup_2 in Hc. }
  assert (Hto : forall c t', c ∈ candidates -> cand_end c = Aware t' ->
                  (t', c) ∈ tcs).
  { intros c t' Hc He.
    destruct (proj1 (list_elem_of_lookup _ _) Hc) as [i Hi].
    destruct (Forall2_lookup_l _ _ _ _ _ H2 Hi) as (tc & Htc & He' & Hs).
    rewrite He in He'. inversion He'; subst t'.
    apply list_elem_of_lookup_2 in Htc.
    destruct tc as [t0 c0]; simpl in *. now subst c0. }
  assert (Haware : Forall (fun c' => exists t', cand_end c' = Aware t')
                          candidates).
  { apply Forall_forall. intros c Hc.
    destruct (proj1 (list_elem_of_lookup _ _) Hc) as [i Hi].
    destruct (Forall2_lookup_l _ _ _ _ _ H2 Hi) as (tc & _ & He & _).
    now exists (fst tc). }
  unfold select_aware.
  destruct tcs as [|tc0 rest].
  { now inversion H2. }
  set (all := tc0 :: rest) in *.
  destruct (List.filter (fun tc => Qle_bool now (fst tc)) all)
    as [|f fs] eqn:Ef.
  - destruct (head (sort_by (end_distance now) all)) as [tc|] eqn:Eh; simpl.
    + destruct (sort_by_head _ _ _ Eh) as [Hin Hmin].
      destruct (Hfrom tc Hin) as [Hc He].
      split; [exact Hc|]. split; [exact Haware|].
      exists (fst tc). split; [exact He|]. right.
      assert (Hpast : forall c' t', c' ∈ candidates ->
                        cand_end c' = Aware t' -> t' < now).
      { intros c' t' Hc' He'.
        destruct (Qlt_le_dec t' now) as [|Hle]; [assumption|].
        exfalso.
        assert (Hf : In (t', c')
                        (List.filter (fun tc => Qle_bool now (fst tc)) all)).
        { apply filter_In. split; [apply list_elem_of_In; now apply Hto|].
          now apply Qle_bool_iff. }
        rewrite Ef in Hf. exact Hf. }
      split; apply Forall_forall; intros c' Hc' t' He'.
      * now apply (Hpast c').
      * rewrite Forall_forall in Hmin.
        exact (Hmin (t', c') (Hto c' t' Hc' He')).
    + apply sort_by_head_none in Eh. discriminate.
  - destruct (head (sort_by fst (f :: fs))) as [tc|] eqn:Eh; simpl.
    + destruct (sort_by_head _ _ _ Eh) as [Hin Hmin].
      rewrite <- Ef in Hin, Hmin.
      apply list_elem_of_In, filter_In in Hin as [Hin Hfut].
      apply list_elem_of_In in Hin.
      destruct (Hfrom tc Hin) as [Hc He].
      split; [exact Hc|]. split; [exact Haware|].
      exists (fst tc). split; [exact He|]. left.
      split; [now apply Qle_bool_iff|].
      apply Forall_forall. intros c' Hc' t' He' Hfut'.
      rewrite Forall_forall in Hmin.
      apply (Hmin (t', c')).
      apply list_elem_of_In, filter_In.
      split; [apply list_elem_of_In; now apply Hto|].
      now apply Qle_bool_iff.
    + apply sort_by_head_none in Eh. discriminate.
Qed.

Lemma select_candidate_picks_the_next_market_witness :
  (exists c : Candidate,
      select_candidate 100 example_candidates = Some (Some c) /\
      c ∈ example_candidates /\
      exists t : Q, cand_end c = Aware t /\ 100 <= t) /\
  select_candidate 100 (example_candidates ++ [naive_candidate]) = None.
Proof.
  split.
  - pose proof (select_candidate_picks_the_next_market 100 example_candidates)
      as H.
    destruct (select_candidate 100 example_candidates) as [[c|]|] eqn:E.
    + exists c. split; [reflexivity|].
      destruct H as (Hin & _ & t & He & [[Hle _]|[Hpast _]]).
      * split; [exact Hin|]. now exists t.
      * exfalso. rewrite Forall_forall in Hpast.
        assert (Hc : {| cand_end := Aware 110;
                        cand_market := example_market |}
                     ∈ example_candidates) by (simpl; repeat constructor).
        specialize (Hpast _ Hc 110 eq_refl). vm_compute in Hpast.
        discriminate.
    + discriminate H.
    + vm_compute in E. discriminate.
  - pose proof (select_candidate_picks_the_next_market 100
                  (example_candidates ++ [naive_candidate])) as H.
    destruct (select_candidate 100 (example_candidates ++ [naive_candidate]))
      as [[c|]|] eqn:E; [exfalso|discriminate H|reflexivity].
    destruct H as (_ & Haware & _).
    rewrite Forall_forall in Haware.
    destruct (Haware naive_candidate) as [t Ht]; [|discriminate].
    apply elem_of_app. right. apply elem_of_cons. now left.
Defined.

(** ** Defaults of [from_dict] *)

(** X17.  [from_dict] fills in what an entry of the state file lacks,
    each default on its own.  An entry without a ["cash"] key reads as
    the same entry with the default balance for cash, so the account
    read has the default balance.  With ["positions"] missing, [null] or
    empty (any value that counts as false) the account read has no
    position.  With ["symbol"] missing, [null] or empty it has the
    default symbol.  An entry with no cash and no positions is always
    read.  A position without ["shares"] reads with 0 shares, one
    without ["cost_usd"] with 0 cost, whatever the other field holds.
    An entry, or a position, that is no object cannot be read. *)
Theorem from_dict_fills_in_defaults :
  forall (py_float : json -> option Q) (py_str : json -> string),
    (forall q : Q, py_float (JNum q) = Some q) ->
    (forall s : string, py_str (JStr s) = s) ->
    (forall (dm : gmap string json) (default_symbol : string)
            (default_balance : Q),
        dm !! "cash"%string = None ->
        from_dict py_float py_str (JObj dm) default_symbol default_balance
          = from_dict py_float py_str
              (JObj (<["cash"%string := JNum default_balance]> dm))
              default_symbol default_balance /\
        forall a : PaperAccount,
          from_dict py_float py_str (JObj dm) default_symbol default_balance
            = Some a ->
          cash a = default_balance) /\
    (forall (dm : gmap string json) (default_symbol : string)
            (default_balance : Q) (a : PaperAccount),
        truthy (default (JObj ∅) (dm !! "positions"%string)) = false ->
        from_dict py_float py_str (JObj dm) default_symbol default_balance
          = Some a ->
        positions a = ∅) /\
    (forall (dm : gmap string json) (default_symbol : string)
            (default_balance : Q) (a : PaperAccount),
        truthy (default JNull (dm !! "symbol"%string)) = false ->
        from_dict py_float py_str (JObj dm) default_symbol default_balance
          = Some a ->
        symbol a = default_symbol) /\
    (forall (dm : gmap string json) (default_symbol : string)
            (default_balance : Q),
        dm !! "cash"%string = None ->
        truthy (default (JObj ∅) (dm !! "positions"%string)) = false ->
        from_dict py_float py_str (JObj dm) default_symbol default_balance
          = Some {| symbol := py_str (py_or (default JNull
                                               (dm !! "symbol"%string))
                                            (JStr default_symbol));
                    cash := default_balance;
                    positions := ∅ |}) /\
    (forall vm : gmap string json,
        vm !! "shares"%string = None ->
        position_from_json py_float (JObj vm)
          = (c ← py_float (default (JNum 0.0) (vm !! "cost_usd"%string));
             Some (mkPosition 0.0 c))) /\
    (forall vm : gmap string json,
        vm !! "cost_usd"%string = None ->
        position_from_json py_float (JObj vm)
          = (sh ← py_float (default (JNum 0.0) (vm !! "shares"%string));
             Some (mkPosition sh 0.0))) /\
    (forall (d : json) (default_symbol : string) (default_balance : Q),
        (forall dm, d <> JObj dm) ->
        from_dict py_float py_str d default_symbol default_balance = None /\
        position_from_json py_float d = None).
Proof.
  intros py_float py_str Hnum Hstr.
  assert (Hcash : forall (dm : gmap string json) sym bal,
             dm !! "cash"%string = None ->
             from_dict py_float py_str (JObj dm) sym bal
               = from_dict py_float py_str
                   (JObj (<["cash"%string := JNum bal]> dm)) sym bal).
  { intros dm sym bal Hc. unfold from_dict.
    rewrite (lookup_insert_eq dm "cash"%string (JNum bal)).
    rewrite (lookup_insert_ne dm "cash"%string "symbol"%string (JNum bal))
      by discriminate.
    rewrite (lookup_insert_ne dm "cash"%string "positions"%string (JNum bal))
      by discriminate.
    rewrite Hc. reflexivity. }
  split; [|split; [|split; [|split; [|split; [|split]]]]].
  - intros dm sym bal Hc. split; [exact (Hcash dm sym bal Hc)|].
    intros a. unfold from_dict. rewrite Hc. cbn [default].
    rewrite Hnum. cbn [mbind option_bind].
    destruct (py_or _ _); try discriminate.
    destruct (map_fold _ _ _); cbn [mbind option_bind]; [|discriminate].
    intros H; inversion H; reflexivity.
  - intros dm sym bal a Hpos. unfold from_dict.
    destruct (py_float _); cbn [mbind option_bind]; [|discriminate].
    unfold py_or at 1. rewrite Hpos. rewrite map_fold_empty.
    cbn [mbind option_bind]. intros H; inversion H; reflexivity.
  - intros dm sym bal a Hsym. unfold from_dict.
    destruct (py_float _); cbn [mbind option_bind]; [|discriminate].
    destruct (py_or (default (JObj ∅) _) _); try discriminate.
    destruct (map_fold _ _ _); cbn [mbind option_bind]; [|discriminate].
    intros H; inversion H; subst a. cbn [symbol].
    unfold py_or. rewrite Hsym. apply Hstr.
  - intros dm sym bal Hc Hpos. unfold from_dict.
    rewrite Hc. cbn [default]. rewrite Hnum. cbn [mbind option_bind].
    unfold py_or at 1. rewrite Hpos. rewrite map_fold_empty. reflexivity.
  - intros vm Hsh. unfold position_from_json. rewrite Hsh. cbn [default].
    rewrite Hnum. reflexivity.
  - intros vm Hc. unfold position_from_json. rewrite Hc. cbn [default].
    rewrite Hnum.
    destruct (py_float _); reflexivity.
  - intros d sym bal Hd. destruct d; try (split; reflexivity).
    exfalso. now apply (Hd m).
Qed.

Lemma from_dict_fills_in_defaults_witness :
  exists a : PaperAccount,
    from_dict float_of_json str_of_json (JObj bare_entry) "BTC" 100 = Some a /\
    cash a = 100 /\
    symbol a = "BTC"%string /\
    position_from_json float_of_json (JObj costly_position)
      = Some (mkPosition 0.0 1.1).
Proof.
  destruct (from_dict float_of_json str_of_json (JObj bare_entry) "BTC" 100)
    as [a|] eqn:E; [|vm_compute in E; discriminate].
  destruct (from_dict_fills_in_defaults float_of_json str_of_json
              (fun q => eq_refl) (fun s => eq_refl))
    as (Hcash & _ & Hsym & _ & Hshares & _).
  exists a. split; [reflexivity|].
  split; [exact (proj2 (Hcash bare_entry "BTC"%string 100 eq_refl) a E)|].
  split; [exact (Hsym bare_entry "BTC"%string 100 a eq_refl E)|].
  rewrite (Hshares costly_position eq_refl). reflexivity.
Defined.

(** ** [clamp] *)

(** X19.  With [lo <= hi], [clamp(n, lo, hi)] lies between [lo] and
    [hi], is [n] itself when [n] does, and clamping twice is clamping
    once; with [lo > hi] it is [lo], whatever [n] is. *)
Theorem clamp_keeps_the_range :
  forall n lo hi : Q,
    (lo <= hi ->
     lo <= clamp n lo hi /\ clamp n lo hi <= hi /\
     (lo <= n /\ n <= hi -> clamp n lo hi == n) /\
     clamp (clamp n lo hi) lo hi == clamp n lo hi) /\
    (hi < lo -> clamp n lo hi == lo).
Proof.
  intros n lo hi. unfold clamp. split.
  - intros Hr.
    destruct (Qmax_cases lo (Qmin hi n)) as [[H1 E1]|[H1 E1]];
    destruct (Qmin_cases hi n) as [[H2 E2]|[H2 E2]];
    (split; [lra|split; [lra|split; [intros [? ?]; lra|]]]);
    rewrite E1;
    destruct (Qmax_cases lo (Qmin hi lo)) as [[H3 E3]|[H3 E3]];
    destruct (Qmin_cases hi lo) as [[H4 E4]|[H4 E4]];
    destruct (Qmax_cases lo (Qmin hi (Qmin hi n))) as [[H5 E5]|[H5 E5]];
    destruct (Qmin_cases hi (Qmin hi n)) as [[H6 E6]|[H6 E6]]; lra.
  - intros Hr.
    destruct (Qmax_cases lo (Qmin hi n)) as [[H1 E1]|[H1 E1]];
    destruct (Qmin_cases hi n) as [[H2 E2]|[H2 E2]]; lra.
Qed.

Lemma clamp_keeps_the_range_witness :
  clamp (0.35 - 0.05) 0.01 0.99 == 0.30.
Proof.
  rewrite (proj1 (proj2 (proj2 (proj1 (clamp_keeps_the_range
                                         (0.35 - 0.05) 0.01 0.99)
                                      ltac:(lra)))));
    [reflexivity|split; lra].
Defined.

(** ** The hedge loop with enough cash *)

Lemma hedge_loop_ends_with_cash_witness :
  exists v' : HedgeVars,
    hedge_loop default_cfg example_market "up" "down" quarter_book 1
               funded_vars = Some v'.
Proof.
  apply (hedge_loop_ends_with_cash default_cfg example_market "up" "down"
           quarter_book 1 funded_vars).
  - split; reflexivity.
  - apply Qle_bool_iff. vm_compute. reflexivity.
  - apply Qle_bool_iff. vm_compute. reflexivity.
Defined.

(** ** The average price of a position *)




(** ** A larger budget *)

Lemma walk_levels_exhausted (lv : list Level) (b : Q) :
  b <= budget_eps -> walk_levels lv b = (0, 0).
Proof.
  intros H. destruct lv as [|[price size] rest]; simpl; [reflexivity|].
  apply Qle_bool_iff in H. now rewrite H.
Qed.

Lemma walk_levels_nonneg (lv : list Level) :
  Forall level_ok lv ->
  forall b : Q, 0 <= fst (walk_levels lv b) /\ 0 <= snd (walk_levels lv b).
Proof.
  induction 1 as [|[price size] rest [Hprice Hsize] Hrest IH]; intros b;
    simpl in *; [split; lra|].
  pose proof budget_eps_pos as Heps.
  destruct (Qle_bool_spec b budget_eps) as [|Hb]; simpl; [split; lra|].
  assert (Hm : 0 <= Qmin size (b / price)).
  { apply Q.min_glb; [assumption|].
    apply Qlt_le_weak, Qdiv_pos; [lra|assumption]. }
  destruct (IH (b - Qmin size (b / price) * price)) as [I1 I2].
  destruct (walk_levels rest (b - Qmin size (b / price) * price)) as [s c].
  simpl in *.
  assert (0 <= Qmin size (b / price) * price)
    by (apply Qmult_le_0_compat; lra).
  split; lra.
Qed.

Lemma walk_levels_monotone (lv : list Level) :
  Forall level_ok lv ->
  forall b1 b2 : Q,
    b1 <= b2 ->
    fst (walk_levels lv b1) <= fst (walk_levels lv b2) /\
    snd (walk_levels lv b1) <= snd (walk_levels lv b2).
Proof.
  induction 1 as [|[price size] rest [Hprice Hsize] Hrest IH];
    intros b1 b2 Hb; simpl in *; [split; lra|].
  pose proof budget_eps_pos as Heps.
  destruct (Qle_bool_spec b1 budget_eps) as [H1|H1].
  { pose proof (walk_levels_nonneg ((price, size) :: rest)
                  ltac:(constructor; [split|]; assumption) b2) as Hn.
    simpl in Hn. simpl. exact Hn. }
  destruct (Qle_bool_spec b2 budget_eps) as [H2|H2]; [exfalso; lra|].
  set (m1 := Qmin size (b1 / price)). set (m2 := Qmin size (b2 / price)).
  assert (Hdiv : b1 / price <= b2 / price).
  { apply Qle_shift_div_l; [assumption|].
    rewrite Qdiv_mult_cancel by assumption. exact Hb. }
  assert (Hm : m1 <= m2) by (apply Q.min_le_compat_l; exact Hdiv).
  assert (Hm1 : 0 <= m1).
  { apply Q.min_glb; [assumption|].
    apply Qlt_le_weak, Qdiv_pos; [lra|assumption]. }
  assert (Hp12 : m1 * price <= m2 * price)
    by (apply Qmult_le_compat_r; lra).
  pose proof (walk_levels_nonneg rest Hrest (b2 - m2 * price)) as [N1 N2].
  destruct (Qmin_cases size (b1 / price)) as [[Hle E1]|[Hlt E1]];
    fold m1 in E1.
  - assert (E2 : m2 == size) by (apply Q.min_l; lra).
    assert (Hr : b1 - m1 * price <= b2 - m2 * price)
      by (rewrite E1, E2; lra).
    destruct (IH _ _ Hr) as [I1 I2].
    destruct (walk_levels rest (b1 - m1 * price)) as [s1 c1].
    destruct (walk_levels rest (b2 - m2 * price)) as [s2 c2].
    simpl in *. split; lra.
  - assert (Hz : b1 - m1 * price == 0) by (rewrite E1; field; lra).
    rewrite (walk_levels_exhausted rest (b1 - m1 * price)) by lra.
    destruct (walk_levels rest (b2 - m2 * price)) as [s2 c2].
    simpl in *. split; lra.
Qed.

(** X22.  On asks of the data model a larger budget never buys fewer
    shares and never spends less: raising [usd_to_spend] raises, or
    keeps, both the shares and the cost [consume_asks_for_buy]
    returns. *)
Theorem larger_budget_buys_no_less :
  forall (ob : OrderBook) (usd1 usd2 : Q),
    Forall level_ok (asks ob) ->
    usd1 <= usd2 ->
    fst (fst (consume_asks_for_buy ob usd1))
      <= fst (fst (consume_asks_for_buy ob usd2)) /\
    snd (consume_asks_for_buy ob usd1) <= snd (consume_asks_for_buy ob usd2).
Proof.
  intros ob usd1 usd2 Hok Hle. unfold consume_asks_for_buy.
  destruct (consume_loop_walk (asks ob) Hok usd1 0 0) as [A1 A2].
  destruct (consume_loop_walk (asks ob) Hok usd2 0 0) as [B1 B2].
  destruct (walk_levels_monotone (asks ob) Hok usd1 usd2 Hle) as [M1 M2].
  destruct (consume_loop (asks ob) usd1 0 0) as [s1 c1].
  destruct (consume_loop (asks ob) usd2 0 0) as [s2 c2].
  simpl in *. split; lra.
Qed.

Lemma larger_budget_buys_no_less_witness :
  fst (fst (consume_asks_for_buy example_book 0.5))
    <= fst (fst (consume_asks_for_buy example_book 1.10)).
Proof.
  refine (proj1 (larger_budget_buys_no_less example_book 0.5 1.10 _ _)).
  - repeat (constructor; [split; simpl; lra|]). constructor.
  - lra.
Defined.

(** ** A trigger without a buy *)

(** X23.  A DCA trigger uses up a step of the ladder whether or not its
    buy goes through: when the side is under its spend cap, the best ask
    has reached the threshold and the counter is at most [dca_levels],
    but the cash is below one chunk plus the reserve, [_dca_if_trigger]
    leaves the ledger as it was and still raises the counter of the side
    by one and lowers its threshold. *)
Theorem dca_trigger_counts_a_rejected_buy :
  forall (cfg : StrategyConfig) (mkt : ActiveMarket) (side_label : Side)
         (token_id : string) (ob : OrderBook) (best : Q)
         (eng : Engine) (L : Ledger),
    cost_usd (position_of (acct L) token_id) < max_side_spend_usd cfg ->
    best <= side_get (next_dca_threshold eng) side_label ->
    (side_get (dca_buys_done eng) side_label <= dca_levels cfg)%Z ->
    cash (acct L) < buy_chunk_usd cfg + require_free_cash cfg ->
    let '(eng', L') :=
      _dca_if_trigger cfg mkt side_label token_id ob best eng L in
    L' = L /\
    side_get (dca_buys_done eng') side_label
      = (side_get (dca_buys_done eng) side_label + 1)%Z /\
    side_get (next_dca_threshold eng') side_label
      = clamp (side_get (next_dca_threshold eng) side_label
               - dca_step_cents cfg / 100) 0.01 0.99.
Proof.
  intros cfg mkt side_label token_id ob best eng L Hcap Hbest Hdone Hcash.
  unfold _dca_if_trigger.
  apply Qle_bool_false in Hcap. rewrite Hcap.
  apply Qle_bool_iff in Hbest. rewrite Hbest.
  apply Z.leb_le in Hdone. rewrite Hdone.
  cbv beta iota zeta. cbn [dca_buys_done next_dca_threshold].
  rewrite !side_get_set. rewrite !decide_True by reflexivity.
  split; [|split; reflexivity].
  destruct (maybe_buy_cases cfg mkt token_id ob (buy_chunk_usd cfg)
              (side_note side_label) L)
    as [E|(sh & avg & spent & _ & _ & Hc & _)]; [exact E|exfalso; lra].
Qed.

Lemma dca_trigger_counts_a_rejected_buy_witness :
  snd (_dca_if_trigger default_cfg example_market UP "down" quarter_book
                       0.25 (reset_for_new_market default_cfg) broke_ledger)
    = broke_ledger.
Proof.
  pose proof (dca_trigger_counts_a_rejected_buy default_cfg example_market
                UP "down" quarter_book 0.25
                (reset_for_new_market default_cfg) broke_ledger) as H.
  destruct (_dca_if_trigger default_cfg example_market UP "down" quarter_book
              0.25 (reset_for_new_market default_cfg) broke_ledger)
    as [eng' L'].
  simpl. apply H.
  - reflexivity.
  - apply Qle_bool_iff. vm_compute. reflexivity.
  - simpl. lia.
  - reflexivity.
Defined.
